(** * Container files, patch handlers and delta patches ([worlds/Files.py])

    A shallow embedding of [Files.py]: the handler registry filled by the
    metaclass [AutoPatchRegister], the container envelope [APContainer] with
    its manifest and version gate, the patch classes [APPatch] and
    [APAutoPatchInterface], and the delta patch [APDeltaPatch] with its
    per-class cache of the base data.

    Python objects are mutated in place; here every method is a function of
    an explicit state (the instance and the surrounding world: file system,
    streams, class-level cache, registry, log of effects) that returns either
    a value or the raised exception, together with the state it leaves
    behind.  The modules the file imports ([json], [zipfile]'s on-disk format,
    [bsdiff4]) are parameters of the development. *)

From Stdlib Require Import ZArith String Ascii List DecimalString.
From stdpp Require Import gmap strings list.

Set Warnings "-register-all".
Local Open Scope string_scope.

(** ** Python values *)

Abbreviation bytes := (list Byte.byte).

(** The values that travel through manifests and class attributes.  A Python
    [dict] with string keys keeps its insertion order, hence the association
    list.  Floating-point numbers are left out. *)
Inductive pyval :=
| PNone
| PBool (b : bool)
| PInt (z : Z)
| PStr (s : string)
| PBytes (b : bytes)
| PList (l : list pyval)
| PTuple (l : list pyval)
| PDict (d : list (string * pyval)).

(** [bool(v)]: the truth value Python gives to [v] in [if v] and [not v]. *)
Definition truthy (v : pyval) : bool :=
  match v with
  | PNone => false
  | PBool b => b
  | PInt z => negb (z =? 0)%Z
  | PStr s => negb (String.eqb s "")
  | PBytes [] | PList [] | PTuple [] | PDict [] => false
  | PBytes _ | PList _ | PTuple _ | PDict _ => true
  end.

Definition str_truthy (s : string) : bool := negb (String.eqb s "").

(** [str(z)] for an [int]. *)
Definition str_of_int (z : Z) : string := NilZero.string_of_int (Z.to_int z).

(** [type(v).__name__] *)
Definition type_name (v : pyval) : string :=
  match v with
  | PNone => "NoneType" | PBool _ => "bool" | PInt _ => "int" | PStr _ => "str"
  | PBytes _ => "bytes" | PList _ => "list" | PTuple _ => "tuple" | PDict _ => "dict"
  end.

(** [d[k] = v] on a dict: an existing key keeps its place, a new key goes last. *)
Fixpoint dict_set {K V} `{EqDecision K} (k : K) (v : V) (d : list (K * V)) : list (K * V) :=
  match d with
  | [] => [(k, v)]
  | (k', v') :: d' => if decide (k = k') then (k, v) :: d' else (k', v') :: dict_set k v d'
  end.

Fixpoint dict_get {K V} `{EqDecision K} (k : K) (d : list (K * V)) : option V :=
  match d with
  | [] => None
  | (k', v') :: d' => if decide (k = k') then Some v' else dict_get k d'
  end.

(** ** Exceptions and the method monad *)

Inductive exn_kind :=
| Exception            (* the base class, raised as such by Files.py *)
| InvalidDataError     (* declared in Files.py *)
| FileNotFoundError
| OSError
| BadZipFile
| KeyError
| TypeError
| ValueError
| OverflowError
| AttributeError
| NotImplementedError
| JSONError.

(** An exception object: its class, its [args] and its [__cause__]
    (set by [raise ... from e]). *)
Inductive exn := Exn (kind : exn_kind) (args : list pyval) (cause : option exn).

Definition exn_kind_of (e : exn) : exn_kind := let 'Exn k _ _ := e in k.
Definition exn_args (e : exn) : list pyval := let 'Exn _ a _ := e in a.
Definition exn_cause (e : exn) : option exn := let 'Exn _ _ c := e in c.

Inductive result (A : Type) :=
| Ok (a : A)
| Raise (e : exn).
Arguments Ok {A} a.
Arguments Raise {A} e.

(** A computation over a mutable state [S]: the state is returned also when
    an exception is raised, since what was mutated before the [raise] stays
    mutated. *)
Definition M (S A : Type) : Type := S → result A * S.

Definition ret {S A} (a : A) : M S A := λ s, (Ok a, s).
Definition raise {S A} (e : exn) : M S A := λ s, (Raise e, s).
Definition bind {S A B} (c : M S A) (k : A → M S B) : M S B :=
  λ s, match c s with
       | (Ok a, s') => k a s'
       | (Raise e, s') => (Raise e, s')
       end.
Definition gets {S A} (f : S → A) : M S A := λ s, (Ok (f s), s).
Definition modify {S} (f : S → S) : M S unit := λ s, (Ok tt, f s).
Definition lift_result {S A} (r : result A) : M S A := λ s, (r, s).

(** [try: body  except Exception as e: handler e] *)
Definition try_except {S A} (body : M S A) (handler : exn → M S A) : M S A :=
  λ s, match body s with
       | (Ok a, s') => (Ok a, s')
       | (Raise e, s') => handler e s'
       end.

(** [try: body  finally: cleanup] (also the exit of a [with] block). *)
Definition finally {S A} (body : M S A) (cleanup : S → S) : M S A :=
  λ s, let '(r, s') := body s in (r, cleanup s').

Declare Scope py_scope.
Delimit Scope py_scope with py.
Notation "x <- c ;; k" := (bind c (λ x, k))
  (at level 100, c at next level, right associativity) : py_scope.
Notation "c ;;; k" := (bind c (λ _, k))
  (at level 100, right associativity) : py_scope.
Local Open Scope py_scope.

(** ** Files *)

(** An archive member: name, content, compression method and level. *)
Record zentry := ZEntry { z_name : string; z_data : bytes; z_method : Z; z_level : Z }.

(** What a file (or a file-like object) holds: plain bytes, or an archive
    that [zipfile] has written and closed.  [zipfile] is taken to read back
    the members it wrote; the bytes of an archive, the bytes of one that is
    still being written, and whether plain bytes form an archive, are left
    to the archive format (see [Externals]). *)
Inductive content :=
| Raw (b : bytes)
| Archive (ms : list zentry).

(** ** Classes *)

(** The four classes [Files.py] defines. *)
Inductive kind := APContainer | APPatch | APAutoPatchInterface | APDeltaPatch.

Definition container_version : Z := 6.
Definition ZIP_STORED : Z := 0.
Definition ZIP_DEFLATED : Z := 8.

(** What a class body may assign, typed as the annotations of [Files.py]
    type it; [None] is "not assigned in this body" (the attribute is then
    inherited).  [b_get_source_data] is the class method a handler supplies:
    it may look at the files on disk and either returns the base data or
    raises. *)
Record class_body := ClassBody {
  b_version : option Z;
  b_compression_level : option Z;
  b_compression_method : option Z;
  b_game : option (option string);
  b_procedure : option pyval;
  b_result_file_ending : option string;
  b_patch_file_ending : option string;
  b_hash : option (option string);
  b_get_source_data : option (gmap string content → result bytes);
}.

Definition empty_body : class_body :=
  ClassBody None None None None None None None None None.

(** The bodies of the four classes, as written in the source. *)
Definition body_of (k : kind) : class_body :=
  match k with
  | APContainer =>
      ClassBody (Some container_version) (Some 9%Z) (Some ZIP_DEFLATED) (Some None)
                None None None None None
  | APPatch =>
      ClassBody None None None None (Some (PStr "custom")) None None None None
  | APAutoPatchInterface =>
      ClassBody None None None None None (Some ".sfc") None None None
  | APDeltaPatch =>
      ClassBody None None None None (Some PNone) None (Some "") None
                (Some (λ _, Raise (Exn NotImplementedError [] None)))
  end.

Definition kind_name (k : kind) : string :=
  match k with
  | APContainer => "APContainer" | APPatch => "APPatch"
  | APAutoPatchInterface => "APAutoPatchInterface" | APDeltaPatch => "APDeltaPatch"
  end.

(** [k] and its ancestors, nearest first. *)
Definition kind_mro (k : kind) : list kind :=
  match k with
  | APContainer => [APContainer]
  | APPatch => [APPatch; APContainer]
  | APAutoPatchInterface => [APAutoPatchInterface; APPatch; APContainer]
  | APDeltaPatch => [APDeltaPatch; APAutoPatchInterface; APPatch; APContainer]
  end.

(** A class object: one of the four above, or a class derived (by single
    inheritance) from another class object. *)
Inductive pyclass :=
| Builtin (k : kind)
| Subclass (name : string) (body : class_body) (base : pyclass).

Fixpoint kind_of (c : pyclass) : kind :=
  match c with
  | Builtin k => k
  | Subclass _ _ base => kind_of base
  end.

Definition class_name (c : pyclass) : string :=
  match c with
  | Builtin k => kind_name k
  | Subclass name _ _ => name
  end.

(** The bodies an attribute lookup on [c] goes through, in order. *)
Fixpoint mro (c : pyclass) : list class_body :=
  match c with
  | Builtin k => body_of <$> kind_mro k
  | Subclass _ body base => body :: mro base
  end.

Definition class_attr {A} (field : class_body → option A) (c : pyclass) : option A :=
  head (omap field (mro c)).

(** A class object is told apart by the names on its inheritance chain. *)
Fixpoint class_key (c : pyclass) : list string :=
  match c with
  | Builtin k => [kind_name k]
  | Subclass name _ base => name :: class_key base
  end.

Definition no_attribute (c : pyclass) (attr : string) : exn :=
  Exn AttributeError
      [PStr ("'" ++ class_name c ++ "' object has no attribute '" ++ attr ++ "'")] None.

Definition getattr {A} (attr : string) (field : class_body → option A) (c : pyclass)
  : result A :=
  match class_attr field c with
  | Some a => Ok a
  | None => Raise (no_attribute c attr)
  end.

(** ** The world around an instance *)

(** A file-like object ([BinaryIO]).  [Stream name data] keeps its content
    to itself: an [io.BytesIO], which has no [name], or the stream of a
    member of an outer zip file, whose [name] is the member's.
    [FileStream p] is a file object that [open(p, ...)] returned: its [name]
    is [p] and its content is the file [p] on disk.  A file-like object is
    taken to stand at its start and to hold nothing beyond what is written
    to it. *)
Inductive stream :=
| Stream (name : option string) (data : content)
| FileStream (p : string).

Definition s_name (s : stream) : option string :=
  match s with
  | Stream name _ => name
  | FileStream p => Some p
  end.

(** What a file-like object holds, given the files on disk. *)
Definition stream_content (fs : gmap string content) (s : stream) : option content :=
  match s with
  | Stream _ data => Some data
  | FileStream p => fs !! p
  end.

(** What [read], [write] and [zipfile.ZipFile] accept as a file: a path or a
    file-like object (a reference into [streams]). *)
Inductive target := Path (p : string) | FileObj (id : nat).

#[global] Instance target_eq_dec : EqDecision target.
Proof. solve_decision. Defined.

Inductive zmode := ModeR | ModeW.

(** The effects a call leaves in the log. *)
Inductive event :=
| EvAcquire                                   (* semaphore acquired *)
| EvRelease                                   (* semaphore released *)
| EvZipOpen (mode : zmode) (t : target)       (* zipfile.ZipFile(t, mode) *)
| EvOpen (p : string) (mode : string)         (* open(p, mode) *)
| EvGetSourceData (c : list string) (returned : bool).  (* cls.get_source_data() *)

#[global] Instance zmode_eq_dec : EqDecision zmode.
Proof. solve_decision. Defined.
#[global] Instance event_eq_dec : EqDecision event.
Proof. solve_decision. Defined.

Record world := World {
  files : gmap string content;                (* the files on disk *)
  unwritable : gset string;                   (* paths the system refuses to create *)
  streams : gmap nat stream;                  (* the file-like objects alive *)
  source_data : gmap (list string) bytes;     (* cls.source_data, where it was set *)
  patch_types : list (option string * pyclass);   (* AutoPatchRegister.patch_types *)
  file_endings : list (string * pyclass);         (* AutoPatchRegister.file_endings *)
  log : list event;
}.

Definition set_files (f : gmap string content → gmap string content) (w : world) : world :=
  World (f (files w)) (unwritable w) (streams w) (source_data w)
        (patch_types w) (file_endings w) (log w).
Definition set_streams (f : gmap nat stream → gmap nat stream) (w : world) : world :=
  World (files w) (unwritable w) (f (streams w)) (source_data w)
        (patch_types w) (file_endings w) (log w).
Definition set_source_data (f : gmap (list string) bytes → gmap (list string) bytes)
    (w : world) : world :=
  World (files w) (unwritable w) (streams w) (f (source_data w))
        (patch_types w) (file_endings w) (log w).
Definition set_patch_types
    (f : list (option string * pyclass) → list (option string * pyclass)) (w : world) : world :=
  World (files w) (unwritable w) (streams w) (source_data w)
        (f (patch_types w)) (file_endings w) (log w).
Definition set_file_endings
    (f : list (string * pyclass) → list (string * pyclass)) (w : world) : world :=
  World (files w) (unwritable w) (streams w) (source_data w)
        (patch_types w) (f (file_endings w)) (log w).
Definition emit (e : event) (w : world) : world :=
  World (files w) (unwritable w) (streams w) (source_data w)
        (patch_types w) (file_endings w) (log w ++ [e]).

(** An instance of a container class.  [patched_path] and [delta] are the
    attributes [APDeltaPatch] adds; [delta = None] stands for the class
    default [delta = None]. *)
Record instance := Instance {
  cls : pyclass;
  path : option string;
  player : pyval;
  player_name : pyval;
  server : pyval;
  patched_path : string;
  delta : option bytes;
}.

Definition set_path (p : option string) (i : instance) : instance :=
  Instance (cls i) p (player i) (player_name i) (server i) (patched_path i) (delta i).
Definition set_player (v : pyval) (i : instance) : instance :=
  Instance (cls i) (path i) v (player_name i) (server i) (patched_path i) (delta i).
Definition set_player_name (v : pyval) (i : instance) : instance :=
  Instance (cls i) (path i) (player i) v (server i) (patched_path i) (delta i).
Definition set_server (v : pyval) (i : instance) : instance :=
  Instance (cls i) (path i) (player i) (player_name i) v (patched_path i) (delta i).
Definition set_delta (d : option bytes) (i : instance) : instance :=
  Instance (cls i) (path i) (player i) (player_name i) (server i) (patched_path i) d.

Definition of_optional_int (o : option Z) : pyval := from_option PInt PNone o.
Definition of_optional_str (o : option string) : pyval := from_option PStr PNone o.

(** [APContainer.__init__(path, player, player_name, server)] *)
Definition APContainer_init (c : pyclass) (path : option string) (player : option Z)
    (player_name server : string) : instance :=
  Instance c path (of_optional_int player) (PStr player_name) (PStr server) "" None.

(** [APDeltaPatch.__init__]: the keyword [patched_path], the rest as above. *)
Definition APDeltaPatch_init (c : pyclass) (patched_path : string) (path : option string)
    (player : option Z) (player_name server : string) : instance :=
  Instance c path (of_optional_int player) (PStr player_name) (PStr server) patched_path None.

(** The state a method runs in: [self] and everything else. *)
Record state := State { self : instance; env : world }.

Definition on_self (f : instance → instance) (s : state) : state := State (f (self s)) (env s).
Definition on_env (f : world → world) (s : state) : state := State (self s) (f (env s)).

(** Run a computation on a part of the state. *)
Definition zoom {S T A} (get : S → T) (put : T → S → S) (c : M T A) : M S A :=
  λ s, let '(r, t) := c (get s) in (r, put t s).

Definition in_env {A} (c : M world A) : M state A :=
  zoom env (λ w s, State (self s) w) c.

(** [self.attr] for an attribute kept on the class. *)
Definition self_attr {A} (attr : string) (field : class_body → option A) : M state A :=
  λ s, (getattr attr field (cls (self s)), s).

(** ** The imported modules

    [json], the on-disk format of [zipfile] and [bsdiff4] are not part of
    [Files.py]; the development is parametric in them. *)
Class Externals := {
  json_dumps : pyval → result string;          (* json.dumps(obj) *)
  json_load : bytes → result pyval;            (* json.load(f), on the bytes f yields *)
  zip_image : list zentry → bytes;             (* the bytes of an archive on disk *)
  zip_partial : list zentry → option zentry → bytes;
                                               (* the bytes zipfile has put on the file
                                                  of an archive it has not closed: the
                                                  members written, and what there is of
                                                  one more whose compressor could not
                                                  be made *)
  zip_parse : bytes → option (list zentry);    (* the members of an archive found as
                                                  plain bytes; None: not a zip file *)
  bsdiff4_diff : bytes → bytes → bytes;        (* bsdiff4.diff(src, dst) *)
  bsdiff4_patch : bytes → bytes → result bytes;(* bsdiff4.patch(src, patch) *)
  py_repr : pyval → string;                    (* repr(obj), used in one message *)
}.

(** [obj[key]] with a string key. *)
Definition getitem (v : pyval) (k : string) : result pyval :=
  match v with
  | PDict d =>
      match dict_get k d with
      | Some x => Ok x
      | None => Raise (Exn KeyError [PStr k] None)
      end
  | PStr _ => Raise (Exn TypeError [PStr "string indices must be integers, not 'str'"] None)
  | PBytes _ | PList _ | PTuple _ =>
      Raise (Exn TypeError
               [PStr (type_name v ++ " indices must be integers or slices, not str")] None)
  | PNone | PBool _ | PInt _ =>
      Raise (Exn TypeError [PStr ("'" ++ type_name v ++ "' object is not subscriptable")] None)
  end.

(** [v > n] for an [int] [n]. *)
Definition py_gt (v : pyval) (n : Z) : result bool :=
  match v with
  | PInt z => Ok (n <? z)%Z
  | PBool b => Ok (n <? Z.b2z b)%Z
  | _ => Raise (Exn TypeError
                  [PStr ("'>' not supported between instances of '" ++ type_name v
                         ++ "' and 'int'")] None)
  end.

(** ** zipfile.ZipFile *)

Record zipfile := ZipFile {
  zf_file : target;
  zf_filename : option string;
  zf_mode : zmode;
  zf_compression : Z;
  zf_compresslevel : option Z;
  zf_members : list (zentry);
  zf_writing : bool;          (* [_writing]: a member's write handle is open *)
}.

Definition check_compression (c : Z) : result unit :=
  if ((c =? 0) || (c =? 8) || (c =? 12) || (c =? 14))%Z then Ok tt
  else Raise (Exn NotImplementedError [PStr "That compression method is not supported"] None).

Definition no_such_file : exn :=
  Exn FileNotFoundError [PInt 2; PStr "No such file or directory"] None.
Definition permission_denied : exn :=
  Exn OSError [PInt 13; PStr "Permission denied"] None.
Definition bad_zip_file : exn := Exn BadZipFile [PStr "File is not a zip file"] None.
Definition closed_file : exn := Exn ValueError [PStr "I/O operation on closed file."] None.

(** The member [name] designates: the last one written under that name. *)
Fixpoint zip_member (name : string) (ms : list zentry) : option zentry :=
  match ms with
  | [] => None
  | m :: ms' =>
      match zip_member name ms' with
      | Some m' => Some m'
      | None => if String.eqb (z_name m) name then Some m else None
      end
  end.

(** The state inside [with zipfile.ZipFile(...) as zf:]. *)
Record zstate := ZState { zf : zipfile; st : state }.

Definition in_st {A} (c : M state A) : M zstate A :=
  zoom st (λ s zs, ZState (zf zs) s) c.

Definition add_member (m : zentry) (z : zipfile) : zipfile :=
  ZipFile (zf_file z) (zf_filename z) (zf_mode z) (zf_compression z)
          (zf_compresslevel z) (zf_members z ++ [m]) (zf_writing z).

Definition set_writing (z : zipfile) : zipfile :=
  ZipFile (zf_file z) (zf_filename z) (zf_mode z) (zf_compression z)
          (zf_compresslevel z) (zf_members z) true.

Definition ZIP_BZIP2 : Z := 12.

(** A compression level as a C [int]. *)
Definition fits_c_int (l : Z) : bool := (- 2 ^ 31 <=? l)%Z && (l <? 2 ^ 31)%Z.

(** [_get_compressor(compress_type, compresslevel)]: what making the
    compressor of a member raises, if anything.  [zlib] takes the levels -1
    to 9, [bz2] the levels 1 to 9; a stored member and an LZMA member have no
    use for the level, and no level given is the library's default. *)
Definition compressor_error (method : Z) (level : option Z) : option exn :=
  match level with
  | None => None
  | Some l =>
      let overflow :=
        Exn OverflowError [PStr "Python int too large to convert to C int"] None in
      if (method =? ZIP_DEFLATED)%Z then
        if negb (fits_c_int l) then Some overflow
        else if ((-1 <=? l) && (l <=? 9))%Z then None
        else Some (Exn ValueError [PStr "Invalid initialization option"] None)
      else if (method =? ZIP_BZIP2)%Z then
        if negb (fits_c_int l) then Some overflow
        else if ((1 <=? l) && (l <=? 9))%Z then None
        else Some (Exn ValueError [PStr "compresslevel must be between 1 and 9"] None)
      else None
  end.

(** Put [c] where the file argument [t] points: on the file of a path or of
    a file object opened from a path, in an in-memory stream otherwise. *)
Definition store (t : target) (c : content) (w : world) : world :=
  match t with
  | Path p => set_files (insert p c) w
  | FileObj id =>
      match streams w !! id with
      | Some (FileStream p) => set_files (insert p c) w
      | Some (Stream name _) => set_streams (insert id (Stream name c)) w
      | None => w
      end
  end.

(** [zf.read(name)], and [zf.open(name, "r")] read to its end. *)
Definition zf_read (name : string) : M zstate bytes :=
  λ zs,
    match zip_member name (zf_members (zf zs)) with
    | Some m => (Ok (z_data m), zs)
    | None =>
        (Raise (Exn KeyError
                  [PStr ("There is no item named '" ++ name ++ "' in the archive")] None), zs)
    end.

Section Files.
Context `{!Externals}.

(** [zf.writestr(name, data, compress_type)]; the member takes the archive's
    method unless [compress_type] is given, and the archive's level.  The
    member is on the file as soon as it is written.  When the compressor
    cannot be made, the member's header has gone out, the write handle
    counts as open from then on and nothing joins the members. *)
Definition writestr (name : string) (data : bytes) (compress_type : option Z) : M zstate unit :=
  λ zs,
    let z := zf zs in
    match zf_mode z with
    | ModeR => (Raise (Exn ValueError [PStr "write() requires mode 'w', 'x', or 'a'"] None), zs)
    | ModeW =>
        if zf_writing z then
          (Raise (Exn ValueError
                      [PStr "Can't write to ZIP archive while an open writing handle exists."]
                      None), zs)
        else
          let method := default (zf_compression z) compress_type in
          let m := ZEntry name data method (default 0%Z (zf_compresslevel z)) in
          match compressor_error method (zf_compresslevel z) with
          | Some e =>
              (Raise e,
               ZState (set_writing z)
                      (on_env (store (zf_file z) (Raw (zip_partial (zf_members z) (Some m))))
                              (st zs)))
          | None =>
              (Ok tt,
               ZState (add_member m z)
                      (on_env (store (zf_file z)
                                     (Raw (zip_partial (zf_members z ++ [m]) None)))
                              (st zs)))
          end
    end.

(** [zipfile.ZipFile(file, mode, compression, True, compresslevel)].  Opening a
    path for writing truncates the file; a file-like object is left as it is
    until the first member is written.  A file object whose file is not
    there counts as closed when it is to be read. *)
Definition ZipFile_open (file : target) (mode : zmode) (compression : Z)
    (compresslevel : option Z) : M world zipfile :=
  λ w,
    match check_compression compression with
    | Raise e => (Raise e, w)
    | Ok _ =>
        let w := emit (EvZipOpen mode file) w in
        let opened name ms :=
          Ok (ZipFile file name mode compression compresslevel ms false) in
        let parsed name c :=
          match c with
          | Archive ms => opened name ms
          | Raw b =>
              match zip_parse b with
              | Some ms => opened name ms
              | None => Raise bad_zip_file
              end
          end in
        match file, mode with
        | Path p, ModeR =>
            match files w !! p with
            | Some c => (parsed (Some p) c, w)
            | None => (Raise no_such_file, w)
            end
        | Path p, ModeW =>
            if decide (p ∈ unwritable w) then (Raise permission_denied, w)
            else (opened (Some p) [], set_files (insert p (Raw [])) w)
        | FileObj id, ModeR =>
            match streams w !! id with
            | Some s =>
                match stream_content (files w) s with
                | Some c => (parsed (s_name s) c, w)
                | None => (Raise closed_file, w)
                end
            | None => (Raise closed_file, w)
            end
        | FileObj id, ModeW =>
            match streams w !! id with
            | Some s => (opened (s_name s) [], w)
            | None => (Raise closed_file, w)
            end
        end
    end.

Definition still_writing : exn :=
  Exn ValueError
      [PStr ("Can't close the ZIP file while there is an open writing handle on it. "
             ++ "Close the writing handle before closing the zip.")] None.

(** [zf.close()]: an archive opened for writing is now complete where it was
    written, unless a write handle is open: then [close] raises and leaves
    the file as it is. *)
Definition ZipFile_close (z : zipfile) : M world unit :=
  λ w,
    match zf_mode z with
    | ModeR => (Ok tt, w)
    | ModeW =>
        if zf_writing z then (Raise still_writing, w)
        else (Ok tt, store (zf_file z) (Archive (zf_members z)) w)
    end.

(** [with zipfile.ZipFile(...) as zf: body].  Leaving the block closes the
    archive, whether the body returned or raised; an exception of [close]
    takes the place of the body's. *)
Definition with_ZipFile {A} (file : target) (mode : zmode) (compression : Z)
    (compresslevel : option Z) (body : M zstate A) : M state A :=
  λ s,
    match ZipFile_open file mode compression compresslevel (env s) with
    | (Raise e, w) => (Raise e, State (self s) w)
    | (Ok z, w) =>
        let '(r, zs) := body (ZState z (State (self s) w)) in
        match ZipFile_close (zf zs) (env (st zs)) with
        | (Ok _, w') => (r, State (self (st zs)) w')
        | (Raise e, w') => (Raise e, State (self (st zs)) w')
        end
    end.

Definition content_bytes (c : content) : bytes :=
  match c with
  | Raw b => b
  | Archive ms => zip_image ms
  end.

(** [open(p, "rb").read()] *)
Definition read_file (p : string) : M world bytes :=
  λ w,
    let w := emit (EvOpen p "rb") w in
    match files w !! p with
    | Some c => if str_truthy p then (Ok (content_bytes c), w) else (Raise no_such_file, w)
    | None => (Raise no_such_file, w)
    end.

(** [with open(p, "wb") as f: f.write(data)] *)
Definition write_file (p : string) (data : bytes) : M world unit :=
  λ w,
    let w := emit (EvOpen p "wb") w in
    if negb (str_truthy p) then (Raise no_such_file, w)
    else if decide (p ∈ unwritable w) then (Raise permission_denied, w)
    else (Ok tt, set_files (insert p (Raw data)) w).

(** ** The write limiter (line 13)

    [semaphore = threading.Semaphore(os.cpu_count() or 4)]: [os.cpu_count()]
    is an [int], or [None] when the count cannot be determined. *)
Definition cpu_count_or_4 (cpu_count : option Z) : Z :=
  match cpu_count with
  | Some n => if (n =? 0)%Z then 4%Z else n
  | None => 4%Z
  end.

(** [threading.Semaphore(value)]: the number of slots, unless [value < 0]. *)
Definition Semaphore (value : Z) : result Z :=
  if (value <? 0)%Z then
    Raise (Exn ValueError [PStr "semaphore initial value must be >= 0"] None)
  else Ok value.

Definition semaphore (cpu_count : option Z) : result Z :=
  Semaphore (cpu_count_or_4 cpu_count).

(** [with semaphore: body] *)
Definition with_semaphore {A} (body : M state A) : M state A :=
  modify (on_env (emit EvAcquire)) ;;; finally body (on_env (emit EvRelease)).

(** ** AutoPatchRegister *)

(** [AutoPatchRegister.__new__(mcs, name, bases, dct)], for a class body
    [dct] and the base class [base]. *)
Definition AutoPatchRegister_new (name : string) (base : pyclass) (dct : class_body)
  : M world pyclass :=
  let new_class := Subclass name dct base in
  match b_game dct with
  | Some game =>
      modify (set_patch_types (dict_set game new_class)) ;;;
      match b_patch_file_ending dct with
      | None => raise (Exn KeyError [PStr "patch_file_ending"] None)
      | Some ending =>
          if negb (str_truthy ending) then
            raise (Exn Exception [PStr ("Need an expected file ending for " ++ name)] None)
          else
            modify (set_file_endings (dict_set ending new_class)) ;;;
            ret new_class
      end
  | None => ret new_class
  end.

(** [file.endswith(ending)] *)
Definition endswith (file ending : string) : bool :=
  let n := String.length file in
  let k := String.length ending in
  (k <=? n)%nat && String.eqb (String.substring (n - k) k file) ending.

(** [AutoPatchRegister.get_handler(file)] *)
Fixpoint first_handler (file : string) (items : list (string * pyclass)) : option pyclass :=
  match items with
  | [] => None
  | (file_ending, handler) :: items' =>
      if endswith file file_ending then Some handler else first_handler file items'
  end.

Definition get_handler (file : string) (w : world) : option pyclass :=
  first_handler file (file_endings w).

(** ** The cache of the base data (lines 182-191) *)

(** The class objects [hasattr(cls, ...)] looks at, nearest first. *)
Fixpoint class_keys (c : pyclass) : list (list string) :=
  match c with
  | Builtin k => (λ k', [kind_name k']) <$> kind_mro k
  | Subclass _ _ base => class_key c :: class_keys base
  end.

(** [cls.source_data], when [hasattr(cls, "source_data")]. *)
Definition cached_source_data (cache : gmap (list string) bytes) (c : pyclass)
  : option bytes :=
  head (omap (λ k, cache !! k) (class_keys c)).

(** [cls.get_source_data_with_cache()]; the method exists on [APDeltaPatch]
    and the classes derived from it. *)
Definition get_source_data_with_cache (c : pyclass) : M world bytes :=
  λ w,
    match kind_of c with
    | APDeltaPatch =>
        match cached_source_data (source_data w) c with
        | Some b => (Ok b, w)
        | None =>
            match class_attr b_get_source_data c with
            | None => (Raise (no_attribute c "get_source_data"), w)
            | Some get_source_data =>
                match get_source_data (files w) with
                | Ok b =>
                    (Ok b, set_source_data (insert (class_key c) b)
                             (emit (EvGetSourceData (class_key c) true) w))
                | Raise e => (Raise e, emit (EvGetSourceData (class_key c) false) w)
                end
            end
        end
    | _ => (Raise (no_attribute c "get_source_data_with_cache"), w)
    end.

(** ** get_manifest *)

(** [APContainer.get_manifest] (lines 119-128) *)
Definition APContainer_get_manifest : M state (list (string * pyval)) :=
  i <- gets self ;;
  game <- self_attr "game" b_game ;;
  ret [ ("server", server i);
        ("player", player i);
        ("player_name", player_name i);
        ("game", of_optional_str game);
        ("compatible_version", PInt 5);
        ("version", PInt container_version) ].

(** [APPatch.get_manifest] (lines 141-145) *)
Definition APPatch_get_manifest : M state (list (string * pyval)) :=
  manifest <- APContainer_get_manifest ;;
  procedure <- self_attr "procedure" b_procedure ;;
  let manifest := dict_set "procedure" procedure manifest in
  let manifest := dict_set "compatible_version" (PInt 6) manifest in
  ret manifest.

(** [APDeltaPatch.get_manifest] (lines 174-180) *)
Definition APDeltaPatch_get_manifest : M state (list (string * pyval)) :=
  manifest <- APPatch_get_manifest ;;
  hash <- self_attr "hash" b_hash ;;
  let manifest := dict_set "base_checksum" (of_optional_str hash) manifest in
  result_file_ending <- self_attr "result_file_ending" b_result_file_ending ;;
  let manifest := dict_set "result_file_ending" (PStr result_file_ending) manifest in
  patch_file_ending <- self_attr "patch_file_ending" b_patch_file_ending ;;
  let manifest := dict_set "patch_file_ending" (PStr patch_file_ending) manifest in
  let manifest := dict_set "compatible_version" (PInt 5) manifest in
  ret manifest.

(** [self.get_manifest()]: the method of the nearest class that defines it. *)
Definition get_manifest : M state (list (string * pyval)) :=
  i <- gets self ;;
  match kind_of (cls i) with
  | APContainer => APContainer_get_manifest
  | APPatch | APAutoPatchInterface => APPatch_get_manifest
  | APDeltaPatch => APDeltaPatch_get_manifest
  end.

(** ** write *)

(** [APContainer.write_contents] (lines 82-89) *)
Definition APContainer_write_contents : M zstate unit :=
  manifest <- in_st get_manifest ;;
  match json_dumps (PDict manifest) with
  | Raise e =>
      raise (Exn Exception
               [PStr ("Manifest " ++ py_repr (PDict manifest) ++ " did not convert to json.")]
               (Some e))
  | Ok manifest_str =>
      writestr "archipelago.json" (list_byte_of_string manifest_str) None
  end.

(** [APDeltaPatch.write_contents] (lines 193-198) *)
Definition APDeltaPatch_write_contents : M zstate unit :=
  APContainer_write_contents ;;;
  i <- in_st (gets self) ;;
  source <- in_st (in_env (get_source_data_with_cache (cls i))) ;;
  patched <- in_st (in_env (read_file (patched_path i))) ;;
  writestr "delta.bsdiff4" (bsdiff4_diff source patched) (Some ZIP_STORED).

Definition write_contents : M zstate unit :=
  i <- in_st (gets self) ;;
  match kind_of (cls i) with
  | APDeltaPatch => APDeltaPatch_write_contents
  | _ => APContainer_write_contents
  end.

(** [bool(file)] for the optional argument of [read] and [write]: a path is
    true when it is not empty, a file-like object always. *)
Definition file_given (file : option target) : bool :=
  match file with
  | None => false
  | Some (Path p) => str_truthy p
  | Some (FileObj _) => true
  end.

(** [file if file else self.path], [None] when the outcome is false. *)
Definition file_or_path (file : option target) (path : option string) : option target :=
  if file_given file then file
  else match path with
       | Some p => if str_truthy p then Some (Path p) else None
       | None => None
       end.

(** [if file: self.path = zf.filename] *)
Definition rebind_path (file : option target) : M zstate unit :=
  if file_given file then
    modify (λ zs, ZState (zf zs) (on_self (set_path (zf_filename (zf zs))) (st zs)))
  else ret tt.

(** [APContainer.write] (lines 71-80) *)
Definition write (file : option target) : M state unit :=
  i <- gets self ;;
  match file_or_path file (path i) with
  | None =>
      raise (Exn FileNotFoundError
               [PStr ("Cannot write " ++ class_name (cls i) ++ " due to no path provided.")]
               None)
  | Some zip_file =>
      with_semaphore (
        compression_method <- self_attr "compression_method" b_compression_method ;;
        compression_level <- self_attr "compression_level" b_compression_level ;;
        with_ZipFile zip_file ModeW compression_method (Some compression_level) (
          rebind_path file ;;;
          write_contents))
  end.

(** ** read *)

(** [str(v)] inside an f-string. *)
Definition py_str (v : pyval) : string :=
  match v with
  | PInt z => str_of_int z
  | PBool true => "True"
  | PBool false => "False"
  | PNone => "None"
  | PStr s => s
  | _ => py_repr v
  end.

(** The exception of lines 113-114. *)
Definition too_new (compatible_version : pyval) (version : Z) : exn :=
  Exn Exception
      [PStr ("File (version: " ++ py_str compatible_version
             ++ ") too new for this handler (version: " ++ str_of_int version ++ ")")]
      None.

(** [APContainer.read_contents] (lines 109-117) *)
Definition APContainer_read_contents : M zstate unit :=
  f <- zf_read "archipelago.json" ;;
  manifest <- lift_result (json_load f) ;;
  compatible_version <- lift_result (getitem manifest "compatible_version") ;;
  version <- in_st (self_attr "version" b_version) ;;
  newer <- lift_result (py_gt compatible_version version) ;;
  if newer : bool then raise (too_new compatible_version version)
  else
    player <- lift_result (getitem manifest "player") ;;
    in_st (modify (on_self (set_player player))) ;;;
    server <- lift_result (getitem manifest "server") ;;
    in_st (modify (on_self (set_server server))) ;;;
    player_name <- lift_result (getitem manifest "player_name") ;;
    in_st (modify (on_self (set_player_name player_name))).

(** [APDeltaPatch.read_contents] (lines 200-202) *)
Definition APDeltaPatch_read_contents : M zstate unit :=
  APContainer_read_contents ;;;
  delta <- zf_read "delta.bsdiff4" ;;
  in_st (modify (on_self (set_delta (Some delta)))).

Definition read_contents : M zstate unit :=
  i <- in_st (gets self) ;;
  match kind_of (cls i) with
  | APDeltaPatch => APDeltaPatch_read_contents
  | _ => APContainer_read_contents
  end.

(** The exception [read] turns every failure of [read_contents] into
    (lines 101-107). *)
Definition invalid_data (e : exn) : exn :=
  let message :=
    match exn_args e with
    | PStr arg0 :: _ => arg0 ++ " - "
    | _ => ""
    end in
  Exn InvalidDataError
      [PStr (message ++ "This might be the incorrect world version for this file")]
      (Some e).

(** [APContainer.read] (lines 91-107) *)
Definition read (file : option target) : M state unit :=
  i <- gets self ;;
  match file_or_path file (path i) with
  | None =>
      raise (Exn FileNotFoundError
               [PStr ("Cannot read " ++ class_name (cls i) ++ " due to no path provided.")]
               None)
  | Some zip_file =>
      with_ZipFile zip_file ModeR ZIP_STORED None (
        rebind_path file ;;;
        try_except read_contents (λ e, raise (invalid_data e)))
  end.

(** ** patch *)

(** [not self.delta] *)
Definition no_delta (i : instance) : bool :=
  match delta i with
  | None => true
  | Some d => negb (truthy (PBytes d))
  end.

(** [APDeltaPatch.patch] (lines 204-210) *)
Definition patch (target : string) : M state unit :=
  i <- gets self ;;
  (if no_delta i then read None else ret tt) ;;;
  i <- gets self ;;
  source <- in_env (get_source_data_with_cache (cls i)) ;;
  match delta i with
  | None =>
      raise (Exn TypeError [PStr "a bytes-like object is required, not 'NoneType'"] None)
  | Some d =>
      result <- lift_result (bsdiff4_patch source d) ;;
      in_env (write_file target result)
  end.

End Files.

(** ** A reference implementation of the imported modules

    Small executable stand-ins for [json], the archive format and [bsdiff4],
    on which the model can be run: JSON the way [json.dumps] prints it
    (integers, strings, [null], booleans, arrays and objects), a
    length-prefixed archive format, and a delta that keeps the prefix the
    two inputs share. *)
Module Reference.

Local Open Scope char_scope.

Definition dquote : ascii := "034".
Definition in_quotes (s : string) : string :=
  (String dquote s ++ String dquote EmptyString)%string.

Fixpoint escape (s : string) : string :=
  match s with
  | EmptyString => EmptyString
  | String c s' =>
      (if Ascii.eqb c dquote then String "\" (String dquote EmptyString)
       else if Ascii.eqb c "\" then "\\"
       else if Ascii.eqb c "010" then "\n"
       else if Ascii.eqb c "013" then "\r"
       else if Ascii.eqb c "009" then "\t"
       else String c EmptyString) ++ escape s'
  end%string.

Definition join (sep : string) (l : list string) : string :=
  match l with
  | [] => EmptyString
  | x :: l' => fold_left (λ acc y, acc ++ sep ++ y)%string l' x
  end.

Definition not_serializable (v : pyval) : exn :=
  Exn TypeError
      [PStr ("Object of type " ++ type_name v ++ " is not JSON serializable")%string] None.

Fixpoint dumps (v : pyval) : result string :=
  match v with
  | PNone => Ok "null"%string
  | PBool true => Ok "true"%string
  | PBool false => Ok "false"%string
  | PInt z => Ok (str_of_int z)
  | PStr s => Ok (in_quotes (escape s))
  | PBytes _ => Raise (not_serializable v)
  | PList l | PTuple l =>
      let fix items (l : list pyval) : result (list string) :=
        match l with
        | [] => Ok []
        | x :: l' =>
            match dumps x, items l' with
            | Ok s, Ok ss => Ok (s :: ss)
            | Raise e, _ | _, Raise e => Raise e
            end
        end in
      match items l with
      | Ok ss => Ok ("[" ++ join ", " ss ++ "]")%string
      | Raise e => Raise e
      end
  | PDict d =>
      let fix members (d : list (string * pyval)) : result (list string) :=
        match d with
        | [] => Ok []
        | (k, x) :: d' =>
            match dumps x, members d' with
            | Ok s, Ok ss => Ok ((in_quotes (escape k) ++ ": " ++ s)%string :: ss)
            | Raise e, _ | _, Raise e => Raise e
            end
        end in
      match members d with
      | Ok ss => Ok ("{" ++ join ", " ss ++ "}")%string
      | Raise e => Raise e
      end
  end.

Definition is_digit (c : ascii) : bool :=
  (48 <=? nat_of_ascii c)%nat && (nat_of_ascii c <=? 57)%nat.

Fixpoint skip_ws (s : list ascii) : list ascii :=
  match s with
  | c :: s' =>
      if Ascii.eqb c " " || Ascii.eqb c "010" || Ascii.eqb c "013" || Ascii.eqb c "009"
      then skip_ws s' else s
  | [] => []
  end.

(** The digits [s] starts with, as a number, and what follows them. *)
Fixpoint digits (acc : N) (s : list ascii) : N * list ascii :=
  match s with
  | c :: s' =>
      if is_digit c then digits (10 * acc + (N_of_ascii c - 48))%N s' else (acc, s)
  | [] => (acc, [])
  end.

(** The rest of a string literal, after its opening quote. *)
Fixpoint string_body (s : list ascii) : option (string * list ascii) :=
  match s with
  | [] => None
  | "\" :: c :: s' =>
      let unescaped :=
        if Ascii.eqb c "n" then Some "010"
        else if Ascii.eqb c "r" then Some "013"
        else if Ascii.eqb c "t" then Some "009"
        else if Ascii.eqb c dquote || Ascii.eqb c "\" || Ascii.eqb c "/" then Some c
        else None in
      match unescaped, string_body s' with
      | Some c', Some (str, rest) => Some (String c' str, rest)
      | _, _ => None
      end
  | c :: s' =>
      if Ascii.eqb c dquote then Some (EmptyString, s')
      else match string_body s' with
           | Some (str, rest) => Some (String c str, rest)
           | None => None
           end
  end.

Fixpoint value (fuel : nat) (s : list ascii) : option (pyval * list ascii) :=
  match fuel with
  | O => None
  | S fuel =>
      match skip_ws s with
      | "n" :: "u" :: "l" :: "l" :: rest => Some (PNone, rest)
      | "t" :: "r" :: "u" :: "e" :: rest => Some (PBool true, rest)
      | "f" :: "a" :: "l" :: "s" :: "e" :: rest => Some (PBool false, rest)
      | "[" :: rest =>
          match skip_ws rest with
          | "]" :: rest' => Some (PList [], rest')
          | _ => match items fuel rest with
                 | Some (l, rest') => Some (PList l, rest')
                 | None => None
                 end
          end
      | "{" :: rest =>
          match skip_ws rest with
          | "}" :: rest' => Some (PDict [], rest')
          | _ => match members fuel rest with
                 | Some (d, rest') =>
                     Some (PDict (fold_left (λ acc kv, dict_set kv.1 kv.2 acc) d []), rest')
                 | None => None
                 end
          end
      | "-" :: c :: rest =>
          if is_digit c then
            let '(n, rest') := digits 0 (c :: rest) in Some (PInt (- Z.of_N n), rest')
          else None
      | c :: rest =>
          if Ascii.eqb c dquote then
            match string_body rest with
            | Some (str, rest') => Some (PStr str, rest')
            | None => None
            end
          else if is_digit c then
            let '(n, rest') := digits 0 (c :: rest) in Some (PInt (Z.of_N n), rest')
          else None
      | [] => None
      end
  end
with items (fuel : nat) (s : list ascii) : option (list pyval * list ascii) :=
  match fuel with
  | O => None
  | S fuel =>
      match value fuel s with
      | Some (v, rest) =>
          match skip_ws rest with
          | "," :: rest' =>
              match items fuel rest' with
              | Some (l, rest'') => Some (v :: l, rest'')
              | None => None
              end
          | "]" :: rest' => Some ([v], rest')
          | _ => None
          end
      | None => None
      end
  end
with members (fuel : nat) (s : list ascii) : option (list (string * pyval) * list ascii) :=
  match fuel with
  | O => None
  | S fuel =>
      match skip_ws s with
      | c :: rest =>
          if Ascii.eqb c dquote then
            match string_body rest with
            | Some (k, rest1) =>
                match skip_ws rest1 with
                | ":" :: rest2 =>
                    match value fuel rest2 with
                    | Some (v, rest3) =>
                        match skip_ws rest3 with
                        | "," :: rest4 =>
                            match members fuel rest4 with
                            | Some (d, rest5) => Some ((k, v) :: d, rest5)
                            | None => None
                            end
                        | "}" :: rest4 => Some ([(k, v)], rest4)
                        | _ => None
                        end
                    | None => None
                    end
                | _ => None
                end
            | None => None
            end
          else None
      | [] => None
      end
  end.

Definition decode_error : exn :=
  Exn JSONError [PStr "Expecting value: line 1 column 1 (char 0)"%string] None.

Definition load (b : bytes) : result pyval :=
  let s := list_ascii_of_string (string_of_list_byte b) in
  match value (2 * length s + 2) s with
  | Some (v, rest) =>
      match skip_ws rest with
      | [] => Ok v
      | _ => Raise decode_error
      end
  | None => Raise decode_error
  end.

(** The archive format: [PK], then each member as four length-prefixed
    fields (name, method, level, data). *)
Definition field (x : string) : string :=
  (NilZero.string_of_uint (N.to_uint (N.of_nat (String.length x))) ++ ":" ++ x ++ ",")%string.

Definition pack_member (m : zentry) : string :=
  (field (z_name m) ++ field (str_of_int (z_method m)) ++ field (str_of_int (z_level m))
   ++ field (string_of_list_byte (z_data m)))%string.

Definition pack (ms : list zentry) : bytes :=
  list_byte_of_string ("PK" ++ String.concat EmptyString (pack_member <$> ms))%string.

Definition take_field (s : list ascii) : option (string * list ascii) :=
  match s with
  | c :: _ =>
      if is_digit c then
        let '(n, rest) := digits 0 s in
        match rest with
        | ":" :: rest' =>
            let k := N.to_nat n in
            match drop k rest' with
            | "," :: rest'' =>
                if (k <=? length rest')%nat
                then Some (string_of_list_ascii (take k rest'), rest'')
                else None
            | _ => None
            end
        | _ => None
        end
      else None
  | [] => None
  end.

Definition int_of (s : string) : option Z :=
  match list_ascii_of_string s with
  | "-" :: c :: rest =>
      if is_digit c then
        match digits 0 (c :: rest) with
        | (n, []) => Some (- Z.of_N n)%Z
        | _ => None
        end
      else None
  | c :: rest =>
      if is_digit c then
        match digits 0 (c :: rest) with
        | (n, []) => Some (Z.of_N n)
        | _ => None
        end
      else None
  | [] => None
  end.

Fixpoint unpack_members (fuel : nat) (s : list ascii) : option (list zentry) :=
  match s, fuel with
  | [], _ => Some []
  | _, O => None
  | _, S fuel =>
      match take_field s with
      | Some (name, s1) =>
          match take_field s1 with
          | Some (method, s2) =>
              match take_field s2 with
              | Some (level, s3) =>
                  match take_field s3 with
                  | Some (data, s4) =>
                      match int_of method, int_of level, unpack_members fuel s4 with
                      | Some method, Some level, Some ms =>
                          Some (ZEntry name (list_byte_of_string data) method level :: ms)
                      | _, _, _ => None
                      end
                  | None => None
                  end
              | None => None
              end
          | None => None
          end
      | None => None
      end
  end.

Definition unpack (b : bytes) : option (list zentry) :=
  match list_ascii_of_string (string_of_list_byte b) with
  | "P" :: "K" :: s => unpack_members (length s) s
  | _ => None
  end.

(** The delta: a magic word, the length of the prefix [src] and [dst] share,
    and the rest of [dst]. *)
Fixpoint shared_prefix (a b : bytes) : nat :=
  match a, b with
  | x :: a', y :: b' => if Byte.eqb x y then S (shared_prefix a' b') else O
  | _, _ => O
  end.

Definition diff (src dst : bytes) : bytes :=
  let n := shared_prefix src dst in
  list_byte_of_string
    ("BSDIFF40" ++ NilZero.string_of_uint (N.to_uint (N.of_nat n)) ++ ":")%string
  ++ drop n dst.

Definition corrupt_patch : exn := Exn ValueError [PStr "corrupt patch"%string] None.

Fixpoint strip_prefix (p s : list ascii) : option (list ascii) :=
  match p, s with
  | [], _ => Some s
  | x :: p', y :: s' => if Ascii.eqb x y then strip_prefix p' s' else None
  | _ :: _, [] => None
  end.

Definition apply (src delta : bytes) : result bytes :=
  match strip_prefix (list_ascii_of_string "BSDIFF40")
                     (list_ascii_of_string (string_of_list_byte delta)) with
  | Some (c :: s) =>
      if is_digit c then
        let '(n, rest) := digits 0 (c :: s) in
        match rest with
        | ":" :: rest' =>
            if (N.to_nat n <=? length src)%nat
            then Ok (take (N.to_nat n) src
                       ++ list_byte_of_string (string_of_list_ascii rest'))%list
            else Raise corrupt_patch
        | _ => Raise corrupt_patch
        end
      else Raise corrupt_patch
  | _ => Raise corrupt_patch
  end.

(** An archive that is not closed: another first word, the members written
    and the name of the one under way; [unpack] does not take it. *)
Definition partial (ms : list zentry) (pending : option zentry) : bytes :=
  list_byte_of_string
    ("OPEN" ++ String.concat EmptyString (pack_member <$> ms)
     ++ match pending with
        | Some m => field (z_name m)
        | None => EmptyString
        end)%string.

Definition externals : Externals :=
  {| json_dumps := dumps;
     json_load := load;
     zip_image := pack;
     zip_partial := partial;
     zip_parse := unpack;
     bsdiff4_diff := diff;
     bsdiff4_patch := apply;
     py_repr := λ v, match dumps v with Ok s => s | Raise _ => "<object>"%string end |}.

End Reference.


(** ** Notions the statements use *)

(** The shape a [procedure] entry may take: the marker [custom], or a list
    of steps, each a pair of an operation name and a list of arguments. *)
Definition is_step (v : pyval) : bool :=
  match v with
  | PTuple [PStr _; PList _] | PList [PStr _; PList _] => true
  | _ => false
  end.

Definition is_procedure (v : pyval) : bool :=
  match v with
  | PStr s => String.eqb s "custom"
  | PList steps => forallb is_step steps
  | _ => false
  end.

(** No class derived from one of the four assigns [procedure] on the way to [c]. *)
Fixpoint inherits_procedure (c : pyclass) : bool :=
  match c with
  | Builtin _ => true
  | Subclass _ body base =>
      match b_procedure body with
      | None => inherits_procedure base
      | Some _ => false
      end
  end.

(** What a file argument designates in a world: the content behind it and
    the name [zipfile] reports for it. *)
Definition content_of (w : world) (t : target) : option content :=
  match t with
  | Path p => files w !! p
  | FileObj id => streams w !! id ≫= stream_content (files w)
  end.

Definition filename_of (w : world) (t : target) : option string :=
  match t with
  | Path p => Some p
  | FileObj id => streams w !! id ≫= s_name
  end.

(** The file on disk a file argument is, if it is one. *)
Definition disk_of (w : world) (t : target) : option string :=
  match t with
  | Path p => Some p
  | FileObj id =>
      match streams w !! id with
      | Some (FileStream p) => Some p
      | _ => None
      end
  end.

(** [w'] is [w] but for what the file argument [t] holds, the cache and the
    log: every other file and file-like object is as it was, no file-like
    object has come, gone or changed its name, and the registry and the
    paths the system refuses are the same. *)
Definition written_at (t : target) (w w' : world) : Prop :=
  (∀ q, disk_of w t ≠ Some q → files w' !! q = files w !! q)
  ∧ (∀ id, t ≠ FileObj id → streams w' !! id = streams w !! id)
  ∧ (∀ id, s_name <$> streams w' !! id = s_name <$> streams w !! id)
  ∧ (∀ t', disk_of w' t' = disk_of w t')
  ∧ unwritable w' = unwritable w ∧ patch_types w' = patch_types w
  ∧ file_endings w' = file_endings w.

(** The manifest [i] emits has this [compatible_version], this [procedure]. *)
Definition emits_compatible_version (i : instance) (w : world) (n : Z) : Prop :=
  ∃ m, get_manifest (State i w) = (Ok m, State i w)
       ∧ dict_get "compatible_version" m = Some (PInt n).

Definition emits_procedure (i : instance) (w : world) (p : pyval) : Prop :=
  ∃ m, get_manifest (State i w) = (Ok m, State i w) ∧ dict_get "procedure" m = Some p.

(** What [file_endings] holds is sound: every class found there was declared
    with a file ending that is not empty, the one it is filed under. *)
Definition file_endings_sound (w : world) : Prop :=
  Forall (λ e, e.1 ≠ EmptyString ∧ class_attr b_patch_file_ending e.2 = Some e.1)
         (file_endings w).

(** Declarations one after the other, the failed ones included. *)
Fixpoint declare_all (ds : list (string * pyclass * class_body)) (w : world) : world :=
  match ds with
  | [] => w
  | (name, base, dct) :: ds' => declare_all ds' (AutoPatchRegister_new name base dct w).2
  end.

(** How often the log has [get_source_data] of the class [k] called, and how
    often it has it return. *)
Definition gsd_calls (k : list string) (evs : list event) : nat :=
  length (filter (λ e, e = EvGetSourceData k true ∨ e = EvGetSourceData k false) evs).

Definition gsd_returns (k : list string) (evs : list event) : nat :=
  length (filter (λ e, e = EvGetSourceData k true) evs).

(** The cache and the log agree: [get_source_data] of a class has returned
    at most once, and a class for which it has returned has its
    [source_data]. *)
Definition cache_sound (w : world) : Prop :=
  ∀ k, (gsd_returns k (log w) ≤ 1)%nat
       ∧ (gsd_returns k (log w) = 1%nat → is_Some (source_data w !! k)).

(** A change of the world that leaves the cache alone and logs no return of
    [get_source_data]. *)
Definition quiet (w w' : world) : Prop :=
  source_data w' = source_data w ∧ ∀ k, gsd_returns k (log w') = gsd_returns k (log w).

(** How the cache may change from one world to a later one: what a class
    finds cached stays what it is, and the cache stays sound. *)
Definition cache_grows (w w' : world) : Prop :=
  (∀ c b, cached_source_data (source_data w) c = Some b
          → cached_source_data (source_data w') c = Some b)
  ∧ (cache_sound w → cache_sound w').

Definition cache_grows_s (s s' : state) : Prop := cache_grows (env s) (env s').
Definition cache_grows_z (zs zs' : zstate) : Prop := cache_grows_s (st zs) (st zs').

Inductive io := Reading | Writing.

Section Archives.
Context `{!Externals}.

(** The members [zipfile] finds in a file's content. *)
Definition archive_members (c : content) : option (list zentry) :=
  match c with
  | Archive ms => Some ms
  | Raw b => zip_parse b
  end.

(** [read] and [write], taken together. *)
Definition run (o : io) : option target → M state unit :=
  match o with
  | Reading => read
  | Writing => write
  end.

(** [zipfile.ZipFile] can open [t] for [o] on behalf of [i]: for reading, [t]
    holds an archive; for writing, the class's compression method is one
    [zipfile] supports and the system lets [t] be written. *)
Definition can_open (o : io) (i : instance) (w : world) (t : target) : Prop :=
  match o with
  | Reading => ∃ c ms, content_of w t = Some c ∧ archive_members c = Some ms
  | Writing =>
      (∃ m, class_attr b_compression_method (cls i) = Some m ∧ check_compression m = Ok tt)
      ∧ match t with
        | Path p => p ∉ unwritable w
        | FileObj id => is_Some (streams w !! id)
        end
  end.

(** What a process does with the classes and objects of this module, one
    call after the other; the world each call leaves is the world of the next,
    whether the call returned or raised. *)
Inductive op :=
| OpCache (c : pyclass)                            (* c.get_source_data_with_cache() *)
| OpWrite (i : instance) (file : option target)    (* i.write(file) *)
| OpRead (i : instance) (file : option target)     (* i.read(file) *)
| OpPatch (i : instance) (target : string)         (* i.patch(target) *)
| OpDeclare (name : string) (base : pyclass) (dct : class_body).  (* class name(base): dct *)

Definition step (o : op) (w : world) : world :=
  match o with
  | OpCache c => (get_source_data_with_cache c w).2
  | OpWrite i file => env (write file (State i w)).2
  | OpRead i file => env (read file (State i w)).2
  | OpPatch i target => env (patch target (State i w)).2
  | OpDeclare name base dct => (AutoPatchRegister_new name base dct w).2
  end.

Definition run_ops (os : list op) (w : world) : world := foldl (λ w o, step o w) w os.

(** Where [patch] takes its delta from: the state as it is when a delta that
    is not empty is loaded, the state a full [read()] leaves otherwise. *)
Definition before_applying (i : instance) (w : world) : result unit * state :=
  match delta i with
  | Some (_ :: _) => (Ok tt, State i w)
  | Some [] | None => read None (State i w)
  end.

(** The JSON codec gives back the manifest of [i]. *)
Definition manifest_survives_json (i : instance) (w : world) : Prop :=
  ∀ manifest text,
    (get_manifest (State i w)).1 = Ok manifest →
    json_dumps (PDict manifest) = Ok text →
    json_load (list_byte_of_string text) = Ok (PDict manifest).

End Archives.

(** [preserves R c]: whatever [c] does and however it ends, the state it
    leaves is related by [R] to the state it was started in. *)
Definition preserves {S A} (R : S → S → Prop) (c : M S A) : Prop :=
  ∀ s, R s (c s).2.

(** The instance keeps the path it is bound to. *)
Definition same_path (s s' : state) : Prop := path (self s') = path (self s).
Definition same_path_z (zs zs' : zstate) : Prop := same_path (st zs) (st zs').

(** The instance [read] leaves behind when it succeeds. *)
Definition after_read (i : instance) (path' : option string) (p n sv : pyval)
    (d : option bytes) : instance :=
  Instance (cls i) path' p n sv (patched_path i) d.

(** ** Concrete classes and worlds *)
Module Examples.

Definition B (s : string) : bytes := list_byte_of_string s.

Definition empty_world : world := World ∅ ∅ ∅ ∅ [] [] [].

(** A handler as a game declares it: [game], [patch_file_ending], [hash]
    and [get_source_data]. *)
Definition handler_body (game patch_file_ending hash : string)
    (get_source_data : gmap string content → result bytes) : class_body :=
  {| b_version := None; b_compression_level := None; b_compression_method := None;
     b_game := Some (Some game); b_procedure := None; b_result_file_ending := None;
     b_patch_file_ending := Some patch_file_ending; b_hash := Some (Some hash);
     b_get_source_data := Some get_source_data |}.

Definition base_rom : bytes := B "0000000000000000".
Definition patched_rom : bytes := B "000000000000GAME".

Definition GamePatch : pyclass :=
  Subclass "GamePatch" (handler_body "Game" ".apgame" "abc123" (λ _, Ok base_rom))
           (Builtin APDeltaPatch).

(** A second handler built on the first, with a base of its own. *)
Definition GamePatchEU : pyclass :=
  Subclass "GamePatchEU"
           (handler_body "Game EU" ".apgameeu" "def456" (λ _, Ok (B "1111111111111111")))
           GamePatch.

(** A handler whose base data is read from the file [base.rom]. *)
Definition from_rom_file (fs : gmap string content) : result bytes :=
  match fs !! "base.rom" with
  | Some (Raw b) => Ok b
  | _ => Raise (Exn Exception [PStr "Base ROM not found"] None)
  end.

Definition RomPatch : pyclass :=
  Subclass "RomPatch" (handler_body "Rom" ".aprom" "0a1b2c" from_rom_file)
           (Builtin APDeltaPatch).

(** A class body that names a game and leaves the file ending empty. *)
Definition NoEnding_body : class_body :=
  handler_body "Broken" EmptyString "000000" (λ _, Ok base_rom).
Definition NoEnding : pyclass := Subclass "NoEnding" NoEnding_body (Builtin APDeltaPatch).

Definition a_container : instance :=
  APContainer_init (Builtin APContainer) None (Some 3%Z) "Alice" "archipelago.gg:38281".

Definition a_delta_patch : instance :=
  APDeltaPatch_init GamePatch "patched.rom" (Some "AP_1.apgame") (Some 1%Z) "Alice"
                    "archipelago.gg:38281".

Definition a_bound_container : instance :=
  APContainer_init (Builtin APContainer) (Some "old.zip") (Some 3%Z) "Alice"
                   "archipelago.gg:38281".

(** A world with one in-memory stream, which has no name. *)
Definition stream_world : world :=
  set_streams (insert 0%nat (Stream None (Raw []))) empty_world.

Definition rom_world : world :=
  set_files (insert "patched.rom" (Raw patched_rom)) empty_world.

(** An archive whose manifest asks for a reader of version 999. *)
Definition future_manifest : pyval :=
  PDict [("server", PStr "remote"); ("player", PInt 9); ("player_name", PStr "Zed");
         ("game", PNone); ("compatible_version", PInt 999); ("version", PInt 999)].

Definition future_archive : content :=
  match Reference.dumps future_manifest with
  | Ok text => Archive [ZEntry "archipelago.json" (B text) ZIP_DEFLATED 9]
  | Raise _ => Raw []
  end.

Definition future_world : world :=
  set_files (insert "future.zip" future_archive) empty_world.

(** The state a container, and a delta patch, leave when they are written. *)
Definition written_container : state :=
  (@write Reference.externals (Some (Path "out.zip")) (State a_container empty_world)).2.

Definition written_patch : state :=
  (@write Reference.externals None (State a_delta_patch rom_world)).2.

Definition a_reader : instance :=
  APContainer_init (Builtin APContainer) None None EmptyString EmptyString.

Definition a_patch_reader : instance :=
  APDeltaPatch_init GamePatch EmptyString None None EmptyString EmptyString.

(** A patch object bound to the archive above, holding an empty delta. *)
Definition an_empty_delta_patch : instance :=
  set_delta (Some []) (APDeltaPatch_init GamePatch EmptyString (Some "AP_1.apgame") None
                                         EmptyString EmptyString).

(** A patch object holding the delta of the archive above, bound to no file. *)
Definition a_loaded_patch : instance :=
  set_delta (Some (Reference.diff base_rom patched_rom)) a_patch_reader.

(** The archive of [written_patch] with its delta renamed to [delta.bin]. *)
Definition rename_delta (m : zentry) : zentry :=
  if String.eqb (z_name m) "delta.bsdiff4"
  then ZEntry "delta.bin" (z_data m) (z_method m) (z_level m) else m.

Definition renamed_world : world :=
  set_files (alter (λ c, match c with
                         | Archive ms => Archive (rename_delta <$> ms)
                         | Raw b => Raw b
                         end) "AP_1.apgame") (env written_patch).

End Examples.

(** ** Further notions *)

(** [ending] is what [file] ends with. *)
Definition is_suffix (ending file : string) : Prop := ∃ prefix, file = prefix ++ ending.

(** The world is left as it is (and so is the open archive). *)
Definition same_env (s s' : state) : Prop := env s' = env s.
Definition same_env_z (zs zs' : zstate) : Prop :=
  env (st zs') = env (st zs) ∧ zf zs' = zf zs.

(** The class and the [patched_path] of the instance are left as they are. *)
Definition same_class (s s' : state) : Prop :=
  cls (self s') = cls (self s) ∧ patched_path (self s') = patched_path (self s).
Definition same_class_z (zs zs' : zstate) : Prop := same_class (st zs) (st zs').

(** The log grows, and by no entry of the semaphore. *)
Definition is_semaphore_event (e : event) : Prop := e = EvAcquire ∨ e = EvRelease.

Definition logs_no_semaphore (w w' : world) : Prop :=
  ∃ evs, log w' = (log w ++ evs)%list ∧ Forall (λ e, ¬ is_semaphore_event e) evs.
Definition logs_no_semaphore_s (s s' : state) : Prop := logs_no_semaphore (env s) (env s').
Definition logs_no_semaphore_z (zs zs' : zstate) : Prop :=
  logs_no_semaphore_s (st zs) (st zs').

(** What [read], [write] and [patch] may change in the world besides the
    files: the cache and the log, nothing else. *)
Definition store_kept (w w' : world) : Prop :=
  files w' = files w ∧ streams w' = streams w ∧ unwritable w' = unwritable w
  ∧ patch_types w' = patch_types w ∧ file_endings w' = file_endings w.

(** The same, but for what the file argument [dest] holds: the file of a
    path or of a file object opened from a path, an in-memory stream
    otherwise. *)
Definition untouched (dest : option target) (w w' : world) : Prop :=
  match dest with
  | Some t => written_at t w w'
  | None => store_kept w w'
  end.

(** [zipfile] can open [t] for writing with the method [m]. *)
Definition writable (w : world) (t : target) (m : Z) : Prop :=
  check_compression m = Ok tt
  ∧ match t with
    | Path p => p ∉ unwritable w
    | FileObj id => is_Some (streams w !! id)
    end.



Module MoreExamples.

(** A class body that names a game and assigns nothing else. *)
Definition game_only (game : string) : class_body :=
  {| b_version := None; b_compression_level := None; b_compression_method := None;
     b_game := Some (Some game); b_procedure := None; b_result_file_ending := None;
     b_patch_file_ending := None; b_hash := None; b_get_source_data := None |}.

(** The registry after [GamePatch], the class [NoEnding] and [RomPatch] were
    declared, in this order. *)
Definition declarations : list (string * pyclass * class_body) :=
  [ ("GamePatch", Builtin APDeltaPatch,
     Examples.handler_body "Game" ".apgame" "abc123" (λ _, Ok Examples.base_rom));
    ("NoEnding", Builtin APDeltaPatch, Examples.NoEnding_body);
    ("RomPatch", Builtin APDeltaPatch,
     Examples.handler_body "Rom" ".aprom" "0a1b2c" Examples.from_rom_file) ].

Definition registry : world := declare_all declarations Examples.empty_world.

(** A patch container, and the state it leaves when it is written. *)
Definition a_patch : instance :=
  APContainer_init (Builtin APPatch) None (Some 2%Z) "Bob" "localhost".

Definition written_patch_container : state :=
  (@write Reference.externals (Some (Path "patch.zip")) (State a_patch Examples.empty_world)).2.

Definition a_patch_reader : instance :=
  APContainer_init (Builtin APPatch) None None "nobody" "nowhere".

(** An archive whose manifest has no [server]. *)
Definition short_manifest : pyval :=
  PDict [("compatible_version", PInt 5); ("player", PInt 4); ("player_name", PStr "Eve")].

Definition short_archive : content :=
  match Reference.dumps short_manifest with
  | Ok text => Archive [ZEntry "archipelago.json" (Examples.B text) ZIP_DEFLATED 9]
  | Raise _ => Raw []
  end.

Definition short_world : world :=
  set_files (insert "short.zip" short_archive)
            (set_files (insert "empty.zip" (Archive [])) Examples.empty_world).


(** A patch of [RomPatch], whose base data is read from [base.rom], in a
    world that has the base and the patched file. *)
Definition a_rom_patch : instance :=
  APDeltaPatch_init Examples.RomPatch "patched.rom" (Some "out.aprom") (Some 1%Z) "Alice"
                    "archipelago.gg:38281".

Definition roms_world : world :=
  set_files (insert "base.rom" (Raw Examples.base_rom))
            (set_files (insert "patched.rom" (Raw Examples.patched_rom)) Examples.empty_world).

Definition written_rom_patch : state :=
  (@write Reference.externals None (State a_rom_patch roms_world)).2.

(** A fresh patch object of the same class, bound to the file written. *)
Definition a_rom_patch_reader : instance :=
  APDeltaPatch_init Examples.RomPatch EmptyString (Some "out.aprom") None EmptyString
                    EmptyString.


(** A container whose [player] is a byte string, which [json] refuses. *)
Definition a_bytes_player : instance :=
  Instance (Builtin APContainer) (Some "bad.zip") (PBytes (Examples.B "one")) (PStr "Alice")
           (PStr "localhost") EmptyString None.



(** A world with a file object opened from the path [named.zip]. *)
Definition file_object_world : world :=
  set_streams (insert 0%nat (FileStream "named.zip"))
              (set_files (insert "named.zip" (Raw [])) Examples.empty_world).

Definition bytes_manifest : list (string * pyval) :=
  [("server", PStr "localhost"); ("player", PBytes (Examples.B "one"));
   ("player_name", PStr "Alice"); ("game", PNone); ("compatible_version", PInt 5);
   ("version", PInt 6)].

End MoreExamples.

(** * Properties *)

(** ** Dictionaries and class attributes *)

Lemma dict_get_set_eq {K V} `{EqDecision K} (k : K) (v : V) d :
  dict_get k (dict_set k v d) = Some v.
Proof.
  induction d as [|[k' v'] d IH]; simpl; repeat case_decide; simpl;
    repeat case_decide; congruence.
Qed.

Lemma dict_get_set_ne {K V} `{EqDecision K} (k k' : K) (v : V) d :
  k ≠ k' → dict_get k' (dict_set k v d) = dict_get k' d.
Proof.
  intros Hne. induction d as [|[k1 v1] d IH]; simpl; repeat case_decide; simpl;
    repeat case_decide; congruence.
Qed.

Lemma head_omap_is_Some {A B} (f : A → option B) (l : list A) x v :
  x ∈ l → f x = Some v → is_Some (head (omap f l)).
Proof.
  induction l as [|y l IH]; intros Hin Hf.
  - by apply elem_of_nil in Hin.
  - simpl. destruct (f y) eqn:Hy; simpl; [eauto|].
    apply elem_of_cons in Hin as [->|Hin]; [congruence|eauto].
Qed.

(** An attribute one of the four classes assigns is found on every class
    derived from it. *)
Lemma class_attr_builtin {A} (field : class_body → option A) c k v :
  k ∈ kind_mro (kind_of c) → field (body_of k) = Some v → is_Some (class_attr field c).
Proof.
  unfold class_attr. induction c as [k0|name body base IH]; simpl; intros Hin Hf.
  - eapply head_omap_is_Some; [|exact Hf]. by apply list_elem_of_fmap_2.
  - destruct (field body); simpl; eauto.
Qed.

Lemma APContainer_in_mro k : APContainer ∈ kind_mro k.
Proof. destruct k; set_solver. Qed.

Lemma game_defined c : is_Some (class_attr b_game c).
Proof. eapply (class_attr_builtin _ c APContainer); [apply APContainer_in_mro|done]. Qed.

Lemma version_defined c : is_Some (class_attr b_version c).
Proof. eapply (class_attr_builtin _ c APContainer); [apply APContainer_in_mro|done]. Qed.

Lemma compression_defined c :
  is_Some (class_attr b_compression_method c) ∧ is_Some (class_attr b_compression_level c).
Proof.
  split; (eapply (class_attr_builtin _ c APContainer); [apply APContainer_in_mro|done]).
Qed.

Lemma procedure_defined c : kind_of c ≠ APContainer → is_Some (class_attr b_procedure c).
Proof.
  intros Hk. eapply (class_attr_builtin _ c APPatch); [|done].
  destruct (kind_of c); set_solver.
Qed.

Lemma delta_attrs_defined c :
  kind_of c = APDeltaPatch →
  is_Some (class_attr b_result_file_ending c) ∧ is_Some (class_attr b_patch_file_ending c).
Proof.
  intros Hk. split.
  - eapply (class_attr_builtin _ c APAutoPatchInterface); [rewrite Hk; set_solver|done].
  - eapply (class_attr_builtin _ c APDeltaPatch); [rewrite Hk; set_solver|done].
Qed.

(** The default of [procedure], class by class. *)
Lemma procedure_inherited c :
  inherits_procedure c = true →
  class_attr b_procedure c =
    match kind_of c with
    | APContainer => None
    | APPatch | APAutoPatchInterface => Some (PStr "custom")
    | APDeltaPatch => Some PNone
    end.
Proof.
  unfold class_attr. induction c as [k|name body base IH]; simpl.
  - by destruct k.
  - destruct (b_procedure body); [done|]. simpl. exact IH.
Qed.

(** ** The reference modules, run *)

Example reference_json_round_trip :
  (match Reference.dumps Examples.future_manifest with
   | Ok text => Reference.load (list_byte_of_string text)
   | Raise e => Raise e
   end) = Ok Examples.future_manifest.
Proof. vm_compute. reflexivity. Qed.

Example reference_archive_round_trip :
  Reference.unpack
    (Reference.pack [ZEntry "archipelago.json" (Examples.B "{}") ZIP_DEFLATED 9;
                     ZEntry "delta.bsdiff4" Examples.base_rom ZIP_STORED 9])
  = Some [ZEntry "archipelago.json" (Examples.B "{}") ZIP_DEFLATED 9;
          ZEntry "delta.bsdiff4" Examples.base_rom ZIP_STORED 9].
Proof. vm_compute. reflexivity. Qed.

Example reference_delta_round_trip :
  Reference.apply Examples.base_rom (Reference.diff Examples.base_rom Examples.patched_rom)
  = Ok Examples.patched_rom.
Proof. vm_compute. reflexivity. Qed.

(** A declared handler is found by the ending of a file name. *)
Example get_handler_by_ending :
  let w := (AutoPatchRegister_new "GamePatch" (Builtin APDeltaPatch)
              (Examples.handler_body "Game" ".apgame" "abc123" (λ _, Ok Examples.base_rom))
              Examples.empty_world).2 in
  get_handler "AP_1.apgame" w = Some Examples.GamePatch
  ∧ get_handler "AP_1.apother" w = None.
Proof. split; reflexivity. Qed.

(** ** The write limiter *)

(** C9, as stated, fails: where the system reports two processing units the
    limiter has two slots, which is fewer than four. *)
Lemma semaphore_below_four :
  semaphore (Some 2%Z) = Ok 2%Z ∧ ¬ (4 ≤ 2)%Z.
Proof. split; [reflexivity|lia]. Qed.

(** C9, amended: the limiter has exactly as many slots as there are
    processing units whenever the system reports a count [n >= 1]; the
    value 4 is what it falls back to when the count is not known or zero. *)
Theorem semaphore_capacity (n : Z) :
  (1 ≤ n)%Z →
  semaphore (Some n) = Ok n ∧ semaphore None = Ok 4%Z ∧ semaphore (Some 0%Z) = Ok 4%Z.
Proof.
  intros Hn. unfold semaphore, Semaphore, cpu_count_or_4.
  destruct (Z.eqb_spec n 0) as [->|_]; [lia|].
  destruct (Z.ltb_spec n 0); [lia|]. done.
Qed.

(** C9 on a system with two processing units. *)
Lemma semaphore_capacity_witness :
  semaphore (Some 2%Z) = Ok 2%Z ∧ semaphore None = Ok 4%Z ∧ semaphore (Some 0%Z) = Ok 4%Z.
Proof. apply (semaphore_capacity 2). lia. Defined.

(** ** Manifests *)

Ltac run_manifest :=
  unfold get_manifest, APDeltaPatch_get_manifest, APPatch_get_manifest,
    APContainer_get_manifest, bind, ret, gets, self_attr, getattr; simpl.

(** [get_manifest] leaves the state alone. *)
Lemma get_manifest_pure s : (get_manifest s).2 = s.
Proof.
  destruct s as [i w]. run_manifest.
  destruct (kind_of (cls i)); simpl;
    repeat (match goal with |- context [class_attr ?f ?c] => destruct (class_attr f c) end; simpl);
    reflexivity.
Qed.


(** C4, as stated, fails: the manifest of a delta patch declares
    [compatible_version] 5, not 6. *)
Lemma delta_patch_manifest_declares_5 :
  ∃ m, get_manifest (State Examples.a_delta_patch Examples.empty_world)
       = (Ok m, State Examples.a_delta_patch Examples.empty_world)
       ∧ dict_get "compatible_version" m = Some (PInt 5)
       ∧ dict_get "compatible_version" m ≠ Some (PInt 6).
Proof. eexists. split; [lazy; reflexivity|]. split; [reflexivity|discriminate]. Qed.

(** C4, amended: the manifest of a plain container declares
    [compatible_version] 5, the manifest of [APPatch] and of
    [APAutoPatchInterface] (and of the classes that inherit [get_manifest]
    from them) declares 6, and the manifest of [APDeltaPatch] declares 5
    again, for every class that gives it a [hash]. *)
Theorem manifest_compatible_version (i : instance) (w : world) :
  match kind_of (cls i) with
  | APContainer => emits_compatible_version i w 5
  | APPatch | APAutoPatchInterface => emits_compatible_version i w 6
  | APDeltaPatch => is_Some (class_attr b_hash (cls i)) → emits_compatible_version i w 5
  end.
Proof.
  destruct (game_defined (cls i)) as [g Hg].
  destruct (kind_of (cls i)) eqn:Hk; unfold emits_compatible_version; run_manifest;
    rewrite Hk; simpl; rewrite Hg; simpl.
  - eexists. split; reflexivity.
  - destruct (procedure_defined (cls i)) as [p Hp]; [congruence|]. rewrite Hp. simpl.
    eexists. split; reflexivity.
  - destruct (procedure_defined (cls i)) as [p Hp]; [congruence|]. rewrite Hp. simpl.
    eexists. split; reflexivity.
  - intros [h Hh].
    destruct (procedure_defined (cls i)) as [p Hp]; [congruence|].
    destruct (delta_attrs_defined (cls i) Hk) as [[r Hr] [e He]].
    repeat (first [rewrite Hp | rewrite Hh | rewrite Hr | rewrite He]; simpl).
    eexists. split; reflexivity.
Qed.


(** C4 on a delta patch and on a plain container. *)
Lemma manifest_compatible_version_witness :
  emits_compatible_version Examples.a_delta_patch Examples.empty_world 5
  ∧ emits_compatible_version Examples.a_container Examples.empty_world 5.
Proof.
  split.
  - apply (manifest_compatible_version Examples.a_delta_patch Examples.empty_world).
    by eexists.
  - apply (manifest_compatible_version Examples.a_container Examples.empty_world).
Defined.

(** C5, as stated, fails: the [procedure] entry of a delta patch's manifest
    is [None], which is neither the marker [custom] nor a list of steps. *)
Lemma delta_patch_procedure_is_none :
  emits_procedure Examples.a_delta_patch Examples.empty_world PNone
  ∧ is_procedure PNone = false.
Proof. split; [|reflexivity]. eexists. split; [lazy; reflexivity|reflexivity]. Qed.

(** C5, amended: the manifest of every patch kind has a [procedure] entry,
    and it holds the [procedure] attribute of the instance's class.  Where no
    derived class assigns the attribute, that is the marker [custom] for
    [APPatch] and [APAutoPatchInterface], and [None] for [APDeltaPatch],
    whose body sets it so. *)
Theorem manifest_procedure (i : instance) (w : world) :
  kind_of (cls i) ≠ APContainer →
  (kind_of (cls i) = APDeltaPatch → is_Some (class_attr b_hash (cls i))) →
  ∃ p, class_attr b_procedure (cls i) = Some p
       ∧ emits_procedure i w p
       ∧ (inherits_procedure (cls i) = true →
          p = match kind_of (cls i) with
              | APDeltaPatch => PNone
              | _ => PStr "custom"
              end).
Proof.
  intros Hk Hhash.
  destruct (procedure_defined (cls i) Hk) as [p Hp].
  destruct (game_defined (cls i)) as [g Hg].
  exists p. split; [done|]. split.
  - unfold emits_procedure. run_manifest.
    destruct (kind_of (cls i)) eqn:Hkind; [done|..]; simpl;
      rewrite Hg; simpl; rewrite Hp; simpl.
    + eexists. split; reflexivity.
    + eexists. split; reflexivity.
    + destruct Hhash as [h Hh]; [done|].
      destruct (delta_attrs_defined (cls i) Hkind) as [[r Hr] [e He]].
      repeat (first [rewrite Hh | rewrite Hr | rewrite He]; simpl).
      eexists. split; reflexivity.
  - intros Hinh. apply procedure_inherited in Hinh. rewrite Hp in Hinh.
    destruct (kind_of (cls i)); congruence.
Qed.

(** C5 on the example delta patch. *)
Lemma manifest_procedure_witness :
  ∃ p, class_attr b_procedure Examples.GamePatch = Some p
       ∧ emits_procedure Examples.a_delta_patch Examples.empty_world p
       ∧ (inherits_procedure Examples.GamePatch = true → p = PNone).
Proof.
  apply (manifest_procedure Examples.a_delta_patch Examples.empty_world).
  - discriminate.
  - intros _. eexists. reflexivity.
Defined.

(** ** The registry *)

(** A declaration with an empty file ending raises (first half of C7). *)
Lemma empty_ending_raises name base dct game w :
  b_game dct = Some game →
  b_patch_file_ending dct = Some EmptyString →
  (AutoPatchRegister_new name base dct w).1
  = Raise (Exn Exception [PStr ("Need an expected file ending for " ++ name)] None).
Proof.
  intros Hg He. unfold AutoPatchRegister_new. rewrite Hg, He. reflexivity.
Qed.


Lemma Forall_dict_set {K V} `{EqDecision K} (P : K * V → Prop) k v (d : list (K * V)) :
  P (k, v) → Forall P d → Forall P (dict_set k v d).
Proof.
  intros Hkv. induction 1 as [|[k' v'] d Hx Hd IH]; simpl.
  - by constructor.
  - case_decide; constructor; auto.
Qed.

Lemma str_truthy_nonempty s : str_truthy s = true ↔ s ≠ EmptyString.
Proof.
  unfold str_truthy. destruct (String.eqb_spec s EmptyString); simpl; split; congruence.
Qed.

Lemma AutoPatchRegister_new_file_endings name base dct w :
  file_endings_sound w → file_endings_sound (AutoPatchRegister_new name base dct w).2.
Proof.
  intros Hw. unfold AutoPatchRegister_new.
  destruct (b_game dct) as [game|]; [|exact Hw].
  unfold bind, modify, raise, ret; simpl.
  destruct (b_patch_file_ending dct) as [ending|] eqn:He; [|exact Hw].
  destruct (str_truthy ending) eqn:Ht; simpl; [|exact Hw].
  apply Forall_dict_set; [|exact Hw]. simpl. split.
  - by apply str_truthy_nonempty.
  - unfold class_attr. simpl. by rewrite He.
Qed.


Lemma declare_all_file_endings ds w :
  file_endings_sound w → file_endings_sound (declare_all ds w).
Proof.
  revert w. induction ds as [|[[name base] dct] ds IH]; intros w Hw; simpl; [done|].
  apply IH. by apply AutoPatchRegister_new_file_endings.
Qed.

(** C7, where the code departs from it: a class that names a game and has an
    empty file ending is put into [patch_types] before the ending is looked
    at, so that the declaration raises and the registry keeps the class. *)
Theorem failed_declaration_stays_registered name base dct game w :
  b_game dct = Some game →
  b_patch_file_ending dct = Some EmptyString →
  ∃ w',
    AutoPatchRegister_new name base dct w
    = (Raise (Exn Exception [PStr ("Need an expected file ending for " ++ name)] None), w')
    ∧ dict_get game (patch_types w') = Some (Subclass name dct base)
    ∧ class_attr b_patch_file_ending (Subclass name dct base) = Some EmptyString
    ∧ file_endings w' = file_endings w.
Proof.
  intros Hg He. unfold AutoPatchRegister_new. rewrite Hg, He.
  eexists. split; [reflexivity|]. simpl. split; [apply dict_get_set_eq|].
  split; [|reflexivity]. unfold class_attr. simpl. by rewrite He.
Qed.

(** C7 on the class [NoEnding], declared in an empty registry. *)
Lemma failed_declaration_witness :
  ∃ w',
    AutoPatchRegister_new "NoEnding" (Builtin APDeltaPatch) Examples.NoEnding_body
                          Examples.empty_world
    = (Raise (Exn Exception [PStr "Need an expected file ending for NoEnding"] None), w')
    ∧ dict_get (Some "Broken") (patch_types w') = Some Examples.NoEnding
    ∧ class_attr b_patch_file_ending Examples.NoEnding = Some EmptyString
    ∧ file_endings w' = [].
Proof.
  apply (failed_declaration_stays_registered "NoEnding" (Builtin APDeltaPatch)
           Examples.NoEnding_body (Some "Broken") Examples.empty_world); reflexivity.
Defined.

(** ** The version gate *)

Lemma string_app_assoc (s1 s2 s3 : string) : (s1 ++ s2) ++ s3 = s1 ++ (s2 ++ s3).
Proof.
  induction s1 as [|c s1 IH]; [reflexivity|].
  change (String c ((s1 ++ s2) ++ s3) = String c (s1 ++ (s2 ++ s3))). by rewrite IH.
Qed.

Section ReadProps.
Context `{!Externals}.

(** What [read] makes of the exception of the version gate. *)
Lemma invalid_data_too_new cv v :
  let message := "File (version: " ++ str_of_int cv
                 ++ ") too new for this handler (version: " ++ str_of_int v ++ ")" in
  invalid_data (too_new (PInt cv) v)
  = Exn InvalidDataError
        [PStr (message ++ " - This might be the incorrect world version for this file")]
        (Some (Exn Exception [PStr message] None)).
Proof.
  intros message. unfold invalid_data, too_new. cbn [exn_args py_str]. fold message.
  by rewrite string_app_assoc.
Qed.


Lemma ZipFile_open_read t w c ms :
  content_of w t = Some c →
  archive_members c = Some ms →
  ZipFile_open t ModeR ZIP_STORED None w
  = (Ok (ZipFile t (filename_of w t) ModeR ZIP_STORED None ms false),
     emit (EvZipOpen ModeR t) w).
Proof.
  intros Hc Hms. unfold ZipFile_open. simpl.
  destruct t as [p|id]; simpl in *.
  - rewrite Hc. destruct c as [b|ms']; simpl in *; [rewrite Hms|]; congruence.
  - destruct (streams w !! id) as [s|]; simpl in *; [|done].
    rewrite Hc. destruct c as [b|ms']; simpl in *; [rewrite Hms|]; congruence.
Qed.

Lemma APContainer_read_contents_too_new z s f manifest cv v :
  zip_member "archipelago.json" (zf_members z) = Some f →
  json_load (z_data f) = Ok manifest →
  getitem manifest "compatible_version" = Ok (PInt cv) →
  class_attr b_version (cls (self s)) = Some v →
  (v < cv)%Z →
  APContainer_read_contents (ZState z s) = (Raise (too_new (PInt cv) v), ZState z s).
Proof.
  intros Hf Hj Hcv Hv Hlt.
  unfold APContainer_read_contents, bind, zf_read, lift_result, in_st, zoom, self_attr, getattr.
  simpl. rewrite Hf, Hj, Hcv. destruct s as [i w]. simpl in *. rewrite Hv. simpl.
  destruct (Z.ltb_spec v cv); [reflexivity|lia].
Qed.

Lemma read_contents_too_new z s f manifest cv v :
  zip_member "archipelago.json" (zf_members z) = Some f →
  json_load (z_data f) = Ok manifest →
  getitem manifest "compatible_version" = Ok (PInt cv) →
  class_attr b_version (cls (self s)) = Some v →
  (v < cv)%Z →
  read_contents (ZState z s) = (Raise (too_new (PInt cv) v), ZState z s).
Proof.
  intros Hf Hj Hcv Hv Hlt.
  pose proof (APContainer_read_contents_too_new z s f manifest cv v Hf Hj Hcv Hv Hlt) as Hr.
  unfold read_contents, APDeltaPatch_read_contents, bind, in_st, zoom, gets. 
  destruct s as [i w]. simpl in *.
  destruct (kind_of (cls i)); rewrite ?Hr; reflexivity.
Qed.

(** C1, amended: when the manifest of the archive declares a
    [compatible_version] greater than the [version] of the reading class,
    [read] fails with [InvalidDataError]; its message is the message of the
    version gate, which carries both numbers, followed by the hint of [read],
    and its cause is the exception of the version gate.  [player],
    [player_name], [server] (and [delta]) are left as they were. *)
Theorem read_too_new file i w t c ms f manifest cv v :
  file_or_path file (path i) = Some t →
  content_of w t = Some c →
  archive_members c = Some ms →
  zip_member "archipelago.json" ms = Some f →
  json_load (z_data f) = Ok manifest →
  getitem manifest "compatible_version" = Ok (PInt cv) →
  class_attr b_version (cls i) = Some v →
  (v < cv)%Z →
  let message := "File (version: " ++ str_of_int cv
                 ++ ") too new for this handler (version: " ++ str_of_int v ++ ")" in
  ∃ s',
    read file (State i w)
    = (Raise (Exn InvalidDataError
                [PStr (message ++ " - This might be the incorrect world version for this file")]
                (Some (Exn Exception [PStr message] None))), s')
    ∧ player (self s') = player i
    ∧ player_name (self s') = player_name i
    ∧ server (self s') = server i
    ∧ delta (self s') = delta i.
Proof.
  intros Ht Hc Hms Hf Hj Hcv Hv Hlt message.
  unfold read, bind, gets. simpl. rewrite Ht. unfold with_ZipFile. simpl.
  rewrite (ZipFile_open_read t w c ms Hc Hms).
  unfold rebind_path, try_except, bind, modify, ret, raise.
  destruct (file_given file); simpl.
  - erewrite read_contents_too_new by (simpl; eauto). simpl.
    eexists. split; [by rewrite invalid_data_too_new|]. done.
  - erewrite read_contents_too_new by (simpl; eauto). simpl.
    eexists. split; [by rewrite invalid_data_too_new|]. done.
Qed.
End ReadProps.

(** C1 on an archive whose manifest asks for version 999, read by a plain container. *)
Lemma read_too_new_witness :
  ∃ s',
    @read Reference.externals (Some (Path "future.zip"))
          (State Examples.a_container Examples.future_world)
    = (Raise (Exn InvalidDataError
                [PStr ("File (version: 999) too new for this handler (version: 6)"
                       ++ " - This might be the incorrect world version for this file")]
                (Some (Exn Exception
                         [PStr "File (version: 999) too new for this handler (version: 6)"]
                         None))), s')
    ∧ player (self s') = PInt 3
    ∧ player_name (self s') = PStr "Alice"
    ∧ server (self s') = PStr "archipelago.gg:38281"
    ∧ delta (self s') = None.
Proof.
  eapply (@read_too_new Reference.externals (Some (Path "future.zip")) Examples.a_container
            Examples.future_world (Path "future.zip") _ _ _ _ 999%Z 6%Z).
  - reflexivity.
  - reflexivity.
  - reflexivity.
  - reflexivity.
  - vm_compute. reflexivity.
  - reflexivity.
  - reflexivity.
  - lia.
Defined.

(** C1, as stated, fails: what [read] raises is not the exception of the
    version gate but an [InvalidDataError] that has it as its cause. *)
Lemma read_wraps_too_new :
  ∃ e s',
    @read Reference.externals (Some (Path "future.zip"))
          (State Examples.a_container Examples.future_world) = (Raise e, s')
    ∧ exn_kind_of e = InvalidDataError
    ∧ exn_cause e = Some (@too_new Reference.externals (PInt 999) 6)
    ∧ e ≠ @too_new Reference.externals (PInt 999) 6.
Proof.
  eexists _, _. split; [vm_compute; reflexivity|].
  split; [reflexivity|]. split; [reflexivity|]. vm_compute. discriminate.
Qed.

(** ** Frame reasoning

    [preserves R c]: whatever [c] does and however it ends, the state it
    leaves is related by [R] to the state it was started in. *)
Section Preserves.
Context {S : Type} (R : S → S → Prop) `{!PreOrder R}.

Lemma preserves_ret {A} (a : A) : preserves R (ret a).
Proof. intros s. reflexivity. Qed.

Lemma preserves_raise {A} e : preserves R (@raise S A e).
Proof. intros s. reflexivity. Qed.

Lemma preserves_gets {A} (f : S → A) : preserves R (gets f).
Proof. intros s. reflexivity. Qed.

Lemma preserves_lift_result {A} (r : result A) : preserves R (lift_result r).
Proof. intros s. reflexivity. Qed.

Lemma preserves_modify (f : S → S) : (∀ s, R s (f s)) → preserves R (modify f).
Proof. intros Hf s. apply Hf. Qed.

Lemma preserves_bind {A B} (c : M S A) (k : A → M S B) :
  preserves R c → (∀ a, preserves R (k a)) → preserves R (bind c k).
Proof.
  intros Hc Hk s. unfold bind. specialize (Hc s).
  destruct (c s) as [[a|e] s1]; simpl in *; [|done].
  etrans; [exact Hc|apply Hk].
Qed.

Lemma preserves_try_except {A} (c : M S A) (h : exn → M S A) :
  preserves R c → (∀ e, preserves R (h e)) → preserves R (try_except c h).
Proof.
  intros Hc Hh s. unfold try_except. specialize (Hc s).
  destruct (c s) as [[a|e] s1]; simpl in *; [done|].
  etrans; [exact Hc|apply Hh].
Qed.

Lemma preserves_finally {A} (c : M S A) (cleanup : S → S) :
  preserves R c → (∀ s, R s (cleanup s)) → preserves R (finally c cleanup).
Proof.
  intros Hc Hf s. unfold finally. specialize (Hc s).
  destruct (c s) as [r s1]; simpl in *. etrans; [exact Hc|apply Hf].
Qed.

Lemma preserves_zoom {T A} (R' : T → T → Prop) (get : S → T) (put : T → S → S)
    (c : M T A) :
  (∀ s t, R' (get s) t → R s (put t s)) → preserves R' c → preserves R (zoom get put c).
Proof.
  intros Hput Hc s. unfold zoom. specialize (Hc (get s)).
  destruct (c (get s)) as [r t]; simpl in *. by apply Hput.
Qed.

End Preserves.

#[global] Instance same_path_preorder : PreOrder same_path.
Proof. split; [by intros s|intros s1 s2 s3 H12 H23; unfold same_path in *; congruence]. Qed.

#[global] Instance same_path_z_preorder : PreOrder same_path_z.
Proof.
  split; [by intros s|intros s1 s2 s3 H12 H23; unfold same_path_z, same_path in *; congruence].
Qed.

Ltac frame :=
  repeat (first [ apply preserves_bind | apply preserves_try_except
                | apply preserves_finally | apply preserves_ret | apply preserves_raise
                | apply preserves_gets | apply preserves_lift_result ];
          try (match goal with |- PreOrder _ => apply _ end); intros).

Section PathFrame.
Context `{!Externals}.

Lemma in_env_same_path {A} (c : M world A) : preserves same_path (in_env c).
Proof. intros s. unfold in_env, zoom. by destruct (c (env s)). Qed.

Lemma in_st_same_path {A} (c : M state A) :
  preserves same_path c → preserves same_path_z (in_st c).
Proof.
  intros Hc. unfold in_st. eapply preserves_zoom; [|exact Hc]. by intros s t.
Qed.

Lemma self_attr_same_path {A} attr (field : class_body → option A) :
  preserves same_path (self_attr attr field).
Proof. by intros s. Qed.

Lemma get_manifest_same_path : preserves same_path get_manifest.
Proof. intros s. by rewrite get_manifest_pure. Qed.

Lemma writestr_same_path name data ct : preserves same_path_z (writestr name data ct).
Proof.
  intros zs. unfold writestr. destruct (zf_mode (zf zs)); [done|].
  destruct (zf_writing (zf zs)); [done|]. by destruct (compressor_error _ _).
Qed.

Lemma zf_read_same_path name : preserves same_path_z (zf_read name).
Proof. intros zs. unfold zf_read. by destruct (zip_member _ _). Qed.

Ltac frame_path :=
  repeat first
    [ progress frame
    | apply in_st_same_path | apply in_env_same_path | apply get_manifest_same_path
    | apply writestr_same_path | apply zf_read_same_path | apply self_attr_same_path
    | match goal with
      | |- preserves _ (match ?x with _ => _ end) => destruct x
      | |- preserves _ (if ?x then _ else _) => destruct x
      end ].

Lemma write_contents_same_path : preserves same_path_z write_contents.
Proof.
  unfold write_contents, APDeltaPatch_write_contents, APContainer_write_contents.
  frame_path.
Qed.

Lemma on_self_same_path f :
  (∀ i, path (f i) = path i) → preserves same_path (modify (on_self f)).
Proof. intros Hf s. apply Hf. Qed.

Lemma read_contents_same_path : preserves same_path_z read_contents.
Proof.
  unfold read_contents, APDeltaPatch_read_contents, APContainer_read_contents.
  frame_path; by apply on_self_same_path.
Qed.

End PathFrame.

Section PathProps.
Context `{!Externals}.

Lemma ZipFile_open_write i t w m level :
  can_open Writing i w t →
  class_attr b_compression_method (cls i) = Some m →
  ∃ w', ZipFile_open t ModeW m level w
        = (Ok (ZipFile t (filename_of w t) ModeW m level [] false), w')
        ∧ unwritable w' = unwritable w ∧ source_data w' = source_data w
        ∧ streams w' = streams w.
Proof.
  intros [(m' & Hm' & Hcheck) Ht] Hm. rewrite Hm in Hm'. injection Hm' as <-.
  unfold ZipFile_open. rewrite Hcheck. destruct t as [p|id]; simpl in *.
  - rewrite decide_False by done. eauto.
  - destruct Ht as [s Hs]. rewrite Hs. simpl. eauto.
Qed.

(** A [with ZipFile] block whose body keeps the path keeps the path. *)
Lemma with_ZipFile_same_path {A} t mode c l (body : M zstate A) :
  preserves same_path_z body → preserves same_path (with_ZipFile t mode c l body).
Proof.
  intros Hb s. unfold with_ZipFile.
  destruct (ZipFile_open t mode c l (env s)) as [[z|e] w1]; [|done].
  specialize (Hb (ZState z (State (self s) w1))).
  destruct (body _) as [r zs]. by destruct (ZipFile_close _ _) as [[[]|e] w'].
Qed.

(** A [with ZipFile] block that rebinds the path first and keeps it from
    there on leaves the instance bound to the archive's file name. *)
Lemma with_ZipFile_rebinds {A} t mode c l (rest : M zstate A) file s z w1 :
  file_given file = true →
  ZipFile_open t mode c l (env s) = (Ok z, w1) →
  preserves same_path_z rest →
  path (self (with_ZipFile t mode c l (rebind_path file ;;; rest) s).2) = zf_filename z.
Proof.
  intros Hfile Hopen Hrest. unfold with_ZipFile. rewrite Hopen.
  unfold rebind_path, bind, modify. rewrite Hfile. simpl.
  match goal with |- context [rest ?zs] => specialize (Hrest zs); destruct (rest zs) as [r zs'] end.
  by destruct (ZipFile_close _ _) as [[[]|e] w'].
Qed.

Lemma rebind_path_not_given file :
  file_given file = false → preserves same_path_z (rebind_path file).
Proof. intros Hf zs. unfold rebind_path. by rewrite Hf. Qed.

Lemma with_semaphore_path {A} (body : M state A) s :
  path (self (with_semaphore body s).2) = path (self (body (on_env (emit EvAcquire) s)).2).
Proof.
  unfold with_semaphore, bind, modify, finally. simpl.
  by destruct (body _) as [r s'].
Qed.

Lemma read_handler_same_path : preserves same_path_z
  (try_except read_contents (λ e, raise (invalid_data e))).
Proof.
  apply preserves_try_except; [apply _|apply read_contents_same_path|].
  intros e. apply preserves_raise, _.
Qed.

Lemma read_eq file i w :
  read file (State i w) =
  match file_or_path file (path i) with
  | None =>
      (Raise (Exn FileNotFoundError
                [PStr ("Cannot read " ++ class_name (cls i) ++ " due to no path provided.")]
                None), State i w)
  | Some zip_file =>
      with_ZipFile zip_file ModeR ZIP_STORED None
        (rebind_path file ;;; try_except read_contents (λ e, raise (invalid_data e)))
        (State i w)
  end.
Proof. unfold read, bind at 1, gets. simpl. by destruct (file_or_path _ _). Qed.

Lemma write_eq file i w :
  write file (State i w) =
  match file_or_path file (path i) with
  | None =>
      (Raise (Exn FileNotFoundError
                [PStr ("Cannot write " ++ class_name (cls i) ++ " due to no path provided.")]
                None), State i w)
  | Some zip_file =>
      with_semaphore (
        compression_method <- self_attr "compression_method" b_compression_method ;;
        compression_level <- self_attr "compression_level" b_compression_level ;;
        with_ZipFile zip_file ModeW compression_method (Some compression_level)
          (rebind_path file ;;; write_contents)) (State i w)
  end.
Proof. unfold write, bind at 1, gets. simpl. by destruct (file_or_path _ _). Qed.

(** The body of [write] under the semaphore, once the class attributes are
    looked up. *)
Lemma write_body_eq (file : option target) t s m l :
  class_attr b_compression_method (cls (self s)) = Some m →
  class_attr b_compression_level (cls (self s)) = Some l →
  (compression_method <- self_attr "compression_method" b_compression_method ;;
   compression_level <- self_attr "compression_level" b_compression_level ;;
   with_ZipFile t ModeW compression_method (Some compression_level)
     (rebind_path file ;;; write_contents)) s
  = with_ZipFile t ModeW m (Some l) (rebind_path file ;;; write_contents) s.
Proof.
  intros Hm Hl. unfold bind at 1. unfold self_attr at 1, getattr. simpl. rewrite Hm.
  unfold bind at 1. unfold self_attr at 1, getattr. simpl. by rewrite Hl.
Qed.

(** Without a file argument that counts, [read] and [write] keep the path. *)
Lemma run_same_path o file :
  file_given file = false → preserves same_path (run o file).
Proof.
  intros Hf [i w]. destruct o; simpl.
  - rewrite read_eq. destruct (file_or_path file (path i)) as [t|]; [|done].
    apply (with_ZipFile_same_path t ModeR ZIP_STORED None).
    apply preserves_bind; [apply _|by apply rebind_path_not_given|].
    intros _. apply read_handler_same_path.
  - rewrite write_eq. destruct (file_or_path file (path i)) as [t|]; [|done].
    unfold same_path. rewrite with_semaphore_path.
    destruct (compression_defined (cls i)) as [[m Hm] [l Hl]].
    rewrite (write_body_eq file t (on_env (emit EvAcquire) (State i w)) m l Hm Hl).
    refine (with_ZipFile_same_path t ModeW m (Some l) _ _
              (on_env (emit EvAcquire) (State i w))).
    apply preserves_bind; [apply _|by apply rebind_path_not_given|].
    intros _. apply write_contents_same_path.
Qed.

Lemma file_or_path_not_given file p t :
  file_given file = false → file_or_path file p = Some t → ∃ q, t = Path q ∧ p = Some q.
Proof.
  unfold file_or_path. intros ->. destruct p as [p|]; [|done].
  destruct (str_truthy p); [|done]. intros [= <-]. eauto.
Qed.

(** C10: called without a file argument, [read] and [write] leave the
    instance's path as it was; called with one, once the archive is open
    they bind the instance to the archive's file name: the path itself for
    a path, the [name] of a file-like object, [None] when it has none (an
    in-memory stream). *)
Theorem file_argument_rebinds_path (o : io) (file : option target) (i : instance) (w : world) :
  (file = None → path (self (run o file (State i w)).2) = path i)
  ∧ (∀ t, file ≠ None →
          file_or_path file (path i) = Some t →
          can_open o i w t →
          path (self (run o file (State i w)).2) = filename_of w t).
Proof.
  split.
  - intros ->. by apply (run_same_path o None).
  - intros t Hfile Ht Hopen.
    destruct (file_given file) eqn:Hgiven.
    + destruct o; simpl.
      * destruct Hopen as (c & ms & Hc & Hms).
        rewrite read_eq, Ht.
        erewrite with_ZipFile_rebinds;
          [|done|by apply (ZipFile_open_read t w c ms)|apply read_handler_same_path]. done.
      * rewrite write_eq, Ht, with_semaphore_path.
        destruct (Hopen) as [(m & Hm & Hcheck) _].
        destruct (compression_defined (cls i)) as [_ [l Hl]].
        rewrite (write_body_eq file t (on_env (emit EvAcquire) (State i w)) m l Hm Hl).
        destruct (ZipFile_open_write i t (emit EvAcquire w) m (Some l)) as (w' & Ho & _);
          [exact Hopen|done|].
        erewrite with_ZipFile_rebinds; [|done|exact Ho|apply write_contents_same_path].
        done.
    + pose proof (run_same_path o file Hgiven (State i w)) as Hsame.
      unfold same_path in Hsame. simpl in Hsame. rewrite Hsame.
      apply file_or_path_not_given in Ht as (q & -> & ->); done.
Qed.
End PathProps.

(** C10 on a bound container: written to an in-memory stream, read from a path. *)
Lemma file_argument_rebinds_path_witness :
  path (self (@run Reference.externals Writing (Some (FileObj 0))
                   (State Examples.a_bound_container Examples.stream_world)).2) = None
  ∧ path (self (@run Reference.externals Reading (Some (Path "future.zip"))
                     (State Examples.a_bound_container Examples.future_world)).2)
    = Some "future.zip".
Proof.
  split.
  - apply (proj2 (@file_argument_rebinds_path Reference.externals Writing
                    (Some (FileObj 0)) Examples.a_bound_container Examples.stream_world)
                 (FileObj 0)); [done|reflexivity|].
    split; [exists 8%Z; split; reflexivity|eexists; reflexivity].
  - apply (proj2 (@file_argument_rebinds_path Reference.externals Reading
                    (Some (Path "future.zip")) Examples.a_bound_container
                    Examples.future_world)
                 (Path "future.zip")); [done|reflexivity|].
    eexists _, _. split; reflexivity.
Defined.

(** ** What a successful write leaves behind *)

Lemma store_frame t c w :
  unwritable (store t c w) = unwritable w ∧ source_data (store t c w) = source_data w
  ∧ patch_types (store t c w) = patch_types w ∧ file_endings (store t c w) = file_endings w
  ∧ log (store t c w) = log w.
Proof. unfold store. destruct t as [p|id]; [done|]. by destruct (streams w !! id) as [[]|]. Qed.

Lemma written_at_refl t w : written_at t w w.
Proof. by repeat split. Qed.

Lemma written_at_trans t w1 w2 w3 :
  written_at t w1 w2 → written_at t w2 w3 → written_at t w1 w3.
Proof.
  intros (Hf & Hs & Hn & Hd & Hu & Hp & He) (Hf' & Hs' & Hn' & Hd' & Hu' & Hp' & He').
  split; [|split; [|split; [|split; [|repeat split; congruence]]]].
  - intros q Hq. rewrite Hf' by (by rewrite Hd). by apply Hf.
  - intros id Hid. rewrite Hs' by done. by apply Hs.
  - intros id. by rewrite Hn'.
  - intros t'. by rewrite Hd'.
Qed.

(** A world that differs in the cache and the log only. *)
Lemma written_at_kept t w w' :
  files w' = files w → streams w' = streams w → unwritable w' = unwritable w →
  patch_types w' = patch_types w → file_endings w' = file_endings w →
  written_at t w w'.
Proof.
  intros Hf Hs Hu Hp He. unfold written_at, disk_of. rewrite Hf, Hs.
  by repeat split.
Qed.

Lemma store_written_at t c w : written_at t w (store t c w).
Proof.
  unfold written_at, store, disk_of. destruct t as [p|id].
  - simpl. repeat split; try done. intros q Hq. apply lookup_insert_ne. congruence.
  - destruct (streams w !! id) as [[name d|p]|] eqn:Hs; simpl.
    + repeat split; try done.
      * intros id' Hid'. apply lookup_insert_ne. congruence.
      * intros id'. destruct (decide (id = id')) as [<-|Hne].
        -- by rewrite lookup_insert_eq, Hs.
        -- by rewrite lookup_insert_ne.
      * intros [q|id']; [done|]. destruct (decide (id = id')) as [<-|Hne].
        -- by rewrite lookup_insert_eq, Hs.
        -- by rewrite lookup_insert_ne.
    + repeat split; try done. intros q Hq. apply lookup_insert_ne. congruence.
    + by repeat split.
Qed.

(** [t] can be written to: a path always, a file-like object when it is
    there. *)
Lemma store_content t c w :
  match t with
  | Path _ => True
  | FileObj id => is_Some (streams w !! id)
  end →
  content_of (store t c w) t = Some c.
Proof.
  unfold store, content_of. destruct t as [p|id]; simpl.
  - intros _. apply lookup_insert_eq.
  - intros [[name d|p] Hs]; rewrite Hs; simpl.
    + by rewrite lookup_insert_eq.
    + rewrite Hs. simpl. apply lookup_insert_eq.
Qed.

Lemma store_files_at t c w q : disk_of w t = Some q → files (store t c w) !! q = Some c.
Proof.
  unfold store, disk_of. destruct t as [p|id].
  - intros [= <-]. apply lookup_insert_eq.
  - destruct (streams w !! id) as [[name d|p]|]; [done| |done].
    intros [= <-]. apply lookup_insert_eq.
Qed.

Lemma written_at_is_Some t w w' id :
  written_at t w w' → is_Some (streams w !! id) → is_Some (streams w' !! id).
Proof.
  intros (_ & _ & Hn & _) Hs. apply (fmap_is_Some s_name). rewrite Hn.
  by apply fmap_is_Some.
Qed.

Lemma written_at_filename t w w' t' : written_at t w w' → filename_of w' t' = filename_of w t'.
Proof.
  intros (_ & _ & Hn & _). destruct t' as [p|id]; [done|]. simpl.
  specialize (Hn id). destruct (streams w' !! id), (streams w !! id); simpl in *; congruence.
Qed.

Section WriteProps.
Context `{!Externals}.

Lemma get_manifest_eq s : get_manifest s = ((get_manifest s).1, s).
Proof. rewrite <- (get_manifest_pure s) at 3. by destruct (get_manifest s). Qed.

(** The manifest depends on the class and on the three fields only. *)
Lemma get_manifest_fields i i' w w' :
  cls i' = cls i → player i' = player i → player_name i' = player_name i →
  server i' = server i →
  (get_manifest (State i' w')).1 = (get_manifest (State i w)).1.
Proof.
  destruct i, i'. simpl. intros -> -> -> ->. run_manifest.
  match goal with |- context [kind_of ?c] => destruct (kind_of c) end; simpl;
    repeat (match goal with |- context [class_attr ?f ?c] => destruct (class_attr f c) end;
            simpl);
    reflexivity.
Qed.

Lemma class_keys_head c : ∃ rest, class_keys c = class_key c :: rest.
Proof. destruct c as [[]|]; simpl; eauto. Qed.

(** The cache touches nothing but itself and the log, and what it returns
    is what the class has cached from then on. *)
Lemma get_source_data_with_cache_env c w :
  let '(r, w') := get_source_data_with_cache c w in
  files w' = files w ∧ streams w' = streams w ∧ unwritable w' = unwritable w
  ∧ patch_types w' = patch_types w ∧ file_endings w' = file_endings w
  ∧ ∀ b, r = Ok b → cached_source_data (source_data w') c = Some b.
Proof.
  unfold get_source_data_with_cache.
  destruct (kind_of c); try by (repeat split; intros b [=]).
  destruct (cached_source_data (source_data w) c) as [b0|] eqn:Hc.
  { repeat split. by intros b [= <-]. }
  destruct (class_attr b_get_source_data c) as [g|]; [|by (repeat split; intros b [=])].
  destruct (g (files w)) as [b0|e]; [|by (repeat split; intros b [=])].
  repeat split. intros b [= <-]. simpl.
  destruct (class_keys_head c) as [rest Hk]. unfold cached_source_data. rewrite Hk. simpl.
  by rewrite lookup_insert_eq.
Qed.

(** The manifest member of an archive. *)
Lemma APContainer_write_contents_inv z s zs' :
  APContainer_write_contents (ZState z s) = (Ok tt, zs') →
  ∃ manifest text,
    (get_manifest s).1 = Ok manifest
    ∧ json_dumps (PDict manifest) = Ok text
    ∧ zf_mode z = ModeW ∧ zf_writing z = false
    ∧ zs' = ZState
              (add_member (ZEntry "archipelago.json" (list_byte_of_string text)
                                  (zf_compression z) (default 0%Z (zf_compresslevel z))) z)
              (on_env (store (zf_file z)
                             (Raw (zip_partial
                                     (zf_members z
                                      ++ [ZEntry "archipelago.json" (list_byte_of_string text)
                                                 (zf_compression z)
                                                 (default 0%Z (zf_compresslevel z))])
                                     None)))
                      s).
Proof.
  unfold APContainer_write_contents, bind, in_st, zoom. simpl.
  rewrite (get_manifest_eq s). simpl.
  destruct (get_manifest s).1 as [manifest|e]; [|done].
  destruct (json_dumps (PDict manifest)) as [text|e] eqn:Hj; [|done].
  unfold writestr. simpl. destruct (zf_mode z); [done|]. destruct (zf_writing z); [done|].
  destruct (compressor_error _ _); [done|].
  intros [= <-]. by exists manifest, text.
Qed.

Lemma compressor_error_stored l : compressor_error ZIP_STORED l = None.
Proof. by destruct l. Qed.
End WriteProps.

Section WriteInv.
Context `{!Externals}.

Lemma ZipFile_open_write_inv t m l w z w1 :
  ZipFile_open t ModeW m l w = (Ok z, w1) →
  z = ZipFile t (filename_of w t) ModeW m l [] false
  ∧ written_at t w w1 ∧ source_data w1 = source_data w
  ∧ match t with
    | Path p => True
    | FileObj id => is_Some (streams w !! id)
    end.
Proof.
  unfold ZipFile_open. destruct (check_compression m); [|done].
  destruct t as [p|id]; simpl.
  - case_decide; [done|]. intros [= <- <-]. split; [done|]. split; [|done].
    apply (written_at_trans _ _ (emit (EvZipOpen ModeW (Path p)) w));
      [by apply written_at_kept|].
    apply (store_written_at (Path p) (Raw [])).
  - destruct (streams w !! id) as [s|] eqn:Hs; simpl; [|done].
    intros [= <- <-]. simpl. split; [done|]. split; [by apply written_at_kept|]. eauto.
Qed.

(** The members a successful [write_contents] adds to an archive, and the
    bytes of [patched_path] the delta was made from: those of the file as it
    was, unless it is the very file the archive is written to, which by then
    holds what [zipfile] has put there. *)
Lemma write_contents_inv z s zs' :
  write_contents (ZState z s) = (Ok tt, zs') →
  ∃ manifest text extra w',
    (get_manifest s).1 = Ok manifest
    ∧ json_dumps (PDict manifest) = Ok text
    ∧ zf_file (zf zs') = zf_file z ∧ zf_mode (zf zs') = ModeW ∧ zf_writing (zf zs') = false
    ∧ zf_members (zf zs')
      = (zf_members z
         ++ ZEntry "archipelago.json" (list_byte_of_string text) (zf_compression z)
                   (default 0%Z (zf_compresslevel z)) :: extra)%list
    ∧ st zs' = State (self s) w'
    ∧ written_at (zf_file z) (env s) w'
    ∧ match kind_of (cls (self s)) with
      | APDeltaPatch =>
          ∃ src patched,
            extra = [ZEntry "delta.bsdiff4" (bsdiff4_diff src patched) ZIP_STORED
                            (default 0%Z (zf_compresslevel z))]
            ∧ cached_source_data (source_data w') (cls (self s)) = Some src
            ∧ (if decide (disk_of (env s) (zf_file z) = Some (patched_path (self s)))
               then patched
                    = zip_partial
                        (zf_members z
                         ++ [ZEntry "archipelago.json" (list_byte_of_string text)
                                    (zf_compression z) (default 0%Z (zf_compresslevel z))])
                        None
               else ∃ c, files (env s) !! patched_path (self s) = Some c
                         ∧ patched = content_bytes c)
      | _ => extra = []
      end.
Proof.
  unfold write_contents, bind at 1, in_st at 1, zoom, gets. simpl.
  assert (∀ zs1, APContainer_write_contents (ZState z s) = (Ok tt, zs1) →
            ∃ manifest text,
              (get_manifest s).1 = Ok manifest
              ∧ json_dumps (PDict manifest) = Ok text
              ∧ zf_file (zf zs1) = zf_file z ∧ zf_mode (zf zs1) = ModeW
              ∧ zf_writing (zf zs1) = false
              ∧ zf_compresslevel (zf zs1) = zf_compresslevel z
              ∧ zf_members (zf zs1)
                = (zf_members z
                   ++ [ZEntry "archipelago.json" (list_byte_of_string text) (zf_compression z)
                              (default 0%Z (zf_compresslevel z))])%list
              ∧ st zs1
                = State (self s)
                    (store (zf_file z)
                       (Raw (zip_partial
                               (zf_members z
                                ++ [ZEntry "archipelago.json" (list_byte_of_string text)
                                           (zf_compression z)
                                           (default 0%Z (zf_compresslevel z))])
                               None))
                       (env s))) as Hplain.
  { intros zs1 (manifest & text & Hm & Hj & Hmode & Hwr & ->)%APContainer_write_contents_inv.
    exists manifest, text. simpl. by repeat split. }
  destruct (kind_of (cls (self s))) eqn:Hk.
  1-3: intros (manifest & text & Hm & Hj & Hf & Hmode & Hwr & _ & Hmem & Hst)%Hplain;
       eexists manifest, text, [], _;
       (split; [done|]); (split; [done|]); (split; [done|]); (split; [done|]);
       (split; [done|]); (split; [exact Hmem|]);
       (split; [exact Hst|]); (split; [apply store_written_at|done]).
  unfold APDeltaPatch_write_contents. unfold bind at 1.
  destruct (APContainer_write_contents (ZState z s)) as [[[]|e] zs1] eqn:HC; [|done].
  destruct (Hplain zs1 eq_refl)
    as (manifest & text & Hm & Hj & Hf & Hmode & Hwr & Hlev & Hmem & Hst).
  destruct zs1 as [z1 s1]. simpl in *. subst s1.
  unfold bind, in_st, in_env, zoom, gets. simpl.
  match goal with |- context [get_source_data_with_cache ?c ?w0] =>
    pose proof (get_source_data_with_cache_env c w0) as Hg;
    destruct (get_source_data_with_cache c w0) as [[src|e] w2]; [|done]
  end.
  destruct Hg as (Hf2 & Hs2 & Hu2 & Hp2 & He2 & Hcached). simpl.
  unfold read_file. simpl. rewrite Hf2.
  match goal with |- context [files ?w0 !! patched_path (self s)] =>
    destruct (files w0 !! patched_path (self s)) as [c|] eqn:Hc; [|done]
  end.
  destruct (str_truthy (patched_path (self s))); [|done]. simpl.
  unfold writestr. simpl. rewrite Hmode, Hwr, compressor_error_stored. simpl.
  intros [= <-]. simpl.
  eexists manifest, text, _, _.
  split; [done|]. split; [done|]. split; [done|]. split; [done|]. split; [done|].
  split; [rewrite Hmem, <- app_assoc; reflexivity|].
  split; [reflexivity|]. split.
  - rewrite Hf. eapply written_at_trans; [|apply store_written_at].
    eapply written_at_trans; [apply store_written_at|].
    by apply written_at_kept.
  - exists src, (content_bytes c). rewrite Hlev. split; [done|]. split.
    + rewrite (proj1 (proj2 (store_frame _ _ _))). simpl. by apply Hcached.
    + case_decide as Hd.
      * rewrite (store_files_at _ _ _ _ Hd) in Hc. by injection Hc as <-.
      * rewrite (proj1 (store_written_at _ _ _)) in Hc by done. eauto.
Qed.

(** What a successful [write] leaves at its destination. *)
Lemma write_inv file i w s1 dest :
  write file (State i w) = (Ok tt, s1) →
  file_or_path file (path i) = Some dest →
  ∃ manifest text m l extra,
    (get_manifest (State i w)).1 = Ok manifest
    ∧ json_dumps (PDict manifest) = Ok text
    ∧ class_attr b_compression_method (cls i) = Some m
    ∧ class_attr b_compression_level (cls i) = Some l
    ∧ content_of (env s1) dest
      = Some (Archive (ZEntry "archipelago.json" (list_byte_of_string text) m l :: extra))
    ∧ self s1 = (if file_given file then set_path (filename_of w dest) i else i)
    ∧ written_at dest w (env s1)
    ∧ match kind_of (cls i) with
      | APDeltaPatch =>
          ∃ src patched,
            extra = [ZEntry "delta.bsdiff4" (bsdiff4_diff src patched) ZIP_STORED l]
            ∧ cached_source_data (source_data (env s1)) (cls i) = Some src
            ∧ (if decide (disk_of w dest = Some (patched_path i))
               then patched
                    = zip_partial [ZEntry "archipelago.json" (list_byte_of_string text) m l]
                                  None
               else ∃ c, files w !! patched_path i = Some c ∧ patched = content_bytes c)
      | _ => extra = []
      end.
Proof.
  intros Hw Hdest. rewrite write_eq, Hdest in Hw.
  destruct (compression_defined (cls i)) as [[m Hm] [l Hl]].
  unfold with_semaphore, bind at 1, modify, finally in Hw. simpl in Hw.
  rewrite (write_body_eq file dest (on_env (emit EvAcquire) (State i w)) m l Hm Hl) in Hw.
  unfold with_ZipFile in Hw. simpl in Hw.
  destruct (ZipFile_open dest ModeW m (Some l) (emit EvAcquire w)) as [[z|e] w1] eqn:Ho;
    [|by injection Hw].
  apply ZipFile_open_write_inv in Ho as (-> & Hopen & Hsd & Hvalid).
  assert (written_at dest w w1) as Hopen'.
  { eapply written_at_trans; [|exact Hopen]. by apply written_at_kept. }
  clear Hopen. simpl in Hvalid.
  unfold bind at 1, rebind_path in Hw.
  assert (file_given file = true ∨ file_given file = false) as [Hgiven|Hgiven]
    by (destruct (file_given file); auto).
  all: rewrite Hgiven in Hw |- *; unfold modify, ret in Hw; simpl in Hw.
  all: match type of Hw with context [write_contents ?zs] =>
         destruct (write_contents zs) as [[[]|e] zs'] eqn:HW;
           [|by destruct (ZipFile_close _ _) as [[[]|?] ?]]
       end.
  all: apply write_contents_inv in HW
      as (manifest & text & extra & w' & Hman & Hj & Hfile & Hmode & Hwr & Hmem & Hst'
          & Hat & Hk);
    simpl in Hmem, Hk, Hman, Hfile, Hat, Hst';
    unfold ZipFile_close in Hw; rewrite Hmode, Hwr, Hfile, Hmem, Hst' in Hw; simpl in Hw;
    injection Hw as <-;
    exists manifest, text, m, l, extra;
    (split; [by rewrite <- Hman; symmetry; apply get_manifest_fields|]);
    (split; [done|]); (split; [done|]); (split; [done|]).
  all: assert (written_at dest w w') as Hat'
      by (eapply written_at_trans; [exact Hopen'|exact Hat]).
  all: split;
    [apply store_content; destruct dest as [q|id]; [done|];
     apply (written_at_is_Some _ _ _ _ Hat'), Hvalid|].
  all: simpl; split; [reflexivity|].
  all: split; [eapply written_at_trans;
                 [exact Hat'
                 |eapply written_at_trans; [apply store_written_at|by apply written_at_kept]]|].
  all: destruct (kind_of (cls i)); try done.
  all: destruct Hk as (src & patched & -> & Hsrc & Hp); exists src, patched;
    (split; [done|]);
    (split; [by rewrite (proj1 (proj2 (store_frame _ _ _)))|]).
  all: destruct Hopen' as (Hf1 & _ & _ & Hd1 & _); rewrite Hd1 in Hp.
  all: case_decide as Hd; [exact Hp|].
  all: destruct Hp as (c & Hc & ->); exists c; (split; [|done]).
  all: by rewrite <- Hf1.
Qed.
End WriteInv.

(** ** Reading back *)

Section RoundTrip.
Context `{!Externals}.

Lemma file_or_path_given file p t :
  file_or_path file p = Some t → file_given (Some t) = true.
Proof.
  unfold file_or_path. destruct (file_given file) eqn:Hg.
  - by intros ->.
  - destruct p as [q|]; [|done]. destruct (str_truthy q) eqn:Hq; [|done].
    by intros [= <-].
Qed.

Lemma file_or_path_explicit t p :
  file_given (Some t) = true → file_or_path (Some t) p = Some t.
Proof. unfold file_or_path. by intros ->. Qed.

(** The entries every manifest has. *)
Lemma get_manifest_entries s manifest :
  (get_manifest s).1 = Ok manifest →
  dict_get "player" manifest = Some (player (self s))
  ∧ dict_get "server" manifest = Some (server (self s))
  ∧ dict_get "player_name" manifest = Some (player_name (self s))
  ∧ ∃ cv, dict_get "compatible_version" manifest = Some (PInt cv) ∧ (cv ≤ container_version)%Z.
Proof.
  destruct s as [i w]. run_manifest.
  destruct (kind_of (cls i)); simpl;
    repeat (match goal with |- context [class_attr ?f ?c] => destruct (class_attr f c) end;
            simpl);
    intros [= <-]; (repeat split; try reflexivity); eexists; (split; [reflexivity|done]).
Qed.

(** [read_contents] on an archive whose manifest passes the version gate. *)
Lemma APContainer_read_contents_ok z s f manifest cv v p sv n :
  zip_member "archipelago.json" (zf_members z) = Some f →
  json_load (z_data f) = Ok manifest →
  getitem manifest "compatible_version" = Ok cv →
  class_attr b_version (cls (self s)) = Some v →
  py_gt cv v = Ok false →
  getitem manifest "player" = Ok p →
  getitem manifest "server" = Ok sv →
  getitem manifest "player_name" = Ok n →
  APContainer_read_contents (ZState z s)
  = (Ok tt, ZState z (on_self (λ i, set_player_name n (set_server sv (set_player p i))) s)).
Proof.
  intros Hf Hj Hcv Hv Hgt Hp Hs Hn.
  unfold APContainer_read_contents, bind, zf_read, lift_result, in_st, zoom, self_attr, getattr,
    modify.
  simpl. rewrite Hf, Hj, Hcv. destruct s as [i w]. simpl in *. rewrite Hv, Hgt. simpl.
  by rewrite Hp, Hs, Hn.
Qed.

Lemma read_ok file i w t c ms f manifest cv v p sv n :
  file_or_path file (path i) = Some t →
  content_of w t = Some c →
  archive_members c = Some ms →
  zip_member "archipelago.json" ms = Some f →
  json_load (z_data f) = Ok manifest →
  getitem manifest "compatible_version" = Ok cv →
  class_attr b_version (cls i) = Some v →
  py_gt cv v = Ok false →
  getitem manifest "player" = Ok p →
  getitem manifest "server" = Ok sv →
  getitem manifest "player_name" = Ok n →
  (kind_of (cls i) = APDeltaPatch → is_Some (zip_member "delta.bsdiff4" ms)) →
  read file (State i w)
  = (Ok tt,
     State (after_read i (if file_given file then filename_of w t else path i) p n sv
              (match kind_of (cls i) with
               | APDeltaPatch => z_data <$> zip_member "delta.bsdiff4" ms
               | _ => delta i
               end))
           (emit (EvZipOpen ModeR t) w)).
Proof.
  intros Ht Hc Hms Hf Hj Hcv Hv Hgt Hp Hs Hn Hd.
  rewrite read_eq, Ht. unfold with_ZipFile. simpl.
  rewrite (ZipFile_open_read t w c ms Hc Hms).
  unfold bind at 1, rebind_path, try_except, read_contents, APDeltaPatch_read_contents.
  destruct (file_given file); unfold modify, ret; simpl.
  all: unfold bind at 1, in_st at 1, zoom, gets; simpl.
  all: destruct (kind_of (cls i)) eqn:Hk; try unfold bind at 1.
  all: erewrite APContainer_read_contents_ok by (simpl; eauto); simpl.
  all: try (destruct i; reflexivity).
  all: destruct Hd as [d Hd]; [done|].
  all: unfold bind, zf_read, in_st, zoom, modify; simpl; rewrite Hd; simpl.
  all: destruct i; reflexivity.
Qed.
End RoundTrip.

Section WriteRead.
Context `{!Externals}.

(** Writing, then reading the destination into an instance of the same class. *)
Lemma write_then_read file i w s1 dest v reader :
  write file (State i w) = (Ok tt, s1) →
  file_or_path file (path i) = Some dest →
  class_attr b_version (cls i) = Some v →
  (container_version ≤ v)%Z →
  manifest_survives_json i w →
  cls reader = cls i →
  ∃ member l extra,
    class_attr b_compression_level (cls i) = Some l
    ∧ content_of (env s1) dest = Some (Archive (member :: extra))
    ∧ match kind_of (cls i) with
      | APDeltaPatch =>
          ∃ src patched,
            extra = [ZEntry "delta.bsdiff4" (bsdiff4_diff src patched) ZIP_STORED l]
            ∧ cached_source_data (source_data (env s1)) (cls i) = Some src
            ∧ (if decide (disk_of w dest = Some (patched_path i))
               then patched = zip_partial [member] None
               else ∃ c, files w !! patched_path i = Some c ∧ patched = content_bytes c)
      | _ => extra = []
      end
    ∧ read (Some dest) (State reader (env s1))
      = (Ok tt,
         State (after_read reader (filename_of (env s1) dest)
                           (player i) (player_name i) (server i)
                           (match kind_of (cls i) with
                            | APDeltaPatch => z_data <$> head extra
                            | _ => delta reader
                            end))
               (emit (EvZipOpen ModeR dest) (env s1))).
Proof.
  intros Hw Hdest Hv Hle Hjson Hcls.
  pose proof (file_or_path_given _ _ _ Hdest) as Hgiven.
  destruct (write_inv file i w s1 dest Hw Hdest)
    as (manifest & text & m & l & extra & Hman & Hj & Hm & Hl & Hcontent & Hself & _ & Hextra).
  specialize (Hjson manifest text Hman Hj).
  destruct (get_manifest_entries _ _ Hman) as (Hp & Hs & Hn & cv & Hcv & Hcvle).
  simpl in Hp, Hs, Hn.
  eexists _, l, extra. split; [done|]. split; [exact Hcontent|]. split; [exact Hextra|].
  assert (zip_member "archipelago.json"
            (ZEntry "archipelago.json" (list_byte_of_string text) m l :: extra)
          = Some (ZEntry "archipelago.json" (list_byte_of_string text) m l)) as Hmember.
  { destruct (kind_of (cls i)); try (by rewrite Hextra).
    by destruct Hextra as (src & c & -> & _). }
  erewrite (read_ok (Some dest) reader (env s1) dest _ _ _ (PDict manifest) (PInt cv) v);
    [|by apply file_or_path_explicit|exact Hcontent|reflexivity|exact Hmember|exact Hjson
     |simpl; by rewrite Hcv|by rewrite Hcls
     |simpl; f_equal; apply Z.ltb_ge; lia
     |simpl; by rewrite Hp|simpl; by rewrite Hs|simpl; by rewrite Hn|].
  - rewrite Hgiven, Hcls. f_equal. f_equal. f_equal.
    destruct (kind_of (cls i)); try done.
    by destruct Hextra as (src & c & -> & _).
  - rewrite Hcls. intros Hk. rewrite Hk in Hextra.
    destruct Hextra as (src & c & -> & _). by eexists.
Qed.

(** C3: a container that has been written is read back, by an instance of
    its class, with the [player], [player_name] and [server] it was written
    with.  The JSON codec is taken to give back the manifest it encoded, and
    the class to have the module's [version] or a later one. *)
Theorem container_round_trip file i w s1 dest v reader :
  write file (State i w) = (Ok tt, s1) →
  file_or_path file (path i) = Some dest →
  class_attr b_version (cls i) = Some v →
  (container_version ≤ v)%Z →
  manifest_survives_json i w →
  cls reader = cls i →
  ∃ s2, read (Some dest) (State reader (env s1)) = (Ok tt, s2)
        ∧ player (self s2) = player i
        ∧ player_name (self s2) = player_name i
        ∧ server (self s2) = server i.
Proof.
  intros Hw Hdest Hv Hle Hjson Hcls.
  destruct (write_then_read file i w s1 dest v reader Hw Hdest Hv Hle Hjson Hcls)
    as (member & l & extra & _ & _ & _ & Hread).
  eexists. split; [exact Hread|]. done.
Qed.

(** C6, amended: a delta patch that has been written has its delta in the
    member [delta.bsdiff4] of the archive, stored without compression, and
    [read] takes the delta from the member of that name.  The delta is the
    diff of the cached base data and of the bytes [open(patched_path)] gave
    while the archive was written: those of the file [patched_path] as it
    was before the write, unless the archive is written to that very file,
    which by then holds what [zipfile] has put there, the manifest member. *)
Theorem delta_member_round_trip file i w s1 dest v reader :
  kind_of (cls i) = APDeltaPatch →
  write file (State i w) = (Ok tt, s1) →
  file_or_path file (path i) = Some dest →
  class_attr b_version (cls i) = Some v →
  (container_version ≤ v)%Z →
  manifest_survives_json i w →
  cls reader = cls i →
  ∃ member src patched l,
    content_of (env s1) dest
    = Some (Archive [member;
                     ZEntry "delta.bsdiff4" (bsdiff4_diff src patched) ZIP_STORED l])
    ∧ z_name member = "archipelago.json"
    ∧ cached_source_data (source_data (env s1)) (cls i) = Some src
    ∧ (if decide (disk_of w dest = Some (patched_path i))
       then patched = zip_partial [member] None
       else ∃ c, files w !! patched_path i = Some c ∧ patched = content_bytes c)
    ∧ ∃ s2, read (Some dest) (State reader (env s1)) = (Ok tt, s2)
            ∧ delta (self s2) = Some (bsdiff4_diff src patched).
Proof.
  intros Hk Hw Hdest Hv Hle Hjson Hcls.
  destruct (write_inv file i w s1 dest Hw Hdest)
    as (manifest & text & m & l0 & extra0 & _ & _ & _ & Hl0 & Hcontent0 & _).
  destruct (write_then_read file i w s1 dest v reader Hw Hdest Hv Hle Hjson Hcls)
    as (member & l & extra & Hl & Hcontent & Hextra & Hread).
  rewrite Hcontent0 in Hcontent. injection Hcontent as <- <-.
  rewrite Hk in Hextra, Hread. destruct Hextra as (src & patched & -> & Hsrc & Hc).
  eexists _, src, patched, l. split; [exact Hcontent0|]. split; [done|].
  split; [exact Hsrc|]. split; [exact Hc|]. eexists. split; [exact Hread|]. done.
Qed.
End WriteRead.

(** C3 on the example container, written to [out.zip] and read back. *)
Lemma container_round_trip_witness :
  ∃ s2, @read Reference.externals (Some (Path "out.zip"))
              (State Examples.a_reader (env Examples.written_container)) = (Ok tt, s2)
        ∧ player (self s2) = PInt 3
        ∧ player_name (self s2) = PStr "Alice"
        ∧ server (self s2) = PStr "archipelago.gg:38281".
Proof.
  apply (@container_round_trip Reference.externals (Some (Path "out.zip"))
           Examples.a_container Examples.empty_world Examples.written_container
           (Path "out.zip") 6%Z Examples.a_reader).
  - vm_compute. reflexivity.
  - reflexivity.
  - reflexivity.
  - done.
  - intros manifest text Hman Hj. vm_compute in Hman. injection Hman as <-.
    vm_compute in Hj. injection Hj as <-. vm_compute. reflexivity.
  - reflexivity.
Defined.

(** C6, as stated, fails: the archive a delta patch writes has no member
    [delta.bin]; the delta is in the member [delta.bsdiff4], and an archive
    that has it under [delta.bin] cannot be read. *)
Lemma delta_member_is_not_delta_bin :
  ∃ ms e,
    content_of (env Examples.written_patch) (Path "AP_1.apgame") = Some (Archive ms)
    ∧ zip_member "delta.bin" ms = None
    ∧ zip_member "delta.bsdiff4" ms = Some e
    ∧ z_method e = ZIP_STORED
    ∧ (@read Reference.externals (Some (Path "AP_1.apgame"))
             (State Examples.a_patch_reader Examples.renamed_world)).1
      = Raise (invalid_data
                 (Exn KeyError
                      [PStr "There is no item named 'delta.bsdiff4' in the archive"] None)).
Proof.
  eexists _, _. split; [vm_compute; reflexivity|].
  split; [reflexivity|]. split; [reflexivity|]. split; [reflexivity|].
  vm_compute. reflexivity.
Qed.

(** C6 on the example delta patch, written to [AP_1.apgame] and read back. *)
Lemma delta_member_round_trip_witness :
  ∃ member src patched l,
    content_of (env Examples.written_patch) (Path "AP_1.apgame")
    = Some (Archive [member;
                     ZEntry "delta.bsdiff4" (Reference.diff src patched) ZIP_STORED l])
    ∧ z_name member = "archipelago.json"
    ∧ cached_source_data (source_data (env Examples.written_patch)) Examples.GamePatch
      = Some src
    ∧ (if decide (disk_of Examples.rom_world (Path "AP_1.apgame") = Some "patched.rom")
       then patched = Reference.partial [member] None
       else ∃ c, files Examples.rom_world !! "patched.rom" = Some c
                 ∧ patched = @content_bytes Reference.externals c)
    ∧ ∃ s2, @read Reference.externals (Some (Path "AP_1.apgame"))
                  (State Examples.a_patch_reader (env Examples.written_patch)) = (Ok tt, s2)
            ∧ delta (self s2) = Some (Reference.diff src patched).
Proof.
  apply (@delta_member_round_trip Reference.externals None Examples.a_delta_patch
           Examples.rom_world Examples.written_patch (Path "AP_1.apgame") 6%Z
           Examples.a_patch_reader).
  - reflexivity.
  - vm_compute. reflexivity.
  - reflexivity.
  - reflexivity.
  - done.
  - intros manifest text Hman Hj. vm_compute in Hman. injection Hman as <-.
    vm_compute in Hj. injection Hj as <-. vm_compute. reflexivity.
  - reflexivity.
Defined.

(** Beside C6: the example patch written to [patched.rom] itself.  The file
    was truncated when the archive was opened and holds the manifest member
    by the time it is read: the delta is the diff against those bytes, not
    against the patched ROM and not against an empty file. *)
Lemma delta_of_the_destination_itself :
  ∃ s1 member d l,
    @write Reference.externals (Some (Path "patched.rom"))
           (State Examples.a_delta_patch Examples.rom_world) = (Ok tt, s1)
    ∧ content_of (env s1) (Path "patched.rom")
      = Some (Archive [member; ZEntry "delta.bsdiff4" d ZIP_STORED l])
    ∧ d = Reference.diff Examples.base_rom (Reference.partial [member] None)
    ∧ d ≠ Reference.diff Examples.base_rom Examples.patched_rom
    ∧ d ≠ Reference.diff Examples.base_rom [].
Proof.
  eexists _, _, _, _. split; [vm_compute; reflexivity|].
  split; [vm_compute; reflexivity|]. split; [vm_compute; reflexivity|].
  split; vm_compute; discriminate.
Qed.

(** ** patch *)

Section PatchProps.
Context `{!Externals}.

Lemma no_delta_spec i :
  no_delta i = match delta i with Some (_ :: _) => false | _ => true end.
Proof. unfold no_delta. by destruct (delta i) as [[|b d]|]. Qed.

(** [patch], step by step. *)
Lemma patch_eq target i w :
  patch target (State i w) =
  match before_applying i w with
  | (Raise e, s') => (Raise e, s')
  | (Ok _, s') =>
      match get_source_data_with_cache (cls (self s')) (env s') with
      | (Raise e, w1) => (Raise e, State (self s') w1)
      | (Ok src, w1) =>
          match delta (self s') with
          | None =>
              (Raise (Exn TypeError
                        [PStr "a bytes-like object is required, not 'NoneType'"] None),
               State (self s') w1)
          | Some d =>
              match bsdiff4_patch src d with
              | Raise e => (Raise e, State (self s') w1)
              | Ok r => let '(res, w2) := write_file target r w1 in (res, State (self s') w2)
              end
          end
      end
  end.
Proof.
  unfold patch, before_applying, bind at 1, gets at 1. simpl. rewrite no_delta_spec.
  unfold bind at 1.
  assert (∀ s', (i0 <- gets self;;
                 source <- in_env (get_source_data_with_cache (cls i0));;
                 match delta i0 with
                 | Some d => result <- lift_result (bsdiff4_patch source d);;
                             in_env (write_file target result)
                 | None => raise (Exn TypeError
                             [PStr "a bytes-like object is required, not 'NoneType'"] None)
                 end) s'
               = match get_source_data_with_cache (cls (self s')) (env s') with
                 | (Raise e, w1) => (Raise e, State (self s') w1)
                 | (Ok src, w1) =>
                     match delta (self s') with
                     | None =>
                         (Raise (Exn TypeError
                                   [PStr "a bytes-like object is required, not 'NoneType'"]
                                   None), State (self s') w1)
                     | Some d =>
                         match bsdiff4_patch src d with
                         | Raise e => (Raise e, State (self s') w1)
                         | Ok r => let '(res, w2) := write_file target r w1 in
                                   (res, State (self s') w2)
                         end
                     end
                 end) as Hrest.
  { intros s'. unfold bind, gets, in_env, zoom, lift_result, raise. simpl.
    destruct (get_source_data_with_cache _ _) as [[src|e] w1]; [|done]. simpl.
    destruct (delta (self s')) as [d|]; [|done].
    destruct (bsdiff4_patch src d); [|done]. by destruct (write_file _ _ _). }
  destruct (delta i) as [[|b d]|]; simpl.
  - destruct (read None _) as [[[]|e] s']; [apply Hrest|done].
  - apply (Hrest (State i w)).
  - destruct (read None _) as [[[]|e] s']; [apply Hrest|done].
Qed.

(** C2, amended: [patch] performs a full [read()] when no delta is loaded or
    the delta that is loaded is empty, and none when a delta that is not empty
    is loaded (it then opens no archive); a [read()] that fails is the failure
    of [patch]; otherwise [patch] applies the delta now loaded to the cached
    base data and writes exactly the result to [target]. *)
Theorem patch_applies_delta (target : string) (i : instance) (w : world) :
  (∀ e s', before_applying i w = (Raise e, s') → patch target (State i w) = (Raise e, s'))
  ∧ (∀ b d, delta i = Some (b :: d) →
       before_applying i w = (Ok tt, State i w)
       ∧ ∃ evs, log (env (patch target (State i w)).2) = (log w ++ evs)%list
                ∧ ∀ m t, EvZipOpen m t ∉ evs)
  ∧ (∀ i' w' d src w1 r,
       before_applying i w = (Ok tt, State i' w') →
       delta i' = Some d →
       get_source_data_with_cache (cls i') w' = (Ok src, w1) →
       bsdiff4_patch src d = Ok r →
       str_truthy target = true →
       target ∉ unwritable w1 →
       patch target (State i w)
       = (Ok tt, State i' (set_files (insert target (Raw r))
                                     (emit (EvOpen target "wb") w1)))).
Proof.
  split; [|split].
  - intros e s' Hb. by rewrite patch_eq, Hb.
  - intros b d Hd.
    assert (before_applying i w = (Ok tt, State i w)) as Hb
      by (unfold before_applying; by rewrite Hd).
    split; [done|]. rewrite patch_eq, Hb. simpl. rewrite Hd.
    assert (∃ evs1, log (get_source_data_with_cache (cls i) w).2 = (log w ++ evs1)%list
                    ∧ ∀ m t, EvZipOpen m t ∉ evs1) as (evs1 & Hlog1 & Hno1).
    { unfold get_source_data_with_cache.
      destruct (kind_of (cls i)); try (exists []; split; [by rewrite app_nil_r|set_solver]).
      destruct (cached_source_data _ _); [exists []; split; [by rewrite app_nil_r|set_solver]|].
      destruct (class_attr _ _) as [g|]; [|exists []; split; [by rewrite app_nil_r|set_solver]].
      destruct (g (files w)); simpl; eexists [_]; (split; [reflexivity|]);
        intros m t [=]%list_elem_of_singleton. }
    destruct (get_source_data_with_cache (cls i) w) as [[src|e] w1]; simpl in *.
    + destruct (bsdiff4_patch src (b :: d)) as [r|e]; simpl; [|eauto].
      unfold write_file. destruct (negb (str_truthy target)); simpl.
      { exists (evs1 ++ [EvOpen target "wb"])%list. rewrite Hlog1, app_assoc. split; [done|].
        intros m t [?|[=]%list_elem_of_singleton]%elem_of_app. by eapply Hno1. }
      case_decide; simpl.
      all: exists (evs1 ++ [EvOpen target "wb"])%list; rewrite Hlog1, app_assoc; split; [done|].
      all: intros m t [?|[=]%list_elem_of_singleton]%elem_of_app; by eapply Hno1.
    + eauto.
  - intros i' w' d src w1 r Hb Hd Hsrc Hr Ht Hw.
    rewrite patch_eq, Hb. simpl. rewrite Hsrc, Hd, Hr. unfold write_file.
    rewrite Ht. simpl. by rewrite decide_False.
Qed.
End PatchProps.

(** C2 on a patch object that holds the delta of the example archive. *)
Lemma patch_applies_delta_witness :
  @patch Reference.externals "result.rom"
         (State Examples.a_loaded_patch (env Examples.written_patch))
  = (Ok tt,
     State Examples.a_loaded_patch
           (set_files (insert "result.rom" (Raw Examples.patched_rom))
                      (emit (EvOpen "result.rom" "wb") (env Examples.written_patch)))).
Proof.
  apply (proj2 (proj2 (@patch_applies_delta Reference.externals "result.rom"
                         Examples.a_loaded_patch (env Examples.written_patch)))
           Examples.a_loaded_patch (env Examples.written_patch)
           (Reference.diff Examples.base_rom Examples.patched_rom) Examples.base_rom).
  - reflexivity.
  - reflexivity.
  - vm_compute. reflexivity.
  - vm_compute. reflexivity.
  - reflexivity.
  - vm_compute. set_solver.
Defined.

(** C2, as stated, fails: a patch object whose loaded delta is the empty
    byte string reads its file all the same; the archive is opened, the
    delta in memory is replaced by the one of the file, and that one is
    applied. *)
Lemma patch_rereads_empty_delta :
  delta Examples.an_empty_delta_patch = Some []
  ∧ ∃ s',
      @patch Reference.externals "result.rom"
             (State Examples.an_empty_delta_patch (env Examples.written_patch))
      = (Ok tt, s')
      ∧ log (env s')
        = (log (env Examples.written_patch)
           ++ [EvZipOpen ModeR (Path "AP_1.apgame"); EvOpen "result.rom" "wb"])%list
      ∧ delta (self s') = Some (Reference.diff Examples.base_rom Examples.patched_rom)
      ∧ files (env s') !! "result.rom" = Some (Raw Examples.patched_rom).
Proof.
  split; [reflexivity|]. eexists. split; [vm_compute; reflexivity|].
  split; [reflexivity|]. split; [reflexivity|]. vm_compute. reflexivity.
Qed.

(** ** The cache of the base data *)

Lemma kind_name_inj k k' : kind_name k = kind_name k' → k = k'.
Proof. by destruct k, k'. Qed.

Lemma class_key_nonempty c : class_key c ≠ [].
Proof. by destruct c. Qed.

(** The classes a lookup goes through are told by the class's key. *)
Lemma class_keys_inj c c' : class_key c = class_key c' → class_keys c = class_keys c'.
Proof.
  revert c'. induction c as [k|name body base IH]; intros [k'|name' body' base']; simpl.
  - by intros [= ->%kind_name_inj].
  - intros [= _ Hb]. symmetry in Hb. by apply class_key_nonempty in Hb.
  - intros [= _ Hb]. by apply class_key_nonempty in Hb.
  - intros [= -> Hb]. rewrite Hb. f_equal. by apply IH.
Qed.

Lemma kind_mro_suffix k0 k l1 l2 : kind_mro k0 = (l1 ++ k :: l2)%list → kind_mro k = k :: l2.
Proof.
  destruct k0; destruct l1 as [|a1 [|a2 [|a3 [|a4 l]]]]; simpl; intros [=]; subst;
    try reflexivity; try (by destruct l).
Qed.

(** From the place of a class among the ancestors of another on, the two
    look at the same classes. *)
Lemma class_keys_suffix c0 c ks1 ks2 :
  class_keys c0 = (ks1 ++ class_key c :: ks2)%list → class_keys c = class_key c :: ks2.
Proof.
  revert ks1. induction c0 as [k0|name body base IH]; intros ks1; simpl.
  - intros Heq. apply fmap_app_inv in Heq as (l1 & l2' & -> & Hl2 & Hmro).
    symmetry in Hl2.
    apply fmap_cons_inv in Hl2 as (k & l2 & Hk & -> & ->).
    destruct c as [k'|name' body' base']; simpl in *.
    + injection Hk as ->%kind_name_inj. by rewrite (kind_mro_suffix _ _ _ _ Hmro).
    + injection Hk as _ Hb. by apply class_key_nonempty in Hb.
  - destruct ks1 as [|k1 ks1]; simpl.
    + intros [= Hk <-].
      rewrite (class_keys_inj c (Subclass name body base)) by done. simpl. by rewrite Hk.
    + intros [= _ Hb]. by eapply IH.
Qed.

Lemma head_omap_None {A B} (f : A → option B) (l : list A) :
  (∀ x, x ∈ l → f x = None) → head (omap f l) = None.
Proof.
  induction l as [|y l IH]; intros Hl; simpl; [done|].
  rewrite Hl by set_solver. apply IH. intros x Hx. apply Hl. set_solver.
Qed.

Lemma head_omap_Some_inv {A B} (f : A → option B) (l : list A) b :
  head (omap f l) = Some b → ∃ x, x ∈ l ∧ f x = Some b.
Proof.
  induction l as [|y l IH]; simpl; [done|].
  destruct (f y) as [b'|] eqn:Hy; simpl.
  - intros [= ->]. exists y. split; [set_solver|done].
  - intros (x & Hx & Hfx)%IH. exists x. split; [set_solver|done].
Qed.

(** Filling the cache at a key behind which nothing is cached leaves every
    lookup that found something as it was. *)
Lemma head_lookup_insert (cache : gmap (list string) bytes) ks k b b0 :
  head (omap (λ k', cache !! k') ks) = Some b0 →
  (∀ ks1 ks2, ks = (ks1 ++ k :: ks2)%list → ∀ k', k' ∈ k :: ks2 → cache !! k' = None) →
  head (omap (λ k', <[k:=b]> cache !! k') ks) = Some b0.
Proof.
  induction ks as [|k1 ks IH]; [done|]. intros Hhead Hsuffix.
  destruct (decide (k = k1)) as [->|Hne].
  - rewrite head_omap_None in Hhead; [done|].
    intros x Hx. by apply (Hsuffix [] ks).
  - simpl in *. rewrite lookup_insert_ne by done.
    destruct (cache !! k1) as [b1|]; simpl in *; [done|].
    apply IH; [done|]. intros ks1 ks2 -> k' Hk'. by apply (Hsuffix (k1 :: ks1) ks2).
Qed.

Lemma cached_source_data_None cache c k :
  cached_source_data cache c = None → k ∈ class_keys c → cache !! k = None.
Proof.
  unfold cached_source_data. intros Hnone Hk.
  destruct (cache !! k) as [b|] eqn:Hb; [|done].
  destruct (head_omap_is_Some (λ k', cache !! k') (class_keys c) k b Hk Hb) as [b' Hb'].
  congruence.
Qed.

Lemma cached_source_data_insert cache c0 c b b0 :
  cached_source_data cache c0 = Some b0 →
  cached_source_data cache c = None →
  cached_source_data (<[class_key c := b]> cache) c0 = Some b0.
Proof.
  intros H0 Hc. unfold cached_source_data. apply head_lookup_insert; [done|].
  intros ks1 ks2 Heq k' Hk'. apply (cached_source_data_None cache c); [done|].
  by rewrite (class_keys_suffix c0 c ks1 ks2 Heq).
Qed.

#[global] Instance cache_grows_preorder : PreOrder cache_grows.
Proof.
  split.
  - intros w. by split.
  - intros w1 w2 w3 [H12 S12] [H23 S23]. split; eauto.
Qed.

#[global] Instance cache_grows_s_preorder : PreOrder cache_grows_s.
Proof.
  split; [intros s; unfold cache_grows_s; reflexivity|].
  intros s1 s2 s3. unfold cache_grows_s. apply transitivity.
Qed.

#[global] Instance cache_grows_z_preorder : PreOrder cache_grows_z.
Proof.
  split; [intros s; unfold cache_grows_z; reflexivity|].
  intros s1 s2 s3. unfold cache_grows_z. apply transitivity.
Qed.

Lemma quiet_grows w w' : quiet w w' → cache_grows w w'.
Proof.
  intros [Hsd Hlog]. split.
  - by rewrite Hsd.
  - intros Hs k. rewrite Hsd, Hlog. apply Hs.
Qed.

Lemma gsd_returns_snoc k e (evs : list event) :
  gsd_returns k (evs ++ [e])
  = (gsd_returns k evs + if decide (e = EvGetSourceData k true) then 1 else 0)%nat.
Proof.
  unfold gsd_returns. rewrite filter_app, length_app. f_equal.
  rewrite filter_cons, filter_nil. by case_decide.
Qed.

Lemma emit_quiet e w :
  (∀ k, e ≠ EvGetSourceData k true) → quiet w (emit e w).
Proof.
  intros He. split; [done|]. intros k. simpl. rewrite gsd_returns_snoc.
  rewrite decide_False by apply He. lia.
Qed.

Lemma quiet_trans w1 w2 w3 : quiet w1 w2 → quiet w2 w3 → quiet w1 w3.
Proof. intros [H1 L1] [H2 L2]. split; [congruence|]. intros k. by rewrite L2. Qed.

Lemma quiet_refl w : quiet w w.
Proof. by split. Qed.

Lemma store_quiet t c w : quiet w (store t c w).
Proof.
  destruct (store_frame t c w) as (_ & Hsd & _ & _ & Hl). split; [done|].
  intros k. by rewrite Hl.
Qed.

Section CacheProps.
Context `{!Externals}.

(** The cache fills a class's own [source_data] only where the class finds
    none, so that what was found before is found after. *)
Lemma get_source_data_with_cache_grows c :
  preserves cache_grows (get_source_data_with_cache c).
Proof.
  intros w. unfold get_source_data_with_cache.
  destruct (kind_of c); try reflexivity.
  destruct (cached_source_data (source_data w) c) as [b0|] eqn:Hc; [reflexivity|].
  destruct (class_attr b_get_source_data c) as [g|]; [|reflexivity].
  destruct (g (files w)) as [b|e]; simpl.
  - split; simpl.
    + intros c0 b0 H0. by apply cached_source_data_insert.
    + intros Hs k. simpl. rewrite gsd_returns_snoc.
      assert (source_data w !! class_key c = None) as Hnone.
      { apply (cached_source_data_None _ c); [done|].
        destruct (class_keys_head c) as [rest ->]. set_solver. }
      destruct (Hs k) as [Hle Hsome]. case_decide as Hk.
      * injection Hk as <-. rewrite lookup_insert_eq.
        assert (gsd_returns (class_key c) (log w) = 0)%nat as ->; [|split; [lia|eauto]].
        destruct (gsd_returns (class_key c) (log w)) as [|[|n]] eqn:Hn; [done| |lia].
        destruct Hsome as [x Hx]; [done|]. congruence.
      * rewrite Nat.add_0_r. split; [done|]. intros H1.
        destruct (decide (class_key c = k)) as [<-|Hne].
        -- rewrite lookup_insert_eq. eauto.
        -- rewrite lookup_insert_ne by done. by apply Hsome.
  - apply quiet_grows, emit_quiet. by intros k.
Qed.

Lemma ZipFile_open_grows t mode c l : preserves cache_grows (ZipFile_open t mode c l).
Proof.
  intros w. apply quiet_grows. unfold ZipFile_open.
  destruct (check_compression c); [|apply quiet_refl].
  assert (quiet w (emit (EvZipOpen mode t) w)) as Hq by (by apply emit_quiet).
  destruct t as [p|id], mode; simpl.
  - by destruct (files w !! p) as [[]|].
  - case_decide; [done|]. simpl. destruct Hq as [Hsd Hl]. by split.
  - destruct (streams w !! id) as [s|]; [|done]. by destruct (stream_content _ _) as [[]|].
  - by destruct (streams w !! id).
Qed.

Lemma ZipFile_close_grows z : preserves cache_grows (ZipFile_close z).
Proof.
  intros w. apply quiet_grows. unfold ZipFile_close.
  destruct (zf_mode z); [apply quiet_refl|].
  destruct (zf_writing z); [apply quiet_refl|apply store_quiet].
Qed.

Lemma read_file_grows p : preserves cache_grows (read_file p).
Proof.
  intros w. apply quiet_grows. unfold read_file.
  assert (quiet w (emit (EvOpen p "rb") w)) as Hq by (by apply emit_quiet).
  simpl. destruct (files w !! p); [destruct (str_truthy p)|]; done.
Qed.

Lemma write_file_grows p data : preserves cache_grows (write_file p data).
Proof.
  intros w. apply quiet_grows. unfold write_file.
  assert (quiet w (emit (EvOpen p "wb") w)) as Hq by (by apply emit_quiet).
  destruct (negb (str_truthy p)); [done|]. case_decide; [done|].
  destruct Hq as [Hsd Hl]. by split.
Qed.

Lemma AutoPatchRegister_new_grows name base dct :
  preserves cache_grows (AutoPatchRegister_new name base dct).
Proof.
  intros w. apply quiet_grows. unfold AutoPatchRegister_new.
  destruct (b_game dct); [|apply quiet_refl].
  unfold bind, modify, raise, ret. simpl.
  destruct (b_patch_file_ending dct) as [e|]; [|by split].
  destruct (str_truthy e); by split.
Qed.

Lemma in_env_grows {A} (c : M world A) :
  preserves cache_grows c → preserves cache_grows_s (in_env c).
Proof.
  intros Hc s. unfold in_env, zoom, cache_grows_s. specialize (Hc (env s)).
  by destruct (c (env s)).
Qed.

Lemma in_st_grows {A} (c : M state A) :
  preserves cache_grows_s c → preserves cache_grows_z (in_st c).
Proof.
  intros Hc zs. unfold in_st, zoom, cache_grows_z. specialize (Hc (st zs)).
  by destruct (c (st zs)).
Qed.

Lemma on_self_grows f : preserves cache_grows_s (modify (on_self f)).
Proof. intros s. unfold cache_grows_s. reflexivity. Qed.

Lemma self_attr_grows {A} attr (field : class_body → option A) :
  preserves cache_grows_s (self_attr attr field).
Proof. intros s. unfold cache_grows_s. reflexivity. Qed.

Lemma get_manifest_grows : preserves cache_grows_s get_manifest.
Proof. intros s. rewrite get_manifest_pure. reflexivity. Qed.

Lemma writestr_grows name data ct : preserves cache_grows_z (writestr name data ct).
Proof.
  intros zs. unfold writestr, cache_grows_z, cache_grows_s.
  destruct (zf_mode (zf zs)); [reflexivity|].
  destruct (zf_writing (zf zs)); [reflexivity|].
  destruct (compressor_error _ _); apply quiet_grows, store_quiet.
Qed.

Lemma zf_read_grows name : preserves cache_grows_z (zf_read name).
Proof.
  intros zs. unfold zf_read, cache_grows_z. destruct (zip_member _ _); reflexivity.
Qed.

Lemma rebind_path_grows file : preserves cache_grows_z (rebind_path file).
Proof.
  intros zs. unfold rebind_path, cache_grows_z, cache_grows_s.
  destruct (file_given file); reflexivity.
Qed.

Ltac frame_cache :=
  repeat first
    [ progress frame
    | apply in_st_grows | apply in_env_grows | apply get_manifest_grows
    | apply writestr_grows | apply zf_read_grows | apply self_attr_grows
    | apply on_self_grows | apply get_source_data_with_cache_grows
    | apply read_file_grows | apply write_file_grows | apply rebind_path_grows
    | match goal with
      | |- preserves _ (match ?x with _ => _ end) => destruct x
      | |- preserves _ (if ?x then _ else _) => destruct x
      end ].

Lemma write_contents_grows : preserves cache_grows_z write_contents.
Proof.
  unfold write_contents, APDeltaPatch_write_contents, APContainer_write_contents.
  frame_cache.
Qed.

Lemma read_contents_grows : preserves cache_grows_z read_contents.
Proof.
  unfold read_contents, APDeltaPatch_read_contents, APContainer_read_contents.
  frame_cache.
Qed.

Lemma with_ZipFile_grows {A} t mode c l (body : M zstate A) :
  preserves cache_grows_z body → preserves cache_grows_s (with_ZipFile t mode c l body).
Proof.
  intros Hb s. unfold with_ZipFile, cache_grows_s.
  pose proof (ZipFile_open_grows t mode c l (env s)) as Ho.
  destruct (ZipFile_open t mode c l (env s)) as [[z|e] w1]; [|exact Ho].
  specialize (Hb (ZState z (State (self s) w1))).
  destruct (body _) as [r zs]. simpl in *.
  pose proof (ZipFile_close_grows (zf zs) (env (st zs))) as Hc.
  destruct (ZipFile_close _ _) as [[[]|e] w']; simpl in *;
    (etrans; [exact Ho|]); (etrans; [exact Hb|]); exact Hc.
Qed.

Lemma read_grows file : preserves cache_grows_s (read file).
Proof.
  intros [i w]. rewrite read_eq. destruct (file_or_path file (path i)); [|reflexivity].
  apply with_ZipFile_grows.
  apply preserves_bind; [apply _|apply rebind_path_grows|]. intros _.
  apply preserves_try_except; [apply _|apply read_contents_grows|].
  intros e. apply preserves_raise, _.
Qed.

Lemma with_semaphore_grows {A} (body : M state A) :
  preserves cache_grows_s body → preserves cache_grows_s (with_semaphore body).
Proof.
  intros Hb. unfold with_semaphore.
  assert (∀ e, (∀ k, e ≠ EvGetSourceData k true) → ∀ s, cache_grows_s s (on_env (emit e) s))
    as Hemit by (intros e He s; by apply quiet_grows, emit_quiet).
  apply preserves_bind; [apply _|by apply preserves_modify, Hemit|]. intros _.
  apply preserves_finally; [apply _|exact Hb|by apply Hemit].
Qed.

Lemma write_grows file : preserves cache_grows_s (write file).
Proof.
  intros [i w]. rewrite write_eq. destruct (file_or_path file (path i)); [|reflexivity].
  refine (with_semaphore_grows _ _ (State i w)).
  apply preserves_bind; [apply _|apply self_attr_grows|]. intros m.
  apply preserves_bind; [apply _|apply self_attr_grows|]. intros l.
  apply with_ZipFile_grows.
  apply preserves_bind; [apply _|apply rebind_path_grows|]. intros _.
  apply write_contents_grows.
Qed.

Lemma patch_grows target : preserves cache_grows_s (patch target).
Proof.
  unfold patch.
  apply preserves_bind; [apply _|apply preserves_gets, _|]. intros i.
  apply preserves_bind; [apply _| |].
  { destruct (no_delta i); [apply read_grows|apply preserves_ret, _]. }
  intros _. frame_cache.
Qed.

(** Every call keeps what is cached and keeps the cache sound. *)
Lemma step_grows o w : cache_grows w (step o w).
Proof.
  destruct o as [c|i file|i file|i target|name base dct]; simpl.
  - apply get_source_data_with_cache_grows.
  - apply (write_grows file (State i w)).
  - apply (read_grows file (State i w)).
  - apply (patch_grows target (State i w)).
  - apply AutoPatchRegister_new_grows.
Qed.

Lemma run_ops_grows os w : cache_grows w (run_ops os w).
Proof.
  revert w. induction os as [|o os IH]; intros w; simpl; [reflexivity|].
  etrans; [apply step_grows|apply IH].
Qed.
End CacheProps.

Section CacheOnce.
Context `{!Externals}.

Lemma empty_log_sound w : log w = [] → cache_sound w.
Proof. intros Hl k. rewrite Hl. unfold gsd_returns. simpl. split; [lia|done]. Qed.

Lemma get_source_data_with_cache_cached c w b :
  kind_of c = APDeltaPatch →
  cached_source_data (source_data w) c = Some b →
  get_source_data_with_cache c w = (Ok b, w).
Proof. intros Hk Hc. unfold get_source_data_with_cache. by rewrite Hk, Hc. Qed.

Lemma get_source_data_with_cache_kind c w b w1 :
  get_source_data_with_cache c w = (Ok b, w1) → kind_of c = APDeltaPatch.
Proof. unfold get_source_data_with_cache. by destruct (kind_of c). Qed.

Lemma get_source_data_defined c :
  kind_of c = APDeltaPatch → is_Some (class_attr b_get_source_data c).
Proof.
  intros Hk. eapply (class_attr_builtin _ c APDeltaPatch); [rewrite Hk; set_solver|done].
Qed.

Lemma gsd_calls_snoc k evs returned :
  gsd_calls k (evs ++ [EvGetSourceData k returned]) = S (gsd_calls k evs).
Proof.
  unfold gsd_calls. rewrite filter_app, length_app. simpl.
  rewrite filter_cons_True; [simpl; lia|]. destruct returned; auto.
Qed.

(** A call that raised has called [get_source_data] and cached nothing; the
    next call calls it again. *)
Lemma get_source_data_with_cache_raised c w e w1 :
  kind_of c = APDeltaPatch →
  get_source_data_with_cache c w = (Raise e, w1) →
  w1 = emit (EvGetSourceData (class_key c) false) w
  ∧ gsd_calls (class_key c) (log (get_source_data_with_cache c w1).2)
    = S (gsd_calls (class_key c) (log w1)).
Proof.
  intros Hk. destruct (get_source_data_defined c Hk) as [g Hg].
  unfold get_source_data_with_cache. rewrite Hk.
  destruct (cached_source_data (source_data w) c) eqn:Hc; [done|]. rewrite Hg.
  destruct (g (files w)) as [b|e'] eqn:Hgw; [done|]. intros [= <- <-].
  split; [done|]. simpl. rewrite Hc.
  destruct (g (files w)); simpl; apply gsd_calls_snoc.
Qed.

(** C8, amended: in a run of calls made one after the other, begun with an
    empty log, whatever is called, [get_source_data] of a class returns at
    most once; once [get_source_data_with_cache] has returned on a class,
    every later call on that class, whatever was called in between, returns
    the same bytes and leaves the world as it finds it: [get_source_data] is
    not called again.  A call that raises has cached nothing, and the next
    call on the class calls [get_source_data] again.  (Calls that overlap
    in time are not covered: the code takes no lock around lines 189-190.
    Nothing is said of the class an inherited cache comes from.) *)
Theorem source_data_cached_once (os : list op) (w : world) :
  log w = [] →
  (∀ k, (gsd_returns k (log (run_ops os w)) ≤ 1)%nat)
  ∧ (∀ c b w1 later,
       get_source_data_with_cache c (run_ops os w) = (Ok b, w1) →
       get_source_data_with_cache c (run_ops later w1) = (Ok b, run_ops later w1))
  ∧ (∀ c e w1,
       kind_of c = APDeltaPatch →
       get_source_data_with_cache c (run_ops os w) = (Raise e, w1) →
       source_data w1 = source_data (run_ops os w)
       ∧ gsd_calls (class_key c) (log (get_source_data_with_cache c w1).2)
         = S (gsd_calls (class_key c) (log w1))).
Proof.
  intros Hlog. split; [|split].
  - intros k. destruct (run_ops_grows os w) as [_ Hsound].
    by destruct (Hsound (empty_log_sound w Hlog) k).
  - intros c b w1 later Hcall.
    pose proof (get_source_data_with_cache_kind _ _ _ _ Hcall) as Hk.
    pose proof (get_source_data_with_cache_env c (run_ops os w)) as Henv.
    rewrite Hcall in Henv. destruct Henv as (_ & _ & _ & _ & _ & Hcached).
    destruct (run_ops_grows later w1) as [Hkeep _].
    apply get_source_data_with_cache_cached; [done|]. by apply Hkeep, Hcached.
  - intros c e w1 Hk Hcall.
    destruct (get_source_data_with_cache_raised c _ e w1 Hk Hcall) as [-> Hnext].
    by split.
Qed.
End CacheOnce.

(** C8 on the example handler: cached, written with, and cached again; and on
    a handler whose base file is not there. *)
Lemma source_data_cached_once_witness :
  (gsd_returns (class_key Examples.GamePatch)
     (log (@run_ops Reference.externals
             [OpCache Examples.GamePatch; OpWrite Examples.a_delta_patch None;
              OpCache Examples.GamePatch]
             Examples.rom_world)) ≤ 1)%nat
  ∧ get_source_data_with_cache Examples.GamePatch
      (@run_ops Reference.externals
         [OpPatch Examples.a_patch_reader "result.rom"]
         (env Examples.written_patch))
    = (Ok Examples.base_rom,
       @run_ops Reference.externals [OpPatch Examples.a_patch_reader "result.rom"]
                (env Examples.written_patch))
  ∧ gsd_calls (class_key Examples.RomPatch)
      (log (get_source_data_with_cache Examples.RomPatch
              (emit (EvGetSourceData (class_key Examples.RomPatch) false)
                    Examples.rom_world)).2)
    = S (gsd_calls (class_key Examples.RomPatch)
           (log (emit (EvGetSourceData (class_key Examples.RomPatch) false)
                      Examples.rom_world))).
Proof.
  split; [|split].
  - apply (@source_data_cached_once Reference.externals
             [OpCache Examples.GamePatch; OpWrite Examples.a_delta_patch None;
              OpCache Examples.GamePatch]
             Examples.rom_world eq_refl).
  - apply (proj1 (proj2 (@source_data_cached_once Reference.externals
                           [OpWrite Examples.a_delta_patch None] Examples.rom_world
                           eq_refl))
                 Examples.GamePatch Examples.base_rom (env Examples.written_patch)
                 [OpPatch Examples.a_patch_reader "result.rom"]).
    vm_compute. reflexivity.
  - apply (proj2 (proj2 (@source_data_cached_once Reference.externals [] Examples.rom_world
                           eq_refl))
                 Examples.RomPatch
                 (Exn Exception [PStr "Base ROM not found"] None)
                 (emit (EvGetSourceData (class_key Examples.RomPatch) false)
                       Examples.rom_world)).
    + reflexivity.
    + reflexivity.
Defined.

(** C8, as stated, fails: a [get_source_data] that raises is called again
    by the next call.  The handler reads its base from [base.rom]; while the
    file is not there, two calls call it twice. *)
Lemma source_data_invoked_twice :
  (get_source_data_with_cache Examples.RomPatch Examples.empty_world).1
  = Raise (Exn Exception [PStr "Base ROM not found"] None)
  ∧ gsd_calls (class_key Examples.RomPatch)
      (log (@run_ops Reference.externals
              [OpCache Examples.RomPatch; OpCache Examples.RomPatch]
              Examples.empty_world)) = 2%nat.
Proof. split; vm_compute; reflexivity. Qed.

(** Beside C8: the cache is looked up with [hasattr], which sees what a
    parent class has cached.  A handler derived from a handler whose base is
    cached finds that base and does not compute its own; were it called
    first, it would. *)
Lemma source_data_cache_is_inherited :
  (get_source_data_with_cache Examples.GamePatchEU
     (get_source_data_with_cache Examples.GamePatch Examples.empty_world).2).1
  = Ok Examples.base_rom
  ∧ (get_source_data_with_cache Examples.GamePatchEU Examples.empty_world).1
    = Ok (Examples.B "1111111111111111")
  ∧ gsd_calls (class_key Examples.GamePatchEU)
      (log (@run_ops Reference.externals
              [OpCache Examples.GamePatch; OpCache Examples.GamePatchEU;
               OpCache Examples.GamePatchEU] Examples.empty_world)) = 0%nat.
Proof. repeat split; vm_compute; reflexivity. Qed.

(** * More of the module *)

(** ** Resolving a handler *)

Lemma string_length_app (s1 s2 : string) :
  String.length (s1 ++ s2) = (String.length s1 + String.length s2)%nat.
Proof.
  induction s1 as [|c s1 IH]; [reflexivity|].
  change (S (String.length (s1 ++ s2)) = S (String.length s1 + String.length s2)).
  by rewrite IH.
Qed.

Lemma substring_all (s : string) : String.substring 0 (String.length s) s = s.
Proof. induction s as [|c s IH]; simpl; [reflexivity|by rewrite IH]. Qed.

Lemma substring_app_r (p e : string) :
  String.substring (String.length p) (String.length e) (p ++ e) = e.
Proof. induction p as [|c p IH]; simpl; [apply substring_all|exact IH]. Qed.

Lemma substring_split (s : string) (m : nat) :
  (m ≤ String.length s)%nat →
  s = String.substring 0 m s ++ String.substring m (String.length s - m) s.
Proof.
  revert m. induction s as [|c s IH]; intros m Hm.
  - simpl in Hm. by replace m with 0%nat by lia.
  - destruct m as [|m]; simpl.
    + by rewrite substring_all.
    + change (String c s = String c (String.substring 0 m s
                                     ++ String.substring m (String.length s - m) s)).
      f_equal. apply IH. simpl in Hm. lia.
Qed.

(** [endswith] is the suffix test. *)
Lemma endswith_spec file ending : endswith file ending = true ↔ is_suffix ending file.
Proof.
  unfold endswith, is_suffix. split.
  - intros [Hle Heq]%andb_prop. apply Nat.leb_le in Hle. apply String.eqb_eq in Heq.
    exists (String.substring 0 (String.length file - String.length ending) file).
    pose proof (substring_split file (String.length file - String.length ending)) as Hs.
    replace (String.length file - (String.length file - String.length ending))%nat
      with (String.length ending) in Hs by lia.
    rewrite Heq in Hs. apply Hs. lia.
  - intros [p ->]. rewrite string_length_app. apply andb_true_intro. split.
    + apply Nat.leb_le. lia.
    + replace (String.length p + String.length ending - String.length ending)%nat
        with (String.length p) by lia.
      rewrite substring_app_r. apply String.eqb_refl.
Qed.

Lemma first_handler_Some file items h :
  first_handler file items = Some h ↔
  ∃ l1 e l2, items = (l1 ++ (e, h) :: l2)%list ∧ is_suffix e file
             ∧ Forall (λ x, ¬ is_suffix x.1 file) l1.
Proof.
  induction items as [|[e0 h0] items IH]; simpl.
  - split; [done|]. intros (l1 & e & l2 & Heq & _). by destruct l1.
  - destruct (endswith file e0) eqn:He.
    + apply endswith_spec in He. split.
      * intros [= <-]. exists [], e0, items. by repeat split.
      * intros (l1 & e & l2 & Heq & Hs & Hl1). destruct l1 as [|x l1]; simpl in Heq.
        -- by injection Heq as <- <- _.
        -- injection Heq as <- _. by apply Forall_cons in Hl1 as [Hx _].
    + assert (¬ is_suffix e0 file) as Hn.
      { intros Hs%endswith_spec. congruence. }
      rewrite IH. split.
      * intros (l1 & e & l2 & -> & Hs & Hl1). exists ((e0, h0) :: l1), e, l2.
        repeat split; [done|]. by constructor.
      * intros (l1 & e & l2 & Heq & Hs & Hl1). destruct l1 as [|x l1]; simpl in Heq.
        -- injection Heq as <- _ _. done.
        -- injection Heq as _ ->. apply Forall_cons in Hl1 as [_ Hl1].
           by exists l1, e, l2.
Qed.

Lemma first_handler_None file items :
  first_handler file items = None ↔ Forall (λ x, ¬ is_suffix x.1 file) items.
Proof.
  induction items as [|[e0 h0] items IH]; simpl; [done|].
  destruct (endswith file e0) eqn:He.
  - apply endswith_spec in He. split; [done|]. by intros [Hn _]%Forall_cons.
  - rewrite IH. split.
    + intros Hf. constructor; [|done]. simpl. intros Hs%endswith_spec. congruence.
    + by intros [_ Hf]%Forall_cons.
Qed.

(** X1: [get_handler] answers with the handler filed under the first ending,
    in the order the endings were registered, that the file name ends with;
    it answers [None] exactly when the name ends with no registered ending. *)
Theorem get_handler_first_match (file : string) (w : world) :
  (∀ h, get_handler file w = Some h ↔
        ∃ l1 e l2, file_endings w = (l1 ++ (e, h) :: l2)%list ∧ is_suffix e file
                   ∧ Forall (λ x, ¬ is_suffix x.1 file) l1)
  ∧ (get_handler file w = None ↔ Forall (λ x, ¬ is_suffix x.1 file) (file_endings w)).
Proof. split; [intros h; apply first_handler_Some|apply first_handler_None]. Qed.

(** ** Declaring a handler *)

(** X2: a class declaration returns exactly when its body names no game, or
    itself assigns a [patch_file_ending] that is not empty.  A body that
    names no game leaves the registry as it is.  A body that names a game and
    assigns no ending raises [KeyError], whatever ending the class inherits;
    one that assigns the empty ending raises the [Exception] that asks for an
    ending; either way the class is in [patch_types] by then, and
    [file_endings] is as it was. *)
Theorem declaration_outcome name base dct (w : world) :
  let new_class := Subclass name dct base in
  let r := AutoPatchRegister_new name base dct w in
  (r.1 = Ok new_class ↔
     b_game dct = None
     ∨ ∃ ending, b_patch_file_ending dct = Some ending ∧ ending ≠ EmptyString)
  ∧ (b_game dct = None → r = (Ok new_class, w))
  ∧ (∀ game, b_game dct = Some game → b_patch_file_ending dct = None →
       r.1 = Raise (Exn KeyError [PStr "patch_file_ending"] None)
       ∧ dict_get game (patch_types r.2) = Some new_class
       ∧ file_endings r.2 = file_endings w
       ∧ class_attr b_patch_file_ending new_class = class_attr b_patch_file_ending base)
  ∧ (∀ game, b_game dct = Some game → b_patch_file_ending dct = Some EmptyString →
       r.1 = Raise (Exn Exception [PStr ("Need an expected file ending for " ++ name)] None)
       ∧ dict_get game (patch_types r.2) = Some new_class
       ∧ file_endings r.2 = file_endings w).
Proof.
  intros new_class r. unfold r, new_class, AutoPatchRegister_new.
  split; [|split; [|split]].
  - destruct (b_game dct) as [game|]; [|by split; auto].
    unfold bind, modify, raise, ret. simpl.
    destruct (b_patch_file_ending dct) as [ending|]; simpl.
    + destruct (str_truthy ending) eqn:Ht; simpl.
      * split; [|done]. intros _. right. exists ending. split; [done|].
        by apply str_truthy_nonempty.
      * split; [done|]. intros [?|(e & [= <-] & Hne)]; [done|].
        apply str_truthy_nonempty in Hne. congruence.
    + split; [done|]. by intros [?|(e & ? & _)].
  - by intros ->.
  - intros game -> He. unfold bind, modify, raise. simpl. rewrite He. simpl.
    split; [done|]. split; [apply dict_get_set_eq|]. split; [done|].
    unfold class_attr. simpl. by rewrite He.
  - intros game -> He. unfold bind, modify, raise. simpl. rewrite He. simpl.
    split; [done|]. split; [apply dict_get_set_eq|done].
Qed.

(** X2 on a class derived from [GamePatch] that only names another game: it
    inherits the ending [.apgame], and its declaration raises [KeyError]. *)
Lemma declaration_outcome_witness :
  (AutoPatchRegister_new "GamePatchJP" Examples.GamePatch
     (MoreExamples.game_only "Game JP") Examples.empty_world).1
  = Raise (Exn KeyError [PStr "patch_file_ending"] None)
  ∧ class_attr b_patch_file_ending
      (Subclass "GamePatchJP" (MoreExamples.game_only "Game JP") Examples.GamePatch)
    = Some ".apgame".
Proof.
  destruct (proj1 (proj2 (proj2 (declaration_outcome "GamePatchJP" Examples.GamePatch
                                   (MoreExamples.game_only "Game JP")
                                   Examples.empty_world)))
              (Some "Game JP") eq_refl eq_refl) as (Hr & _ & _ & Hattr).
  split; [exact Hr|]. rewrite Hattr. reflexivity.
Defined.

Lemma first_handler_dict_set_is_Some file ending (c : pyclass) items :
  is_suffix ending file → is_Some (first_handler file (dict_set ending c items)).
Proof.
  intros Hs%endswith_spec. induction items as [|[e0 h0] items IH]; simpl.
  - rewrite Hs. eauto.
  - case_decide as Hd; simpl.
    + rewrite Hs. eauto.
    + destruct (endswith file e0); eauto.
Qed.

Lemma first_handler_dict_set_new file ending (c : pyclass) items :
  is_suffix ending file →
  Forall (λ x, x.1 ≠ ending → ¬ is_suffix x.1 file) items →
  first_handler file (dict_set ending c items) = Some c.
Proof.
  intros Hs%endswith_spec. induction 1 as [|[e0 h0] items Hx Hitems IH]; simpl.
  - by rewrite Hs.
  - case_decide as Hd; simpl.
    + by rewrite Hs.
    + destruct (endswith file e0) eqn:He; [|exact IH].
      apply endswith_spec in He. exfalso. apply Hx; [simpl; congruence|done].
Qed.

(** X3: a declaration that returns files the new class under its game and
    under its ending, and touches no other game or ending.  From then on a
    file name with this ending resolves to a handler, and to the new class
    whenever it ends with no other registered ending. *)
Theorem declared_handler_resolves name base dct (w w' : world) c game :
  AutoPatchRegister_new name base dct w = (Ok c, w') →
  b_game dct = Some game →
  ∃ ending,
    b_patch_file_ending dct = Some ending ∧ ending ≠ EmptyString
    ∧ c = Subclass name dct base
    ∧ dict_get game (patch_types w') = Some c
    ∧ dict_get ending (file_endings w') = Some c
    ∧ (∀ g, g ≠ game → dict_get g (patch_types w') = dict_get g (patch_types w))
    ∧ (∀ e, e ≠ ending → dict_get e (file_endings w') = dict_get e (file_endings w))
    ∧ (∀ file, is_suffix ending file → is_Some (get_handler file w'))
    ∧ (∀ file, is_suffix ending file →
               Forall (λ x, x.1 ≠ ending → ¬ is_suffix x.1 file) (file_endings w) →
               get_handler file w' = Some c).
Proof.
  unfold AutoPatchRegister_new. intros Hnew Hg. rewrite Hg in Hnew.
  unfold bind, modify, raise, ret in Hnew. simpl in Hnew.
  destruct (b_patch_file_ending dct) as [ending|]; [|done].
  destruct (str_truthy ending) eqn:Ht; simpl in Hnew; [|done].
  injection Hnew as <- <-. exists ending. simpl.
  split; [done|]. split; [by apply str_truthy_nonempty|]. split; [done|].
  split; [apply dict_get_set_eq|]. split; [apply dict_get_set_eq|].
  split; [intros g Hne; by apply dict_get_set_ne|].
  split; [intros e Hne; by apply dict_get_set_ne|].
  split.
  - intros file Hs. by apply first_handler_dict_set_is_Some.
  - intros file Hs Hothers. by apply first_handler_dict_set_new.
Qed.

(** X3 on the declaration of [GamePatch] in an empty registry. *)
Lemma declared_handler_resolves_witness :
  get_handler "AP_1.apgame"
    (declare_all [("GamePatch", Builtin APDeltaPatch,
                   Examples.handler_body "Game" ".apgame" "abc123"
                     (λ _, Ok Examples.base_rom))] Examples.empty_world)
  = Some Examples.GamePatch
  ∧ dict_get (Some "Game")
      (patch_types (declare_all [("GamePatch", Builtin APDeltaPatch,
                                  Examples.handler_body "Game" ".apgame" "abc123"
                                    (λ _, Ok Examples.base_rom))] Examples.empty_world))
    = Some Examples.GamePatch.
Proof.
  destruct (declared_handler_resolves "GamePatch" (Builtin APDeltaPatch)
              (Examples.handler_body "Game" ".apgame" "abc123" (λ _, Ok Examples.base_rom))
              Examples.empty_world _ Examples.GamePatch (Some "Game") eq_refl eq_refl)
    as (ending & He & _ & _ & Hg & _ & _ & _ & _ & Hres).
  injection He as <-. split; [|exact Hg].
  apply Hres; [by exists "AP_1"|constructor].
Defined.

(** X4: in a registry that declarations have built, the failed ones
    included, every handler [get_handler] answers with was declared with an
    ending that is not empty, and the file name ends with that ending: no
    class is handed out for a name it did not ask for. *)
Theorem get_handler_declared (ds : list (string * pyclass * class_body)) (w : world)
    (file : string) (h : pyclass) :
  file_endings_sound w →
  get_handler file (declare_all ds w) = Some h →
  ∃ ending, ending ≠ EmptyString
            ∧ class_attr b_patch_file_ending h = Some ending
            ∧ is_suffix ending file.
Proof.
  intros Hw Hh. pose proof (declare_all_file_endings ds w Hw) as Hsound.
  apply first_handler_Some in Hh as (l1 & e & l2 & Heq & Hs & _).
  unfold file_endings_sound in Hsound. rewrite Heq in Hsound.
  apply Forall_app in Hsound as [_ Hsound]. apply Forall_cons in Hsound as [[Hne Hattr] _].
  exists e. by repeat split.
Qed.

(** X4 on the registry of three declarations, one of which failed. *)
Lemma get_handler_declared_witness :
  ∃ ending, ending ≠ EmptyString
            ∧ class_attr b_patch_file_ending Examples.RomPatch = Some ending
            ∧ is_suffix ending "AP_7.aprom".
Proof.
  apply (get_handler_declared MoreExamples.declarations Examples.empty_world "AP_7.aprom"
           Examples.RomPatch).
  - constructor.
  - reflexivity.
Defined.

(** ** What a manifest holds *)

(** The keys [get_manifest] adds, class by class. *)
Lemma manifest_keys_by_kind s manifest :
  (get_manifest s).1 = Ok manifest →
  manifest.*1
  = (["server"; "player"; "player_name"; "game"; "compatible_version"; "version"]
     ++ match kind_of (cls (self s)) with
        | APContainer => []
        | APPatch | APAutoPatchInterface => ["procedure"]
        | APDeltaPatch =>
            ["procedure"; "base_checksum"; "result_file_ending"; "patch_file_ending"]
        end)%list.
Proof.
  destruct s as [i w]. run_manifest.
  destruct (kind_of (cls i)); simpl;
    repeat (match goal with |- context [class_attr ?f ?c] => destruct (class_attr f c) end;
            simpl);
    by intros [= <-].
Qed.

(** X5: the manifest has its keys in a fixed order: the six of the plain
    container, then [procedure] for the patch classes, then the three a delta
    patch adds.  [server], [player] and [player_name] are the instance's;
    [game] is the class's; [version] is the module's [container_version],
    whatever [version] the class has; [compatible_version] is 5 for a plain
    container, 6 for a patch and 5 again for a delta patch.  For the patch
    classes [procedure] is the class's [procedure], and a delta patch adds the
    class's [hash] and its two endings. *)
Theorem manifest_layout (i : instance) (w : world) manifest :
  (get_manifest (State i w)).1 = Ok manifest →
  manifest.*1
  = (["server"; "player"; "player_name"; "game"; "compatible_version"; "version"]
     ++ match kind_of (cls i) with
        | APContainer => []
        | APPatch | APAutoPatchInterface => ["procedure"]
        | APDeltaPatch =>
            ["procedure"; "base_checksum"; "result_file_ending"; "patch_file_ending"]
        end)%list
  ∧ dict_get "server" manifest = Some (server i)
  ∧ dict_get "player" manifest = Some (player i)
  ∧ dict_get "player_name" manifest = Some (player_name i)
  ∧ dict_get "version" manifest = Some (PInt container_version)
  ∧ dict_get "game" manifest = of_optional_str <$> class_attr b_game (cls i)
  ∧ dict_get "compatible_version" manifest
    = Some (PInt match kind_of (cls i) with
                 | APContainer => 5
                 | APPatch | APAutoPatchInterface => 6
                 | APDeltaPatch => 5
                 end)
  ∧ (kind_of (cls i) ≠ APContainer →
     dict_get "procedure" manifest = class_attr b_procedure (cls i))
  ∧ (kind_of (cls i) = APDeltaPatch →
     dict_get "base_checksum" manifest = of_optional_str <$> class_attr b_hash (cls i)
     ∧ dict_get "result_file_ending" manifest
       = PStr <$> class_attr b_result_file_ending (cls i)
     ∧ dict_get "patch_file_ending" manifest
       = PStr <$> class_attr b_patch_file_ending (cls i)).
Proof.
  intros Hm. split; [exact (manifest_keys_by_kind (State i w) manifest Hm)|].
  revert Hm. run_manifest.
  destruct (kind_of (cls i)); simpl;
    repeat (match goal with |- context [class_attr ?f ?c] => destruct (class_attr f c) end;
            simpl);
    intros [= <-]; repeat split; try done.
Qed.

(** X5 on the example delta patch. *)
Lemma manifest_layout_witness :
  ∃ manifest,
    (get_manifest (State Examples.a_delta_patch Examples.empty_world)).1 = Ok manifest
    ∧ manifest.*1
      = ["server"; "player"; "player_name"; "game"; "compatible_version"; "version";
         "procedure"; "base_checksum"; "result_file_ending"; "patch_file_ending"]
    ∧ dict_get "game" manifest = Some (PStr "Game")
    ∧ dict_get "procedure" manifest = Some PNone
    ∧ dict_get "base_checksum" manifest = Some (PStr "abc123").
Proof.
  eexists. split; [reflexivity|].
  destruct (manifest_layout Examples.a_delta_patch Examples.empty_world _ eq_refl)
    as (Hkeys & _ & _ & _ & _ & Hgame & _ & Hproc & Hdelta).
  destruct (Hdelta eq_refl) as (Hsum & _ & _).
  split; [exact Hkeys|]. split; [exact Hgame|]. split; [|exact Hsum].
  by apply Hproc.
Defined.

(** X6: [get_manifest] raises only for a delta patch whose class has no
    [hash] (which [APDeltaPatch] annotates and does not assign), and what it
    raises then is the [AttributeError] for [hash]; every other instance has
    a manifest. *)
Theorem get_manifest_fails_without_hash (i : instance) (w : world) :
  (∀ e, (get_manifest (State i w)).1 = Raise e ↔
        kind_of (cls i) = APDeltaPatch ∧ class_attr b_hash (cls i) = None
        ∧ e = no_attribute (cls i) "hash")
  ∧ ((∃ manifest, (get_manifest (State i w)).1 = Ok manifest) ↔
     (kind_of (cls i) = APDeltaPatch → is_Some (class_attr b_hash (cls i)))).
Proof.
  destruct (game_defined (cls i)) as [g Hg].
  assert (kind_of (cls i) ≠ APContainer → ∃ p, class_attr b_procedure (cls i) = Some p)
    as Hproc by (intros Hk; by apply procedure_defined).
  run_manifest. destruct (kind_of (cls i)) eqn:Hk; simpl; rewrite Hg; simpl.
  - split; [intros e; split; [done|by intros [? _]]|]. split; [done|eauto].
  - destruct Hproc as [p ->]; [done|]. simpl.
    split; [intros e; split; [done|by intros [? _]]|]. split; [done|eauto].
  - destruct Hproc as [p ->]; [done|]. simpl.
    split; [intros e; split; [done|by intros [? _]]|]. split; [done|eauto].
  - destruct Hproc as [p ->]; [done|]. simpl.
    destruct (delta_attrs_defined (cls i) Hk) as [[r Hr] [e0 He]].
    destruct (class_attr b_hash (cls i)) as [h|]; simpl; rewrite ?Hr; simpl; rewrite ?He; simpl.
    + split; [intros e; split; [done|by intros (_ & ? & _)]|].
      split; [eauto|]. intros _. eauto.
    + split.
      * intros e. split; [by intros [= <-]|]. by intros (_ & _ & ->).
      * split; [by intros [m ?]|]. intros Hh. by destruct Hh as [x ?].
Qed.

(** X6 on [APDeltaPatch] itself, which has no [hash]. *)
Lemma get_manifest_fails_without_hash_witness :
  (get_manifest (State (APDeltaPatch_init (Builtin APDeltaPatch) "patched.rom" None None
                                          EmptyString EmptyString)
                       Examples.empty_world)).1
  = Raise (no_attribute (Builtin APDeltaPatch) "hash").
Proof.
  apply (proj1 (get_manifest_fails_without_hash
                  (APDeltaPatch_init (Builtin APDeltaPatch) "patched.rom" None None
                                     EmptyString EmptyString) Examples.empty_world)).
  done.
Defined.

(** ** Reading *)

#[global] Instance same_env_preorder : PreOrder same_env.
Proof. split; [by intros s|intros s1 s2 s3; unfold same_env; congruence]. Qed.

#[global] Instance same_env_z_preorder : PreOrder same_env_z.
Proof.
  split; [by intros s|]. intros s1 s2 s3 [H12 Z12] [H23 Z23]. split; congruence.
Qed.

#[global] Instance same_class_preorder : PreOrder same_class.
Proof.
  split; [by intros s|]. intros s1 s2 s3 [H12 Z12] [H23 Z23]. split; congruence.
Qed.

#[global] Instance same_class_z_preorder : PreOrder same_class_z.
Proof.
  split; [by intros s|]. intros s1 s2 s3. unfold same_class_z. apply transitivity.
Qed.

Section ReadOnly.
Context `{!Externals}.

Lemma in_st_same_env {A} (c : M state A) :
  preserves same_env c → preserves same_env_z (in_st c).
Proof.
  intros Hc zs. unfold in_st, zoom. specialize (Hc (st zs)).
  by destruct (c (st zs)).
Qed.

Lemma on_self_same_env f : preserves same_env (modify (on_self f)).
Proof. by intros s. Qed.

Lemma self_attr_same_env {A} attr (field : class_body → option A) :
  preserves same_env (self_attr attr field).
Proof. by intros s. Qed.

Lemma zf_read_same_env name : preserves same_env_z (zf_read name).
Proof. intros zs. unfold zf_read. by destruct (zip_member _ _). Qed.

Lemma read_contents_same_env : preserves same_env_z read_contents.
Proof.
  unfold read_contents, APDeltaPatch_read_contents, APContainer_read_contents.
  repeat first
    [ progress frame
    | apply in_st_same_env | apply zf_read_same_env | apply self_attr_same_env
    | apply on_self_same_env
    | match goal with
      | |- preserves _ (match ?x with _ => _ end) => destruct x
      | |- preserves _ (if ?x then _ else _) => destruct x
      end ].
Qed.

Lemma in_st_same_class {A} (c : M state A) :
  preserves same_class c → preserves same_class_z (in_st c).
Proof.
  intros Hc zs. unfold in_st, zoom, same_class_z. specialize (Hc (st zs)).
  by destruct (c (st zs)).
Qed.

Lemma on_self_same_class f :
  (∀ i, cls (f i) = cls i ∧ patched_path (f i) = patched_path i) →
  preserves same_class (modify (on_self f)).
Proof. intros Hf s. apply Hf. Qed.

Lemma self_attr_same_class {A} attr (field : class_body → option A) :
  preserves same_class (self_attr attr field).
Proof. by intros s. Qed.

Lemma zf_read_same_class name : preserves same_class_z (zf_read name).
Proof. intros zs. unfold zf_read. by destruct (zip_member _ _). Qed.

Lemma read_contents_same_class : preserves same_class_z read_contents.
Proof.
  unfold read_contents, APDeltaPatch_read_contents, APContainer_read_contents.
  repeat first
    [ progress frame
    | apply in_st_same_class | apply zf_read_same_class | apply self_attr_same_class
    | by apply on_self_same_class
    | match goal with
      | |- preserves _ (match ?x with _ => _ end) => destruct x
      | |- preserves _ (if ?x then _ else _) => destruct x
      end ].
Qed.

(** What opening an archive for reading does to the world: one entry in the
    log. *)
Lemma ZipFile_open_read_env t c l w :
  (ZipFile_open t ModeR c l w).2 = w
  ∨ (ZipFile_open t ModeR c l w).2 = emit (EvZipOpen ModeR t) w.
Proof.
  unfold ZipFile_open. destruct (check_compression c); [|by left]. right.
  destruct t as [p|id]; simpl.
  - by destruct (files w !! p).
  - destruct (streams w !! id) as [s|]; [|done]. by destruct (stream_content _ _).
Qed.

Lemma ZipFile_open_read_mode t c l w z w1 :
  ZipFile_open t ModeR c l w = (Ok z, w1) → zf_mode z = ModeR.
Proof.
  unfold ZipFile_open. destruct (check_compression c); [|done].
  destruct t as [p|id]; simpl.
  - destruct (files w !! p) as [[b|ms]|]; [destruct (zip_parse b)| |]; by intros [= <- _].
  - destruct (streams w !! id) as [s|]; [|done].
    destruct (stream_content _ _) as [[b|ms]|]; [destruct (zip_parse b)| |];
      by intros [= <- _].
Qed.

Lemma read_body_same_env file :
  preserves same_env_z
    (rebind_path file;;; try_except read_contents (λ e, raise (invalid_data e))).
Proof.
  apply preserves_bind; [apply _| |intros _].
  - intros zs. unfold rebind_path. by destruct (file_given file).
  - apply preserves_try_except; [apply _|apply read_contents_same_env|].
    intros e. apply preserves_raise, _.
Qed.

(** A [with] block on an archive opened for reading, whose body leaves the
    world and the archive alone: closing changes nothing and does not
    raise. *)
Lemma with_ZipFile_read {A} t c l (body : M zstate A) s z w1 :
  ZipFile_open t ModeR c l (env s) = (Ok z, w1) →
  preserves same_env_z body →
  with_ZipFile t ModeR c l body s
  = ((body (ZState z (State (self s) w1))).1,
     State (self (st (body (ZState z (State (self s) w1))).2)) w1).
Proof.
  intros Ho Hb. unfold with_ZipFile. rewrite Ho.
  specialize (Hb (ZState z (State (self s) w1))).
  destruct (body _) as [r [z' [i' w']]]. destruct Hb as [Hw Hz]. simpl in *. subst.
  unfold ZipFile_close. by rewrite (ZipFile_open_read_mode _ _ _ _ _ _ Ho).
Qed.

Lemma read_effect (file : option target) (i : instance) (w : world) :
  (env (read file (State i w)).2 = w
   ∨ ∃ t, file_or_path file (path i) = Some t
          ∧ env (read file (State i w)).2 = emit (EvZipOpen ModeR t) w)
  ∧ cls (self (read file (State i w)).2) = cls i
  ∧ patched_path (self (read file (State i w)).2) = patched_path i.
Proof.
  rewrite read_eq. destruct (file_or_path file (path i)) as [t|]; [|by split; [left|]].
  pose proof (ZipFile_open_read_env t ZIP_STORED None w) as Henv.
  destruct (ZipFile_open t ModeR ZIP_STORED None w) as [[z|e] w1] eqn:Ho; simpl in *.
  2: { unfold with_ZipFile. simpl. rewrite Ho. simpl.
       split; [|done]. destruct Henv as [->| ->]; [by left|right; eauto]. }
  rewrite (with_ZipFile_read t _ _ _ (State i w) z w1 Ho (read_body_same_env file)).
  assert (preserves same_class_z
            (rebind_path file;;; try_except read_contents (λ e, raise (invalid_data e))))
    as Hcls.
  { apply preserves_bind; [apply _| |intros _].
    - intros zs. unfold rebind_path. by destruct (file_given file).
    - apply preserves_try_except; [apply _|apply read_contents_same_class|].
      intros e. apply preserves_raise, _. }
  specialize (Hcls (ZState z (State i w1))).
  destruct ((rebind_path file;;; _) _) as [r [z' [i' w']]].
  destruct Hcls as [Hc Hp]. simpl in *.
  split; [|done]. destruct Henv as [->| ->]; [by left|right; eauto].
Qed.

(** X7: [read] changes nothing around the instance: not a file, not a
    stream, not the cache, not the registry.  All it leaves in the world is, at
    most, the one log entry for the archive it opened; and the instance keeps
    its class and its [patched_path]. *)
Theorem read_is_read_only (file : option target) (i : instance) (w : world) :
  (env (read file (State i w)).2 = w
   ∨ ∃ t, file_or_path file (path i) = Some t
          ∧ env (read file (State i w)).2 = emit (EvZipOpen ModeR t) w)
  ∧ cls (self (read file (State i w)).2) = cls i
  ∧ patched_path (self (read file (State i w)).2) = patched_path i.
Proof. apply read_effect. Qed.
End ReadOnly.

Section ReadOutcomes.
Context `{!Externals}.

Lemma ZipFile_open_read_fails t w :
  content_of w t ≫= archive_members = None →
  ∃ e, ZipFile_open t ModeR ZIP_STORED None w = (Raise e, emit (EvZipOpen ModeR t) w)
       ∧ (e = no_such_file ∨ e = closed_file ∨ e = bad_zip_file).
Proof.
  unfold ZipFile_open. simpl. destruct t as [p|id]; simpl.
  - destruct (files w !! p) as [[b|ms]|]; simpl; [|done|eauto].
    intros ->. eauto 6.
  - destruct (streams w !! id) as [s|]; simpl; [|eauto 6].
    destruct (stream_content _ _) as [[b|ms]|]; simpl; [|done|eauto 6].
    intros ->. eauto 6.
Qed.

(** X8: how [read] fails.  With no file to read it raises its own
    [FileNotFoundError] and touches nothing.  When [zipfile] cannot open the
    file, its error (file missing, stream closed, not a zip file) is passed on
    as it is, and the instance is left unchanged, its path included.  Once the
    archive is open, [read] raises nothing but [InvalidDataError]. *)
Theorem read_failures (file : option target) (i : instance) (w : world) :
  match file_or_path file (path i) with
  | None =>
      read file (State i w)
      = (Raise (Exn FileNotFoundError
                  [PStr ("Cannot read " ++ class_name (cls i) ++ " due to no path provided.")]
                  None), State i w)
  | Some t =>
      match content_of w t ≫= archive_members with
      | None =>
          ∃ e, read file (State i w) = (Raise e, State i (emit (EvZipOpen ModeR t) w))
               ∧ (e = no_such_file ∨ e = closed_file ∨ e = bad_zip_file)
      | Some ms =>
          (read file (State i w)).1 = Ok tt
          ∨ ∃ e, (read file (State i w)).1 = Raise (invalid_data e)
      end
  end.
Proof.
  rewrite read_eq. destruct (file_or_path file (path i)) as [t|]; [|done].
  destruct (content_of w t ≫= archive_members) as [ms|] eqn:Hc.
  - destruct (content_of w t) as [c|] eqn:Hct; [|done]. simpl in Hc.
    rewrite (with_ZipFile_read t _ _ _ (State i w) _ _ (ZipFile_open_read t w c ms Hct Hc)
               (read_body_same_env file)). simpl.
    assert (∀ zs0, ((rebind_path file;;;
                     try_except read_contents (λ e, raise (invalid_data e))) zs0).1 = Ok tt
                   ∨ ∃ e, ((rebind_path file;;;
                            try_except read_contents (λ e, raise (invalid_data e))) zs0).1
                          = Raise (invalid_data e)) as Hbody.
    { intros zs0. unfold bind, rebind_path, try_except, modify, ret, raise.
      destruct (file_given file); simpl;
        match goal with |- context [read_contents ?zs] =>
          destruct (read_contents zs) as [[[]|e] zs'] end; simpl; eauto. }
    match goal with |- context [(rebind_path file;;; ?k) ?zs0] =>
      specialize (Hbody zs0); destruct ((rebind_path file;;; k) zs0) as [r zs1] end.
    exact Hbody.
  - destruct (ZipFile_open_read_fails t w Hc) as (e & He & Hkind).
    exists e. split; [|done]. unfold with_ZipFile. simpl. by rewrite He.
Qed.

(** X9: [read] lets a manifest pass whose [compatible_version] is the
    reader's [version] or lower, and then takes [player], [server] and
    [player_name] from it as they come; a delta patch takes its [delta] from
    the member [delta.bsdiff4], every other instance keeps the one it has.
    With a file argument [path] becomes the archive's [filename] (the path
    given, or the name of the file object, [None] if it has none); without
    one [path] stays. *)
Theorem read_populates file i w t c ms f manifest cv v p sv n :
  file_or_path file (path i) = Some t →
  content_of w t = Some c →
  archive_members c = Some ms →
  zip_member "archipelago.json" ms = Some f →
  json_load (z_data f) = Ok manifest →
  getitem manifest "compatible_version" = Ok (PInt cv) →
  class_attr b_version (cls i) = Some v →
  (cv ≤ v)%Z →
  getitem manifest "player" = Ok p →
  getitem manifest "server" = Ok sv →
  getitem manifest "player_name" = Ok n →
  (kind_of (cls i) = APDeltaPatch → is_Some (zip_member "delta.bsdiff4" ms)) →
  ∃ s', read file (State i w) = (Ok tt, s')
        ∧ player (self s') = p ∧ server (self s') = sv ∧ player_name (self s') = n
        ∧ delta (self s')
          = match kind_of (cls i) with
            | APDeltaPatch => z_data <$> zip_member "delta.bsdiff4" ms
            | _ => delta i
            end
        ∧ path (self s') = (if file_given file then filename_of w t else path i).
Proof.
  intros Ht Hc Hms Hf Hj Hcv Hv Hle Hp Hs Hn Hd.
  eexists. split.
  - eapply (read_ok file i w t c ms f manifest (PInt cv) v p sv n); try done.
    simpl. f_equal. apply Z.ltb_ge. lia.
  - by simpl.
Qed.

(** X10: [read] assigns the fields one after the other.  A manifest that has
    [player] and no [server] makes it raise [InvalidDataError] with the
    missing key in front of the message, when [player] has been overwritten
    already; [server] and [player_name] still hold what they held. *)
Theorem read_stops_at_missing_server file i w t c ms f d cv v p :
  file_or_path file (path i) = Some t →
  content_of w t = Some c →
  archive_members c = Some ms →
  zip_member "archipelago.json" ms = Some f →
  json_load (z_data f) = Ok (PDict d) →
  dict_get "compatible_version" d = Some (PInt cv) →
  class_attr b_version (cls i) = Some v →
  (cv ≤ v)%Z →
  dict_get "player" d = Some p →
  dict_get "server" d = None →
  ∃ s', read file (State i w)
        = (Raise (Exn InvalidDataError
                    [PStr "server - This might be the incorrect world version for this file"]
                    (Some (Exn KeyError [PStr "server"] None))), s')
        ∧ player (self s') = p
        ∧ server (self s') = server i
        ∧ player_name (self s') = player_name i
        ∧ delta (self s') = delta i.
Proof.
  intros Ht Hc Hms Hf Hj Hcv Hv Hle Hp Hs.
  rewrite read_eq, Ht. unfold with_ZipFile. simpl.
  rewrite (ZipFile_open_read t w c ms Hc Hms).
  assert (∀ s, cls (self s) = cls i →
            read_contents (ZState (ZipFile t (filename_of w t) ModeR ZIP_STORED None ms false) s)
            = (Raise (Exn KeyError [PStr "server"] None),
               ZState (ZipFile t (filename_of w t) ModeR ZIP_STORED None ms false)
                      (on_self (set_player p) s))) as Hrc.
  { intros s Hcls.
    assert (APContainer_read_contents
              (ZState (ZipFile t (filename_of w t) ModeR ZIP_STORED None ms false) s)
            = (Raise (Exn KeyError [PStr "server"] None),
               ZState (ZipFile t (filename_of w t) ModeR ZIP_STORED None ms false)
                      (on_self (set_player p) s))) as HC.
    { unfold APContainer_read_contents, bind, zf_read, lift_result, in_st, zoom, self_attr,
        getattr, modify.
      simpl. rewrite Hf, Hj. simpl. rewrite Hcv. destruct s as [i0 w0]. simpl in *.
      rewrite Hcls, Hv. simpl.
      replace (v <? cv)%Z with false by (symmetry; apply Z.ltb_ge; lia).
      by rewrite Hp, Hs. }
    unfold read_contents, APDeltaPatch_read_contents.
    unfold bind at 1, in_st at 1, zoom, gets. simpl.
    destruct (kind_of (cls (self s))); try exact HC.
    unfold bind at 1. by rewrite HC. }
  unfold bind at 1, rebind_path, try_except.
  destruct (file_given file); unfold modify, ret; simpl.
  - rewrite Hrc by done. simpl. eexists. split; [reflexivity|done].
  - rewrite Hrc by done. simpl. eexists. split; [reflexivity|done].
Qed.

(** X11: an archive without the member [archipelago.json] makes [read] raise
    [InvalidDataError], the message of [zipfile] in front, and no field of the
    instance is populated. *)
Theorem read_without_manifest file i w t c ms :
  file_or_path file (path i) = Some t →
  content_of w t = Some c →
  archive_members c = Some ms →
  zip_member "archipelago.json" ms = None →
  ∃ s', read file (State i w)
        = (Raise (Exn InvalidDataError
                    [PStr ("There is no item named 'archipelago.json' in the archive"
                           ++ " - This might be the incorrect world version for this file")]
                    (Some (Exn KeyError
                             [PStr "There is no item named 'archipelago.json' in the archive"]
                             None))), s')
        ∧ player (self s') = player i
        ∧ server (self s') = server i
        ∧ player_name (self s') = player_name i
        ∧ delta (self s') = delta i.
Proof.
  intros Ht Hc Hms Hf.
  rewrite read_eq, Ht. unfold with_ZipFile. simpl.
  rewrite (ZipFile_open_read t w c ms Hc Hms).
  assert (∀ s, read_contents (ZState (ZipFile t (filename_of w t) ModeR ZIP_STORED None ms false) s)
            = (Raise (Exn KeyError
                        [PStr "There is no item named 'archipelago.json' in the archive"]
                        None),
               ZState (ZipFile t (filename_of w t) ModeR ZIP_STORED None ms false) s)) as Hrc.
  { intros s.
    assert (APContainer_read_contents
              (ZState (ZipFile t (filename_of w t) ModeR ZIP_STORED None ms false) s)
            = (Raise (Exn KeyError
                        [PStr "There is no item named 'archipelago.json' in the archive"]
                        None),
               ZState (ZipFile t (filename_of w t) ModeR ZIP_STORED None ms false) s)) as HC.
    { unfold APContainer_read_contents, bind, zf_read. simpl. by rewrite Hf. }
    unfold read_contents, APDeltaPatch_read_contents.
    unfold bind at 1, in_st at 1, zoom, gets. simpl.
    destruct (kind_of (cls (self s))); try exact HC.
    unfold bind at 1. by rewrite HC. }
  unfold bind at 1, rebind_path, try_except.
  destruct (file_given file); unfold modify, ret; simpl.
  - rewrite Hrc. simpl. eexists. split; [reflexivity|done].
  - rewrite Hrc. simpl. eexists. split; [reflexivity|done].
Qed.
End ReadOutcomes.

(** X8 on a file that does not exist. *)
Lemma read_failures_witness :
  ∃ e, @read Reference.externals (Some (Path "missing.zip"))
             (State Examples.a_bound_container Examples.empty_world)
       = (Raise e, State Examples.a_bound_container
                         (emit (EvZipOpen ModeR (Path "missing.zip")) Examples.empty_world))
       ∧ (e = no_such_file ∨ e = closed_file ∨ e = bad_zip_file).
Proof.
  apply (@read_failures Reference.externals (Some (Path "missing.zip"))
           Examples.a_bound_container Examples.empty_world).
Defined.

(** X9 at the bound: a patch archive, which asks for version 6, read by a
    class of version 6. *)
Lemma read_populates_witness :
  ∃ s', @read Reference.externals (Some (Path "patch.zip"))
              (State MoreExamples.a_patch_reader (env MoreExamples.written_patch_container))
        = (Ok tt, s')
        ∧ player (self s') = PInt 2 ∧ server (self s') = PStr "localhost"
        ∧ player_name (self s') = PStr "Bob"
        ∧ delta (self s') = None
        ∧ path (self s') = Some "patch.zip".
Proof.
  eapply (@read_populates Reference.externals (Some (Path "patch.zip"))
            MoreExamples.a_patch_reader (env MoreExamples.written_patch_container)
            (Path "patch.zip") _ _ _ _ 6%Z 6%Z).
  - reflexivity.
  - vm_compute. reflexivity.
  - reflexivity.
  - reflexivity.
  - vm_compute. reflexivity.
  - reflexivity.
  - reflexivity.
  - lia.
  - reflexivity.
  - reflexivity.
  - reflexivity.
  - discriminate.
Defined.

(** X10 on an archive whose manifest names a player and no server. *)
Lemma read_stops_at_missing_server_witness :
  ∃ s', @read Reference.externals (Some (Path "short.zip"))
              (State Examples.a_bound_container MoreExamples.short_world)
        = (Raise (Exn InvalidDataError
                    [PStr "server - This might be the incorrect world version for this file"]
                    (Some (Exn KeyError [PStr "server"] None))), s')
        ∧ player (self s') = PInt 4
        ∧ server (self s') = PStr "archipelago.gg:38281"
        ∧ player_name (self s') = PStr "Alice"
        ∧ delta (self s') = None.
Proof.
  eapply (@read_stops_at_missing_server Reference.externals (Some (Path "short.zip"))
            Examples.a_bound_container MoreExamples.short_world (Path "short.zip")
            _ _ _ _ 5%Z 6%Z).
  - reflexivity.
  - vm_compute. reflexivity.
  - reflexivity.
  - reflexivity.
  - vm_compute. reflexivity.
  - reflexivity.
  - reflexivity.
  - lia.
  - reflexivity.
  - reflexivity.
Defined.

(** X11 on an archive with no member at all. *)
Lemma read_without_manifest_witness :
  ∃ s', @read Reference.externals None
              (State (APContainer_init (Builtin APContainer) (Some "empty.zip") (Some 3%Z)
                                       "Alice" "archipelago.gg:38281")
                     MoreExamples.short_world)
        = (Raise (Exn InvalidDataError
                    [PStr ("There is no item named 'archipelago.json' in the archive"
                           ++ " - This might be the incorrect world version for this file")]
                    (Some (Exn KeyError
                             [PStr "There is no item named 'archipelago.json' in the archive"]
                             None))), s')
        ∧ player (self s') = PInt 3
        ∧ server (self s') = PStr "archipelago.gg:38281"
        ∧ player_name (self s') = PStr "Alice"
        ∧ delta (self s') = None.
Proof.
  eapply (@read_without_manifest Reference.externals None
            (APContainer_init (Builtin APContainer) (Some "empty.zip") (Some 3%Z)
                              "Alice" "archipelago.gg:38281")
            MoreExamples.short_world (Path "empty.zip")).
  - reflexivity.
  - vm_compute. reflexivity.
  - reflexivity.
  - reflexivity.
Defined.

(** ** The semaphore *)

#[global] Instance logs_no_semaphore_preorder : PreOrder logs_no_semaphore.
Proof.
  split.
  - intros w. exists []. split; [by rewrite app_nil_r|constructor].
  - intros w1 w2 w3 (e1 & H1 & F1) (e2 & H2 & F2). exists (e1 ++ e2)%list.
    split; [by rewrite H2, H1, app_assoc|by apply Forall_app].
Qed.

#[global] Instance logs_no_semaphore_s_preorder : PreOrder logs_no_semaphore_s.
Proof.
  split; [intros s; unfold logs_no_semaphore_s; reflexivity|].
  intros s1 s2 s3. unfold logs_no_semaphore_s. apply transitivity.
Qed.

#[global] Instance logs_no_semaphore_z_preorder : PreOrder logs_no_semaphore_z.
Proof.
  split; [intros s; unfold logs_no_semaphore_z; reflexivity|].
  intros s1 s2 s3. unfold logs_no_semaphore_z. apply transitivity.
Qed.



Section Semaphore.
Context `{!Externals}.





















End Semaphore.

(** ** What [write] does to the files *)

Lemma store_kept_refl w : store_kept w w.
Proof. by repeat split. Qed.

Lemma store_kept_trans w1 w2 w3 : store_kept w1 w2 → store_kept w2 w3 → store_kept w1 w3.
Proof.
  intros (? & ? & ? & ? & ?) (? & ? & ? & ? & ?). repeat split; congruence.
Qed.

Lemma store_kept_written_at t w w' : store_kept w w' → written_at t w w'.
Proof. intros (Hf & Hs & ? & ? & ?). by apply written_at_kept. Qed.

Section WriteEffect.
Context `{!Externals}.

Lemma get_source_data_with_cache_kept c w :
  store_kept w (get_source_data_with_cache c w).2.
Proof.
  pose proof (get_source_data_with_cache_env c w) as Hc.
  destruct (get_source_data_with_cache c w) as [r w']. simpl.
  destruct Hc as (? & ? & ? & ? & ? & _). by repeat split.
Qed.

Lemma ZipFile_open_write_cases t m l w :
  ∃ r w1, ZipFile_open t ModeW m l w = (r, w1)
    ∧ match r with
      | Ok z => writable w t m
                ∧ z = ZipFile t (filename_of w t) ModeW m l [] false
                ∧ written_at t w w1
                ∧ source_data w1 = source_data w
      | Raise _ => ¬ writable w t m ∧ store_kept w w1
      end.
Proof.
  destruct (ZipFile_open t ModeW m l w) as [[z|e] w1] eqn:Ho;
    [exists (Ok z), w1|exists (Raise e), w1]; (split; [done|]).
  - destruct (ZipFile_open_write_inv _ _ _ _ _ _ Ho) as (-> & Hat & Hsd & Hvalid).
    split; [|done]. revert Ho. unfold ZipFile_open, writable.
    destruct (check_compression m) as [[]|e]; [|done]. split; [done|].
    destruct t as [p|id]; [|done]. simpl in Ho. by case_decide.
  - revert Ho. unfold ZipFile_open, writable.
    destruct (check_compression m) as [[]|e'] eqn:Hc.
    2: { intros [= <- <-]. split; [by intros [[=] _]|apply store_kept_refl]. }
    destruct t as [p|id]; simpl.
    + case_decide as Hp; [|done]. intros [= <- <-]. split; [by intros [_ ?]|by repeat split].
    + destruct (streams w !! id) as [s|] eqn:Hs; simpl; [done|].
      intros [= <- <-]. split; [|by repeat split]. intros [_ [? ?]]. done.
Qed.

Lemma can_open_writable i w t m :
  class_attr b_compression_method (cls i) = Some m →
  can_open Writing i w t ↔ writable w t m.
Proof.
  intros Hm. unfold can_open, writable. split.
  - intros [(m' & Hm' & Hc) Ht]. rewrite Hm in Hm'. by injection Hm' as <-.
  - intros [Hc Ht]. split; [by eauto|done].
Qed.

(** [write] on a destination that can be opened: the archive is opened, the
    path rebound, [write_contents] run, the archive closed and the semaphore
    released. *)
Lemma write_opened file i w dest m l :
  file_or_path file (path i) = Some dest →
  can_open Writing i w dest →
  class_attr b_compression_method (cls i) = Some m →
  class_attr b_compression_level (cls i) = Some l →
  ∃ p w1,
    written_at dest w w1 ∧ source_data w1 = source_data w
    ∧ write file (State i w)
      = let '(r, zs) := write_contents
                          (ZState (ZipFile dest (filename_of w dest) ModeW m (Some l) [] false)
                                  (State (set_path p i) w1)) in
        match ZipFile_close (zf zs) (env (st zs)) with
        | (Ok _, w') => (r, State (self (st zs)) (emit EvRelease w'))
        | (Raise e, w') => (Raise e, State (self (st zs)) (emit EvRelease w'))
        end.
Proof.
  intros Hdest Hcan Hm Hl. rewrite write_eq, Hdest.
  unfold with_semaphore, bind at 1, modify, finally. simpl.
  rewrite (write_body_eq file dest (on_env (emit EvAcquire) (State i w)) m l Hm Hl).
  unfold with_ZipFile. simpl.
  destruct (ZipFile_open_write_cases dest m (Some l) (emit EvAcquire w))
    as (ro & w1 & -> & Ho).
  destruct ro as [z|e].
  2: { destruct Ho as [Hno _]. destruct Hno.
       by apply (can_open_writable i (emit EvAcquire w) dest m Hm). }
  destruct Ho as (_ & -> & Hat & Hsd).
  unfold bind at 1.
  assert (∃ p, (rebind_path file
                 (ZState (ZipFile dest (filename_of (emit EvAcquire w) dest) ModeW m
                                  (Some l) [] false)
                         (State i w1)))
               = (Ok tt, ZState (ZipFile dest (filename_of (emit EvAcquire w) dest) ModeW m
                                         (Some l) [] false)
                                (State (set_path p i) w1))) as [p ->].
  { unfold rebind_path. destruct (file_given file); [by eexists|].
    exists (path i). by destruct i. }
  exists p, w1. split.
  { eapply written_at_trans; [|exact Hat]. by apply written_at_kept. }
  split; [done|].
  change (filename_of (emit EvAcquire w) dest) with (filename_of w dest).
  destruct (write_contents _) as [r zs].
  by destruct (ZipFile_close _ _) as [[[]|e] w'].
Qed.

Lemma APContainer_write_contents_cases z s :
  ∃ r z' w',
    APContainer_write_contents (ZState z s) = (r, ZState z' (State (self s) w'))
    ∧ zf_file z' = zf_file z ∧ zf_mode z' = zf_mode z
    ∧ written_at (zf_file z) (env s) w'
    ∧ match r with
      | Ok _ =>
          zf_writing z' = false ∧ zf_mode z = ModeW
          ∧ ∃ m, z_name m = "archipelago.json"
                 ∧ zf_members z' = (zf_members z ++ [m])%list
      | Raise _ =>
          (z' = z ∧ w' = env s)
          ∨ (zf_writing z' = true
             ∧ is_Some (compressor_error (zf_compression z) (zf_compresslevel z))
             ∧ ∃ b, w' = store (zf_file z) (Raw b) (env s))
      end.
Proof.
  assert (∀ r, (∃ e, r = @Raise unit e) →
            ∃ r0 z' w', (r, ZState z s) = (r0, ZState z' (State (self s) w'))
              ∧ zf_file z' = zf_file z ∧ zf_mode z' = zf_mode z
              ∧ written_at (zf_file z) (env s) w'
              ∧ match r0 with
                | Ok _ =>
                    zf_writing z' = false ∧ zf_mode z = ModeW
                    ∧ ∃ m, z_name m = "archipelago.json"
                           ∧ zf_members z' = (zf_members z ++ [m])%list
                | Raise _ =>
                    (z' = z ∧ w' = env s)
                    ∨ (zf_writing z' = true
                       ∧ is_Some (compressor_error (zf_compression z) (zf_compresslevel z))
                       ∧ ∃ b, w' = store (zf_file z) (Raw b) (env s))
                end) as Hsame.
  { intros r [e ->]. exists (Raise e), z, (env s). destruct s. simpl.
    split; [done|]. split; [done|]. split; [done|]. split; [apply written_at_refl|].
    by left. }
  unfold APContainer_write_contents, bind, in_st, zoom. simpl.
  rewrite (get_manifest_eq s). simpl.
  destruct (get_manifest s).1 as [manifest|e]; [|apply Hsame; eauto].
  destruct (json_dumps (PDict manifest)) as [text|e]; [|apply Hsame; eauto].
  unfold writestr. simpl.
  destruct (zf_mode z) eqn:Hmode; [apply Hsame; eauto|].
  destruct (zf_writing z) eqn:Hwr; [apply Hsame; eauto|].
  destruct (compressor_error (zf_compression z) (zf_compresslevel z)) as [e|] eqn:Hce.
  - eexists _, _, _. split; [reflexivity|]. simpl. split; [done|]. split; [done|].
    split; [apply store_written_at|]. right. split; [done|]. split; [by eauto|]. by eexists.
  - eexists _, _, _. split; [reflexivity|]. simpl. split; [done|]. split; [done|].
    split; [apply store_written_at|]. split; [done|]. split; [done|].
    eexists. split; [|reflexivity]. reflexivity.
Qed.

(** [write_contents], however it ends: it adds members to the archive and
    changes nothing but what the archive is written to, the cache and the
    log.  When it raises, either the archive can still be closed and has no
    member [delta.bsdiff4], or the compressor of the manifest member could
    not be made. *)
Lemma write_contents_cases z s :
  zf_writing z = false →
  ∃ r z' w',
    write_contents (ZState z s) = (r, ZState z' (State (self s) w'))
    ∧ zf_file z' = zf_file z ∧ zf_mode z' = zf_mode z
    ∧ written_at (zf_file z) (env s) w'
    ∧ match r with
      | Ok _ => zf_writing z' = false
      | Raise _ =>
          (zf_writing z' = false
           ∧ (zf_members z' = zf_members z
              ∨ (kind_of (cls (self s)) = APDeltaPatch
                 ∧ ∃ m, z_name m = "archipelago.json"
                        ∧ zf_members z' = (zf_members z ++ [m])%list)))
          ∨ (zf_writing z' = true
             ∧ is_Some (compressor_error (zf_compression z) (zf_compresslevel z))
             ∧ ∃ b, w' = store (zf_file z) (Raw b) (env s))
      end.
Proof.
  intros Hwr0.
  destruct (APContainer_write_contents_cases z s)
    as (r & z1 & w1 & HC & Hfile & Hmode & Hat & Hr).
  assert (∃ r z' w',
            APContainer_write_contents (ZState z s) = (r, ZState z' (State (self s) w'))
            ∧ zf_file z' = zf_file z ∧ zf_mode z' = zf_mode z
            ∧ written_at (zf_file z) (env s) w'
            ∧ match r with
              | Ok _ => zf_writing z' = false
              | Raise _ =>
                  (zf_writing z' = false
                   ∧ (zf_members z' = zf_members z
                      ∨ (kind_of (cls (self s)) = APDeltaPatch
                         ∧ ∃ m, z_name m = "archipelago.json"
                                ∧ zf_members z' = (zf_members z ++ [m])%list)))
                  ∨ (zf_writing z' = true
                     ∧ is_Some (compressor_error (zf_compression z) (zf_compresslevel z))
                     ∧ ∃ b, w' = store (zf_file z) (Raw b) (env s))
              end) as Hplain.
  { exists r, z1, w1. split; [done|]. split; [done|]. split; [done|]. split; [done|].
    destruct r as [[]|e]; [by destruct Hr|].
    destruct Hr as [[-> ->]|?]; [left; by auto|by right]. }
  unfold write_contents, bind at 1, in_st at 1, zoom, gets. simpl.
  destruct (kind_of (cls (self s))) eqn:Hk; try exact Hplain.
  unfold APDeltaPatch_write_contents. unfold bind at 1. rewrite HC.
  destruct r as [[]|e].
  2: { clear Hplain. exists (Raise e), z1, w1.
       split; [done|]. split; [done|]. split; [done|]. split; [done|].
       destruct Hr as [[-> ->]|?]; [left; by auto|by right]. }
  clear Hplain. destruct Hr as (Hwr1 & HmodeW & m & Hname & Hmem).
  assert (zf_mode z1 = ModeW) as Hmode1 by congruence.
  unfold bind, in_st, in_env, zoom, gets. simpl.
  pose proof (get_source_data_with_cache_kept (cls (self s)) w1) as Hg.
  destruct (get_source_data_with_cache (cls (self s)) w1) as [[src|e] w2]; simpl in *.
  2: { exists (Raise e), z1, w2. split; [done|]. split; [done|]. split; [done|].
       split; [eapply written_at_trans; [exact Hat|by apply store_kept_written_at]|].
       left. split; [done|]. right. eauto. }
  assert (written_at (zf_file z) (env s) (emit (EvOpen (patched_path (self s)) "rb") w2))
    as Hat2.
  { eapply written_at_trans; [exact Hat|].
    eapply written_at_trans; [by apply store_kept_written_at|by apply written_at_kept]. }
  unfold read_file. simpl.
  destruct (files w2 !! patched_path (self s)) as [c|]; simpl.
  2: { eexists _, z1, _. split; [reflexivity|]. split; [done|]. split; [done|].
       split; [exact Hat2|]. left. split; [done|]. right. eauto. }
  destruct (str_truthy (patched_path (self s))); simpl.
  2: { eexists _, z1, _. split; [reflexivity|]. split; [done|]. split; [done|].
       split; [exact Hat2|]. left. split; [done|]. right. eauto. }
  unfold writestr. simpl. rewrite Hmode1, Hwr1, compressor_error_stored. simpl.
  eexists _, _, _. split; [reflexivity|]. simpl. split; [done|]. split; [by rewrite Hmode1|].
  split; [|done]. rewrite Hfile.
  eapply written_at_trans; [exact Hat2|]. apply store_written_at.
Qed.

(** [write] with a destination, however it ends. *)
Lemma write_cases file i w dest m l :
  file_or_path file (path i) = Some dest →
  class_attr b_compression_method (cls i) = Some m →
  class_attr b_compression_level (cls i) = Some l →
  ∃ r p w1, write file (State i w) = (r, State (set_path p i) w1)
    ∧ written_at dest w w1
    ∧ match r with
      | Ok _ => True
      | Raise e =>
          (¬ can_open Writing i w dest ∧ store_kept w w1 ∧ p = path i)
          ∨ (can_open Writing i w dest
             ∧ ∃ ms, content_of w1 dest = Some (Archive ms)
                     ∧ (ms = []
                        ∨ (kind_of (cls i) = APDeltaPatch
                           ∧ ∃ mm, z_name mm = "archipelago.json" ∧ ms = [mm])))
          ∨ (can_open Writing i w dest
             ∧ e = still_writing
             ∧ is_Some (compressor_error m (Some l))
             ∧ ∃ b, content_of w1 dest = Some (Raw b))
      end.
Proof.
  intros Hdest Hm Hl.
  destruct (ZipFile_open_write_cases dest m (Some l) (emit EvAcquire w))
    as (ro & w0 & Ho & Hro).
  destruct ro as [z|e].
  2: { destruct Hro as [Hnot Hkept]. exists (Raise e), (path i), (emit EvRelease w0).
       split.
       { rewrite write_eq, Hdest.
         unfold with_semaphore, bind at 1, modify, finally. simpl.
         rewrite (write_body_eq file dest (on_env (emit EvAcquire) (State i w)) m l Hm Hl).
         unfold with_ZipFile. simpl. rewrite Ho. by destruct i. }
       assert (store_kept w (emit EvRelease w0)) as Hk
         by (destruct Hkept as (? & ? & ? & ? & ?); by repeat split).
       split; [by apply store_kept_written_at|]. left. split; [|done].
       rewrite (can_open_writable i w dest m Hm). exact Hnot. }
  destruct Hro as (Hwr & _ & _ & _).
  assert (can_open Writing i w dest) as Hcan by (by apply (can_open_writable i w dest m Hm)).
  assert (match dest with
          | Path _ => True
          | FileObj id => is_Some (streams w !! id)
          end) as Hvalid by (destruct Hwr as [_ Hv]; by destruct dest).
  destruct (write_opened file i w dest m l Hdest Hcan Hm Hl) as (p & w1 & Hat1 & _ & ->).
  match goal with |- context [write_contents (ZState ?z ?s)] =>
    destruct (write_contents_cases z s eq_refl)
      as (r & z' & w' & -> & Hfile & Hmode & Hat & Hr)
  end.
  simpl in *.
  assert (written_at dest w w') as Hat' by (eapply written_at_trans; [exact Hat1|exact Hat]).
  assert (match dest with
          | Path _ => True
          | FileObj id => is_Some (streams w' !! id)
          end) as Hvalid'.
  { destruct dest as [q|id]; [done|]. by apply (written_at_is_Some _ _ _ _ Hat'). }
  unfold ZipFile_close. rewrite Hmode.
  destruct (zf_writing z') eqn:Hwr'.
  - destruct r as [[]|e]; [done|]. destruct Hr as [[? _]|(_ & Hce & b & ->)]; [done|].
    exists (Raise still_writing), p, (emit EvRelease (store dest (Raw b) w1)).
    split; [done|]. split.
    { eapply written_at_trans; [exact Hat'|by apply written_at_kept]. }
    right. right. split; [done|]. split; [done|]. split; [done|]. exists b.
    change (content_of (emit EvRelease (store dest (Raw b) w1)) dest)
      with (content_of (store dest (Raw b) w1) dest).
    apply store_content. destruct dest as [q|id]; [done|].
    by apply (written_at_is_Some _ _ _ _ Hat1).
  - exists r, p, (emit EvRelease (store (zf_file z') (Archive (zf_members z')) w')).
    split; [done|]. rewrite Hfile. split.
    { eapply written_at_trans; [exact Hat'|].
      eapply written_at_trans; [apply store_written_at|by apply written_at_kept]. }
    destruct r as [[]|e]; [done|]. right. left. split; [done|].
    exists (zf_members z'). split.
    + change (content_of (emit EvRelease (store dest (Archive (zf_members z')) w')) dest)
        with (content_of (store dest (Archive (zf_members z')) w') dest).
      by apply store_content.
    + destruct Hr as [[_ [->|(Hk & mm & Hname & ->)]]|[? _]]; [by left|right; eauto|done].
Qed.

(** X13: [write] touches what its destination holds, the file of a path or
    of a file object opened from a path, or an in-memory stream, and
    otherwise only the cache and the log; every other file and file-like
    object, the registry and what the system refuses to write stay as they
    are, whether [write] returns or raises.  Of the instance it changes the
    [path] at most. *)
Theorem write_touches_only_destination (file : option target) (i : instance) (w : world) :
  untouched (file_or_path file (path i)) w (env (write file (State i w)).2)
  ∧ ∃ p, self (write file (State i w)).2 = set_path p i.
Proof.
  destruct (file_or_path file (path i)) as [dest|] eqn:Hdest.
  - destruct (compression_defined (cls i)) as [[m Hm] [l Hl]].
    destruct (write_cases file i w dest m l Hdest Hm Hl) as (r & p & w1 & -> & Hat & _).
    split; [exact Hat|by exists p].
  - rewrite write_eq, Hdest. simpl.
    split; [apply store_kept_refl|].
    exists (path i). by destruct i.
Qed.

(** Beside X13: a file object opened from the path [named.zip] is that file.
    The archive written to the object is what the file holds afterwards, and
    the table of file objects is as it was. *)
Lemma write_to_file_object_changes_file :
  let w := MoreExamples.file_object_world in
  let w' := env (@write Reference.externals (Some (FileObj 0))
                   (State Examples.a_container w)).2 in
  files w !! "named.zip" = Some (Raw [])
  ∧ (∃ ms, files w' !! "named.zip" = Some (Archive ms)
           ∧ content_of w' (FileObj 0) = Some (Archive ms))
  ∧ streams w' = streams w.
Proof.
  split; [reflexivity|]. split; [|by vm_compute].
  eexists. split; vm_compute; reflexivity.
Qed.

End WriteEffect.


(** ** What [patch] does to the files *)

Section PatchEffect.
Context `{!Externals}.

Lemma before_applying_kept i w :
  store_kept w (env (before_applying i w).2)
  ∧ source_data (env (before_applying i w).2) = source_data w
  ∧ cls (self (before_applying i w).2) = cls i
  ∧ patched_path (self (before_applying i w).2) = patched_path i.
Proof.
  assert (store_kept w (env (read None (State i w)).2)
          ∧ source_data (env (read None (State i w)).2) = source_data w
          ∧ cls (self (read None (State i w)).2) = cls i
          ∧ patched_path (self (read None (State i w)).2) = patched_path i) as Hread.
  { destruct (read_effect None i w) as ([->|(t & _ & ->)] & Hc & Hp);
      (split; [by repeat split|]); by repeat split. }
  unfold before_applying. destruct (delta i) as [[|b d]|]; try exact Hread.
  simpl. split; [apply store_kept_refl|done].
Qed.

(** X15: [patch] writes one file, [target], and only when it returns: a
    [patch] that raises has changed no file.  The streams, the registry and
    the class of the instance it never changes.  When it returns, [target]
    holds the bytes [bsdiff4.patch] made of the base data now cached for the
    class and of the delta now loaded. *)
Theorem patch_writes_target_only (target : string) (i : instance) (w : world) :
  streams (env (patch target (State i w)).2) = streams w
  ∧ unwritable (env (patch target (State i w)).2) = unwritable w
  ∧ patch_types (env (patch target (State i w)).2) = patch_types w
  ∧ file_endings (env (patch target (State i w)).2) = file_endings w
  ∧ cls (self (patch target (State i w)).2) = cls i
  ∧ match (patch target (State i w)).1 with
    | Raise _ => files (env (patch target (State i w)).2) = files w
    | Ok _ =>
        ∃ src d result,
          cached_source_data (source_data (env (patch target (State i w)).2)) (cls i)
          = Some src
          ∧ delta (self (patch target (State i w)).2) = Some d
          ∧ bsdiff4_patch src d = Ok result
          ∧ files (env (patch target (State i w)).2) = <[target := Raw result]> (files w)
    end.
Proof.
  rewrite patch_eq.
  destruct (before_applying_kept i w) as ((Hf & Hs & Hu & Hp & He) & _ & Hc & _).
  destruct (before_applying i w) as [[[]|e] [i' w']]; simpl in *; [|done].
  pose proof (get_source_data_with_cache_env (cls i') w') as Hg.
  destruct (get_source_data_with_cache (cls i') w') as [[src|e] w1]; simpl.
  2: { destruct Hg as (? & ? & ? & ? & ? & _). repeat split; congruence. }
  destruct Hg as (Hf1 & Hs1 & Hu1 & Hp1 & He1 & Hcached).
  specialize (Hcached src eq_refl).
  destruct (delta i') as [d|] eqn:Hd; simpl; [|repeat split; congruence].
  destruct (bsdiff4_patch src d) as [result|e] eqn:Hr; simpl; [|repeat split; congruence].
  unfold write_file. destruct (negb (str_truthy target)); simpl; [repeat split; congruence|].
  case_decide; simpl; [repeat split; congruence|].
  split; [congruence|]. split; [congruence|]. split; [congruence|]. split; [congruence|].
  split; [congruence|]. exists src, d, result. rewrite <- Hc.
  split; [done|]. split; [done|]. split; [done|]. congruence.
Qed.
End PatchEffect.

(** ** When [write] returns *)

Section WriteReturns.
Context `{!Externals}.





End WriteReturns.


(** ** From [write] to [patch] *)

Section WritePatch.
Context `{!Externals}.

(** X17: base + delta -> patched.  A delta patch is written to the path [p];
    a fresh object of the same class, bound to [p] and holding no delta,
    patches to [target].  If [bsdiff4.patch] undoes [bsdiff4.diff] on the
    cached base data and the patched file, [patch] returns and [target]
    holds the bytes of the file [patched_path] named when the patch was
    written; the object now has the player, the name and the server of the
    writer. *)
Theorem written_patch_applies file i w s1 p v reader target c :
  kind_of (cls i) = APDeltaPatch →
  write file (State i w) = (Ok tt, s1) →
  file_or_path file (path i) = Some (Path p) →
  p ≠ patched_path i →
  files w !! patched_path i = Some c →
  class_attr b_version (cls i) = Some v →
  (container_version ≤ v)%Z →
  manifest_survives_json i w →
  (∀ src, cached_source_data (source_data (env s1)) (cls i) = Some src →
          bsdiff4_patch src (bsdiff4_diff src (content_bytes c)) = Ok (content_bytes c)) →
  cls reader = cls i →
  path reader = Some p →
  delta reader = None →
  str_truthy target = true →
  target ∉ unwritable w →
  ∃ s2, patch target (State reader (env s1)) = (Ok tt, s2)
        ∧ files (env s2) !! target = Some (Raw (content_bytes c))
        ∧ player (self s2) = player i
        ∧ player_name (self s2) = player_name i
        ∧ server (self s2) = server i.
Proof.
  intros Hk Hw Hdest Hne Hc Hv Hle Hjson Hround Hcls Hpath Hnodelta Htarget Hwritable.
  pose proof (file_or_path_given _ _ _ Hdest) as Hgiven. simpl in Hgiven.
  destruct (write_inv file i w s1 (Path p) Hw Hdest)
    as (manifest & text & m & l & extra & Hman & Hj & Hm & Hl & Hcontent & Hself & Hat
        & Hextra).
  rewrite Hk in Hextra. destruct Hextra as (src & patched & -> & Hsrc & Hc').
  rewrite decide_False in Hc' by (simpl; congruence).
  destruct Hc' as (c' & Hc' & ->). rewrite Hc in Hc'. injection Hc' as <-.
  destruct Hat as (_ & _ & _ & _ & Hunw & _).
  destruct s1 as [i1 w1]. simpl in *.
  specialize (Hjson manifest text Hman Hj).
  destruct (get_manifest_entries _ _ Hman) as (Hp & Hs & Hn & cv & Hcv & Hcvle).
  simpl in Hp, Hs, Hn.
  assert (read None (State reader w1)
          = (Ok tt,
             State (after_read reader (path reader) (player i) (player_name i) (server i)
                      (Some (bsdiff4_diff src (content_bytes c))))
                   (emit (EvZipOpen ModeR (Path p)) w1))) as Hread.
  { erewrite (read_ok None reader w1 (Path p) _ _ _ (PDict manifest) (PInt cv) v);
      [|by unfold file_or_path; simpl; rewrite Hpath, Hgiven|exact Hcontent|reflexivity
       |reflexivity|exact Hjson
       |simpl; by rewrite Hcv|by rewrite Hcls
       |simpl; f_equal; apply Z.ltb_ge; lia
       |simpl; by rewrite Hp|simpl; by rewrite Hs|simpl; by rewrite Hn
       |intros _; simpl; by eexists].
    simpl. by rewrite Hcls, Hk. }
  rewrite patch_eq. unfold before_applying. rewrite Hnodelta, Hread. simpl.
  rewrite Hcls.
  rewrite (get_source_data_with_cache_cached (cls i) _ src Hk) by exact Hsrc.
  rewrite (Hround src Hsrc). unfold write_file. rewrite Htarget. simpl.
  rewrite decide_False by (by rewrite Hunw).
  eexists. split; [reflexivity|]. simpl. split; [by rewrite lookup_insert_eq|done].
Qed.
End WritePatch.

(** X17 on the patch above: written to [out.aprom], applied to
    [result.rom] by a fresh object. *)
Lemma written_patch_applies_witness :
  ∃ s2, @patch Reference.externals "result.rom"
               (State MoreExamples.a_rom_patch_reader (env MoreExamples.written_rom_patch))
        = (Ok tt, s2)
        ∧ files (env s2) !! "result.rom" = Some (Raw Examples.patched_rom)
        ∧ player (self s2) = PInt 1
        ∧ player_name (self s2) = PStr "Alice"
        ∧ server (self s2) = PStr "archipelago.gg:38281".
Proof.
  apply (@written_patch_applies Reference.externals None MoreExamples.a_rom_patch
           MoreExamples.roms_world MoreExamples.written_rom_patch "out.aprom" 6%Z
           MoreExamples.a_rom_patch_reader "result.rom" (Raw Examples.patched_rom)).
  - reflexivity.
  - vm_compute. reflexivity.
  - reflexivity.
  - discriminate.
  - reflexivity.
  - reflexivity.
  - reflexivity.
  - intros manifest text Hman Hj. vm_compute in Hman. injection Hman as <-.
    vm_compute in Hj. injection Hj as <-. vm_compute. reflexivity.
  - intros src Hsrc. vm_compute in Hsrc. injection Hsrc as <-. vm_compute. reflexivity.
  - reflexivity.
  - reflexivity.
  - reflexivity.
  - reflexivity.
  - vm_compute. set_solver.
Defined.

(** ** Failures [write] passes on *)

Section WriteFailures.
Context `{!Externals}.

(** X18: a manifest [json.dumps] refuses.  [write] raises an [Exception]
    that names the manifest and has the failure of [json.dumps] as its
    cause; by then the destination has been opened, and it is left as an
    archive with no member. *)
Theorem unserializable_manifest file i w dest manifest e :
  file_or_path file (path i) = Some dest →
  can_open Writing i w dest →
  (get_manifest (State i w)).1 = Ok manifest →
  json_dumps (PDict manifest) = Raise e →
  ∃ s1, write file (State i w)
        = (Raise (Exn Exception
                      [PStr ("Manifest " ++ py_repr (PDict manifest)
                             ++ " did not convert to json.")]
                      (Some e)), s1)
        ∧ content_of (env s1) dest = Some (Archive []).
Proof.
  intros Hdest Hcan Hman Hj.
  destruct (compression_defined (cls i)) as [[m Hm] [l Hl]].
  destruct (write_opened file i w dest m l Hdest Hcan Hm Hl)
    as (p & w1 & Hat & _ & ->).
  assert (∀ z s, (get_manifest s).1 = Ok manifest →
            write_contents (ZState z s)
            = (Raise (Exn Exception
                          [PStr ("Manifest " ++ py_repr (PDict manifest)
                                 ++ " did not convert to json.")]
                          (Some e)), ZState z s)) as Hwc.
  { intros z s Hs'.
    assert (APContainer_write_contents (ZState z s)
            = (Raise (Exn Exception
                          [PStr ("Manifest " ++ py_repr (PDict manifest)
                                 ++ " did not convert to json.")]
                          (Some e)), ZState z s)) as HC.
    { unfold APContainer_write_contents, bind, in_st, zoom. simpl.
      rewrite (get_manifest_eq s), Hs'. simpl. by rewrite Hj. }
    unfold write_contents, bind at 1, in_st at 1, zoom, gets. simpl.
    destruct (kind_of (cls (self s))); try exact HC.
    unfold APDeltaPatch_write_contents. unfold bind at 1. by rewrite HC. }
  rewrite Hwc by (rewrite <- Hman; by apply get_manifest_fields).
  eexists. split; [reflexivity|]. simpl.
  change (content_of (emit EvRelease (store dest (Archive []) w1)) dest)
    with (content_of (store dest (Archive []) w1) dest).
  apply store_content. destruct dest as [q|id]; [done|].
  apply (written_at_is_Some _ _ _ _ Hat). by destruct Hcan as [_ ?].
Qed.
End WriteFailures.

(** X18 on a container whose player is a byte string. *)
Lemma unserializable_manifest_witness :
  ∃ s1,
    @write Reference.externals None (State MoreExamples.a_bytes_player Examples.empty_world)
    = (Raise (Exn Exception
                  [PStr ("Manifest "
                         ++ @py_repr Reference.externals (PDict MoreExamples.bytes_manifest)
                         ++ " did not convert to json.")]
                  (Some (Reference.not_serializable (PBytes (Examples.B "one"))))), s1)
    ∧ content_of (env s1) (Path "bad.zip") = Some (Archive []).
Proof.
  apply (@unserializable_manifest Reference.externals None MoreExamples.a_bytes_player
           Examples.empty_world (Path "bad.zip") MoreExamples.bytes_manifest
           (Reference.not_serializable (PBytes (Examples.B "one")))).
  - reflexivity.
  - split; [exists ZIP_DEFLATED; by split|]. vm_compute. set_solver.
  - vm_compute. reflexivity.
  - vm_compute. reflexivity.
Defined.

(** ** Base data that cannot be had *)

(** X19: a failure of [get_source_data] is not cached.  When
    [get_source_data_with_cache] raises on a delta-patch class, nothing was
    cached for the class, the exception is the one its [get_source_data]
    raised, unwrapped, the cache and the files are as before, and the next
    call calls [get_source_data] again and raises the same.  A class that
    has only the [get_source_data] of [APDeltaPatch] gets
    [NotImplementedError]. *)
Theorem source_data_failure_not_cached (c : pyclass) (w w1 : world) (e : exn) :
  kind_of c = APDeltaPatch →
  get_source_data_with_cache c w = (Raise e, w1) →
  cached_source_data (source_data w) c = None
  ∧ (∃ g, class_attr b_get_source_data c = Some g ∧ g (files w) = Raise e)
  ∧ w1 = emit (EvGetSourceData (class_key c) false) w
  ∧ get_source_data_with_cache c w1 = (Raise e, emit (EvGetSourceData (class_key c) false) w1)
  ∧ (class_attr b_get_source_data c = b_get_source_data (body_of APDeltaPatch) →
     e = Exn NotImplementedError [] None).
Proof.
  intros Hk. destruct (get_source_data_defined c Hk) as [g Hg].
  unfold get_source_data_with_cache. rewrite Hk.
  destruct (cached_source_data (source_data w) c) eqn:Hc; [done|]. rewrite Hg.
  destruct (g (files w)) as [b|e'] eqn:Hgw; [done|]. intros [= <- <-].
  split; [done|]. split; [by eauto|]. split; [done|]. simpl. rewrite Hc, Hgw.
  split; [done|]. simpl. intros [= ->]. by injection Hgw.
Qed.

(** X19 on [APDeltaPatch] itself. *)
Lemma source_data_failure_not_cached_witness :
  cached_source_data (source_data Examples.empty_world) (Builtin APDeltaPatch) = None
  ∧ (∃ g, class_attr b_get_source_data (Builtin APDeltaPatch) = Some g
          ∧ g (files Examples.empty_world) = Raise (Exn NotImplementedError [] None))
  ∧ emit (EvGetSourceData ["APDeltaPatch"] false) Examples.empty_world
    = emit (EvGetSourceData (class_key (Builtin APDeltaPatch)) false) Examples.empty_world
  ∧ get_source_data_with_cache (Builtin APDeltaPatch)
      (emit (EvGetSourceData ["APDeltaPatch"] false) Examples.empty_world)
    = (Raise (Exn NotImplementedError [] None),
       emit (EvGetSourceData (class_key (Builtin APDeltaPatch)) false)
            (emit (EvGetSourceData ["APDeltaPatch"] false) Examples.empty_world))
  ∧ (class_attr b_get_source_data (Builtin APDeltaPatch)
     = b_get_source_data (body_of APDeltaPatch) →
     Exn NotImplementedError [] None = Exn NotImplementedError [] None).
Proof.
  apply (source_data_failure_not_cached (Builtin APDeltaPatch) Examples.empty_world);
    reflexivity.
Defined.
